(** * Cross-chain bridge adapters and the transfer-verification harness

    A shallow embedding of the Interlay/Kintsugi, Astar and Parallel/Heiko
    adapters ([src/adapters/interlay.ts], [astar.ts], [parallel.ts]) and of
    the transfer-verification script ([sendTx], [checkTransfer],
    [retryCheckTransfer]), with the properties the specification states
    about them. *)

From Stdlib Require Import ZArith QArith Qround Lqa Lia List String Ascii Bool.
From stdpp Require Import base gmap strings.
From Equations Require Import Equations.
Import ListNotations.

Open Scope string_scope.

(* ===================================================================== *)
(** * Fixed-point amounts *)
(* ===================================================================== *)

(** Powers of ten, as rationals. *)
Definition pow10 (p : nat) : Q := inject_Z (10 ^ Z.of_nat p).

(** A JavaScript [number] as far as the sources compare one: a rational, or
    one of the three values a division by zero produces. *)
Inductive number : Type :=
| Finite (q : Q)
| PosInfinity
| NegInfinity
| NaN.

(** [x <= y] and [x < y] of JavaScript, for a literal right operand. *)
Definition number_leb (x : number) (y : Q) : bool :=
  match x with
  | Finite q => Qle_bool q y
  | NegInfinity => true
  | PosInfinity | NaN => false
  end.

Definition number_ltb (x : number) (y : Q) : bool :=
  match x with
  | Finite q => negb (Qle_bool y q)
  | NegInfinity => true
  | PosInfinity | NaN => false
  end.

Module FN.

(** Modelled from the spec: the fixed-point amount type [FN]
    ([FixedPointNumber] of the imported package [@acala-network/sdk-core])
    is used, not defined, by the sources.  An amount is its inner count of
    smallest units together with its decimal precision; the number it
    denotes is [inner / 10 ^ precision].  Following the formulas of the
    spec, [add], [minus], [mul] and [div] are the exact operations on the
    denoted numbers, the result keeping the precision of the left operand.
    Rounding that the package may apply is outside this model. *)
Record t : Type := mk { inner : Q; precision : nat }.

Definition value (a : t) : Q := inner a / pow10 (precision a).

(** [FN.fromInner(origin, precision)]; the numeric string [origin] is
    modelled by the integer it spells.  The package's default precision is
    18. *)
Definition fromInner (origin : Z) (p : nat) : t := mk (inject_Z origin) p.

Definition defaultPrecision : nat := 18.

(** [new FN(x)] *)
Definition ofNumber (x : Q) : t :=
  mk (x * pow10 defaultPrecision) defaultPrecision.

Definition ZERO : t := ofNumber 0.

Definition getPrecision (a : t) : nat := precision a.
Definition _getInner (a : t) : Q := inner a.

(** The inner value of [b] once aligned to precision [p]. *)
Definition aligned (p : nat) (b : t) : Q :=
  inner b * pow10 p / pow10 (precision b).

Definition add (a b : t) : t :=
  mk (inner a + aligned (precision a) b) (precision a).

Definition minus (a b : t) : t :=
  mk (inner a - aligned (precision a) b) (precision a).

Definition sub : t -> t -> t := minus.

Definition mul (a b : t) : t :=
  mk (inner a * aligned (precision a) b / pow10 (precision a)) (precision a).

Definition isZero (a : t) : bool := Qeq_bool (inner a) 0.

(** [a.div(b).toNumber()]: the quotient as a JavaScript number.  A zero
    divisor gives an infinity, or NaN for 0/0. *)
Definition divToNumber (a b : t) : number :=
  if Qeq_bool (inner b) 0 then
    if Qeq_bool (inner a) 0 then NaN
    else if Qle_bool 0 (inner a) then PosInfinity else NegInfinity
  else Finite (value a / value b).

(** [toChainData()]: the inner value as an integer. *)
Definition toChainData (a : t) : Z := Qfloor (inner a).

End FN.

(* ===================================================================== *)
(** * Types shared by the adapters ([src/types], [src/errors]) *)
(* ===================================================================== *)

Definition ChainName : Type := string.

(** The errors the adapters throw. *)
Inductive Error : Type :=
| ApiNotFound (chain : ChainName)
| CurrencyNotFound (token : string)
| TypeError (message : string)
| OtherError (message : string).

(* --------------------------------------------------------------------- *)
(** ** Object literals *)
(* --------------------------------------------------------------------- *)

(** The token tables of the adapters are object literals, read with
    [table[token]].  Reading a property of an object literal gives the own
    property of that name if the literal has one; otherwise the member the
    object inherits from [Object.prototype] under that name, if there is
    one; otherwise [undefined].  The inherited members are functions, but
    for [__proto__], which is the prototype itself: none of them is
    [undefined], and all of them are truthy. *)
Definition Object_prototype : list string :=
  [ "constructor"; "__defineGetter__"; "__defineSetter__"; "hasOwnProperty";
    "__lookupGetter__"; "__lookupSetter__"; "isPrototypeOf";
    "propertyIsEnumerable"; "toString"; "valueOf"; "__proto__";
    "toLocaleString" ].

Inductive Property (V : Type) : Type :=
| Own (v : V)
| Inherited (name : string)
| Undefined.
Arguments Own {V} v.
Arguments Inherited {V} name.
Arguments Undefined {V}.

(** [object[key]] *)
Definition getProperty {V : Type} (object : gmap string V) (key : string) : Property V :=
  match object !! key with
  | Some v => Own v
  | None =>
      if existsb (String.eqb key) Object_prototype then Inherited key else Undefined
  end.

(** [BasicToken]: the numeric string [ed] is modelled by the integer it
    spells. *)
Record BasicToken : Type := {
  name : string;
  symbol : string;
  decimals : nat;
  ed : Z
}.

(** [BalanceData] *)
Record BalanceData : Type := {
  free : FN.t;
  locked : FN.t;
  reserved : FN.t;
  available : FN.t
}.

(** [CrossChainTransferParams] *)
Record CrossChainTransferParams : Type := {
  to : ChainName;
  token : string;
  amount : FN.t;
  address : string;
  signer : string
}.

(** An entry of the [chains] table of [src/configs]; the table itself is a
    parameter of the adapters below. *)
Record Chain : Type := {
  id : ChainName;
  paraChainId : Z
}.

(** [TokenBalance], the result of [getCrossChainFee]. *)
Record TokenBalance : Type := {
  feeToken : string;
  balance : FN.t
}.

(** The members an adapter inherits from [BaseCrossChainAdapter], which is
    not among the sources: [chain], and [getCrossChainFee] and
    [getDestWeight], taken as they come.  [estimateTxFee], which builds the
    message with the adapter's own [createTx], is modelled with each
    adapter below. *)
Record BaseCrossChainAdapter : Type := {
  chain : Chain;
  getCrossChainFee : string -> ChainName -> Error + TokenBalance;
  getDestWeight : string -> ChainName -> option string
}.

(** [CrossChainRouterConfigs], without [from]: a route to a destination for
    a token, with the fee the destination charges (a token and a numeric
    string, modelled by the integer it spells) and the weight limit. *)
Record CrossChainRouterConfigs : Type := {
  route_to : ChainName;
  route_token : string;
  xcm_fee_token : string;
  xcm_fee_amount : Z;
  xcm_weightLimit : string
}.

(* --------------------------------------------------------------------- *)
(** ** XCM values built by [createTx] *)
(* --------------------------------------------------------------------- *)

Inductive NetworkId : Type := Any.

Inductive Junction : Type :=
| Parachain (paraId : Z)
| AccountId32 (accountId : string) (network : option NetworkId)
| GeneralKey (key : string)
| GeneralKeyV3 (length : Q) (data : string).

Inductive Junctions : Type :=
| Here
| X1 (j : Junction)
| X2 (j1 j2 : Junction).

Record MultiLocation : Type := {
  parents : Z;
  interior : Junctions
}.

Record MultiAsset : Type := {
  concrete : MultiLocation;
  fungible : Z
}.

Inductive Versioned (A : Type) : Type :=
| V1 (a : A)
| V3 (a : A).
Arguments V1 {A} a.
Arguments V3 {A} a.

(** The version tag of a versioned value, and the value it carries. *)
Definition isV1 {A : Type} (v : Versioned A) : bool :=
  match v with
  | V1 _ => true
  | V3 _ => false
  end.

Definition unversioned {A : Type} (v : Versioned A) : A :=
  match v with
  | V1 a => a
  | V3 a => a
  end.

(* --------------------------------------------------------------------- *)
(** ** Observables *)
(* --------------------------------------------------------------------- *)

(** An observable is modelled by the list of the values it emits, in
    order.  An error raised while a value is computed ends the list. *)

(** [pipe(map(f))] with a callback that may raise. *)
Fixpoint mapObservable {A B : Type} (f : A -> option B) (source : list A) : list B :=
  match source with
  | [] => []
  | x :: rest =>
      match f x with
      | Some y => y :: mapObservable f rest
      | None => []
      end
  end.

(** [combineLatest] of two sources.  The schedule says which source emits
    next ([true]: the first); the latest values are kept, and a pair is
    emitted at each emission once both sources have emitted. *)
Fixpoint combineLatest2 {A B : Type} (schedule : list bool)
    (latestA : option A) (latestB : option B)
    (sourceA : list A) (sourceB : list B) : list (A * B) :=
  match schedule with
  | [] => []
  | true :: later =>
      match sourceA with
      | [] => combineLatest2 later latestA latestB sourceA sourceB
      | a :: restA =>
          match latestB with
          | Some b => (a, b) :: combineLatest2 later (Some a) latestB restA sourceB
          | None => combineLatest2 later (Some a) latestB restA sourceB
          end
      end
  | false :: later =>
      match sourceB with
      | [] => combineLatest2 later latestA latestB sourceA sourceB
      | b :: restB =>
          match latestA with
          | Some a => (a, b) :: combineLatest2 later latestA (Some b) sourceA restB
          | None => combineLatest2 later latestA (Some b) sourceA restB
          end
      end
  end.

(** The three sources of a schedule of [combineLatest3]. *)
Inductive Source3 : Type := SrcA | SrcB | SrcC.

Definition emit3 {A B C : Type} (la : option A) (lb : option B) (lc : option C)
    : list (A * B * C) :=
  match la, lb, lc with
  | Some a, Some b, Some c => [(a, b, c)]
  | _, _, _ => []
  end.

Fixpoint combineLatest3 {A B C : Type} (schedule : list Source3)
    (latestA : option A) (latestB : option B) (latestC : option C)
    (sourceA : list A) (sourceB : list B) (sourceC : list C) : list (A * B * C) :=
  match schedule with
  | [] => []
  | SrcA :: later =>
      match sourceA with
      | [] => combineLatest3 later latestA latestB latestC sourceA sourceB sourceC
      | a :: restA =>
          emit3 (Some a) latestB latestC
            ++ combineLatest3 later (Some a) latestB latestC restA sourceB sourceC
      end
  | SrcB :: later =>
      match sourceB with
      | [] => combineLatest3 later latestA latestB latestC sourceA sourceB sourceC
      | b :: restB =>
          emit3 latestA (Some b) latestC
            ++ combineLatest3 later latestA (Some b) latestC sourceA restB sourceC
      end
  | SrcC :: later =>
      match sourceC with
      | [] => combineLatest3 later latestA latestB latestC sourceA sourceB sourceC
      | c :: restC =>
          emit3 latestA latestB (Some c)
            ++ combineLatest3 later latestA latestB (Some c) sourceA sourceB restC
      end
  end.

(* --------------------------------------------------------------------- *)
(** ** The max-sendable amount, as the specification words it *)
(* --------------------------------------------------------------------- *)

(** [available_balance − feeFactor × estimatedTxFee − minimumBalanceToExist]
    with [feeFactor = 1.2], on the numbers the amounts denote. *)
Definition spec_maxSendable (availableBalance estimatedTxFee minimumBalanceToExist : Q) : Q :=
  availableBalance - (12 # 10) * estimatedTxFee - minimumBalanceToExist.

(** The estimated fees, as the specification words them: the dry-run
    estimates of the to-be-built message when the token sent is the chain's
    native token, and zero otherwise.  [toBeBuilt] is the message, if it
    can be built, and [dryRun] the dry-run fee-estimation primitive of the
    chain handle. *)
Definition spec_estimatedTxFees {Api Tx : Type} (native : bool) (api : option Api)
    (toBeBuilt : Error + Tx) (dryRun : Api -> Tx -> list Z) (fees : list Z) : Prop :=
  if native
  then exists a tx, api = Some a /\ toBeBuilt = inr tx /\ fees = dryRun a tx
  else fees = [0%Z].

(* ===================================================================== *)
(** * The Interlay and Kintsugi adapter ([src/adapters/interlay.ts]) *)
(* ===================================================================== *)

Module Interlay.

Definition interlayTokensConfig (chainname : string) : gmap string BasicToken :=
  if String.eqb chainname "interlay" then
    list_to_map
      [ ("DOT", {| name := "DOT"; symbol := "DOT"; decimals := 10; ed := 0 |});
        ("USDT", {| name := "USDT"; symbol := "USDT"; decimals := 6; ed := 0 |}) ]
  else if String.eqb chainname "kintsugi" then
    list_to_map
      [ ("KSM", {| name := "KSM"; symbol := "KSM"; decimals := 12; ed := 0 |});
        ("USDT", {| name := "USDT"; symbol := "USDT"; decimals := 6; ed := 0 |}) ]
  else ∅.

(** The currency ids of the supported-token tables. *)
Inductive CurrencyId : Type :=
| Token (symbol : string)
| ForeignAsset (assetId : Z).

Definition KINTSUGI_SUPPORTED_TOKENS : gmap string CurrencyId :=
  list_to_map [ ("KSM", Token "KSM"); ("USDT", ForeignAsset 3) ].

Definition INTERLAY_SUPPORTED_TOKENS : gmap string CurrencyId :=
  list_to_map [ ("DOT", Token "DOT"); ("USDT", ForeignAsset 2) ].

Definition getSupportedTokens (chainname : string) : gmap string CurrencyId :=
  if String.eqb chainname "interlay"
  then INTERLAY_SUPPORTED_TOKENS
  else KINTSUGI_SUPPORTED_TOKENS.

(** The extrinsics [createTx] builds; a currency id is what the read of the
    supported-token table gave. *)
Inductive Extrinsic : Type :=
| xTokens_transfer (currencyId : Property CurrencyId) (amount : Z)
    (dest : Versioned MultiLocation) (destWeight : option string)
| xTokens_transferMulticurrencies (currencies : list (Property CurrencyId * Z))
    (feeItem : Z) (dest : Versioned MultiLocation) (destWeight : option string).

Definition dest (tx : Extrinsic) : Versioned MultiLocation :=
  match tx with
  | xTokens_transfer _ _ d _ => d
  | xTokens_transferMulticurrencies _ _ d _ => d
  end.

(** A tick of the [query.tokens.accounts] storage: the account record, of
    which the adapter reads the [free] field, if there is one. *)
Record AccountData : Type := {
  account_free : option Z
}.

(** The live chain handle, as far as the adapter uses it. *)
Record Api : Type := {
  (** [createBalanceStorages(api).assets(address, token).observable] *)
  query_tokens_accounts : string -> Property CurrencyId -> list AccountData;
  (** [api.createType("AccountId32", address).toHex()] *)
  accountId32Hex : string -> string;
  (** [tx.paymentInfo(signer)], the dry-run fee-estimation primitive: the
      partial fees it reports, numeric strings modelled by the integers
      they spell *)
  paymentInfo : Extrinsic -> string -> list Z
}.

(** [InterlayBalanceAdapter], with the members it inherits from
    [BalanceAdapter], which is not among the sources: [nativeToken], and
    [getToken], taken as it comes ([None] when it gives no metadata for the
    token). *)
Record InterlayBalanceAdapter : Type := {
  ba_chain : ChainName;
  ba_api : Api;
  nativeToken : string;
  getToken : string -> option BasicToken
}.

Definition subscribeBalance (this : InterlayBalanceAdapter) (token address : string)
    : Error + list BalanceData :=
  match getProperty (getSupportedTokens (ba_chain this)) token with
  | Undefined => inl (CurrencyNotFound token)
  | tokenId =>
      inr (mapObservable
             (fun balance : AccountData =>
                match getToken this token with
                | None => None
                | Some tokenMeta =>
                    let amount :=
                      FN.fromInner
                        (match account_free balance with Some f => f | None => 0%Z end)
                        (decimals tokenMeta) in
                    Some {| free := amount;
                            locked := FN.ofNumber 0;
                            reserved := FN.ofNumber 0;
                            available := amount |}
                end)
             (query_tokens_accounts (ba_api this) address tokenId))
  end.

(** [BaseInterlayAdapter] *)
Record Adapter : Type := {
  base : BaseCrossChainAdapter;
  api : option Api;
  balanceAdapter : option InterlayBalanceAdapter
}.

Definition subscribeTokenBalance (this : Adapter) (token address : string)
    : Error + list BalanceData :=
  match balanceAdapter this with
  | None => inl (ApiNotFound (id (chain (base this))))
  | Some ba => subscribeBalance ba token address
  end.

(** The callback of [subscribeMaxInput]'s [map]. *)
Definition maxInputOf (ba : InterlayBalanceAdapter) (token : string)
    (balance : FN.t) (txFee : Z) : FN.t :=
  let tokenMeta := getToken ba token in
  let tokenDecimals :=
    match tokenMeta with Some m => decimals m | None => FN.defaultPrecision end in
  let feeFactor := 12 # 10 in
  let fee := FN.mul (FN.fromInner txFee tokenDecimals) (FN.ofNumber feeFactor) in
  (* always minus ed *)
  FN.minus (FN.minus balance fee)
    (FN.fromInner (match tokenMeta with Some m => ed m | None => 0%Z end) tokenDecimals).

Section Chains.

(** The [chains] table of [src/configs], and [isChainEqual] of
    [src/utils/is-chain-equal]. *)
Variable chains : ChainName -> Chain.
Variable isChainEqual : Chain -> ChainName -> bool.

Definition createTx (this : Adapter) (params : CrossChainTransferParams)
    : Error + Extrinsic :=
  match api this with
  | None => inl (ApiNotFound (id (chain (base this))))
  | Some api =>
      let toChain := chains (to params) in
      let accountId := accountId32Hex api (address params) in
      match getProperty (getSupportedTokens (id (chain (base this)))) (token params) with
      | Undefined => inl (CurrencyNotFound (token params))
      | tokenId =>
          (* to other parachains *)
          let dst :=
            {| parents := 1;
               interior := X2 (Parachain (paraChainId toChain))
                              (AccountId32 accountId (Some Any)) |} in
          (* to relay-chain *)
          let dst :=
            if isChainEqual toChain "kusama" || isChainEqual toChain "polkadot"
            then {| interior := X1 (AccountId32 accountId (Some Any)); parents := 1 |}
            else dst in
          if isChainEqual toChain "statemine" || isChainEqual toChain "statemint"
          then
            match getCrossChainFee (base this) (token params) (to params) with
            | inl e => inl e
            | inr destFee =>
                let destWeight := getDestWeight (base this) (token params) (to params) in
                inr (xTokens_transferMulticurrencies
                       [ (tokenId, FN.toChainData (amount params));
                         (Own (Token (feeToken destFee)),
                          FN.toChainData (balance destFee)) ]
                       1 (V1 dst) destWeight)
            end
          else
            inr (xTokens_transfer tokenId (FN.toChainData (amount params)) (V1 dst)
                   (getDestWeight (base this) (token params) (to params)))
      end
  end.

(** Modelled from the spec: [estimateTxFee] is inherited from
    [BaseCrossChainAdapter], which is not among the sources.  By the
    specification the estimated fee is "obtained by a dry-run cost estimate
    of the to-be-built message": the message is built by [createTx], whose
    errors are thrown on, and the dry run is [paymentInfo] of the chain
    handle, for the signer. *)
Definition estimateTxFee (this : Adapter) (params : CrossChainTransferParams)
    : Error + list Z :=
  match createTx this params with
  | inl e => inl e
  | inr tx =>
      match api this with
      | None => inl (ApiNotFound (id (chain (base this))))
      | Some api => inr (paymentInfo api tx (signer params))
      end
  end.

(** The members of the object given to [combineLatest] are evaluated in
    order: [txFee], which calls [estimateTxFee] at once for the native
    token, then [balance]. *)
Definition subscribeMaxInput (this : Adapter) (schedule : list bool)
    (token address : string) (to : ChainName) : Error + list FN.t :=
  match balanceAdapter this with
  | None => inl (ApiNotFound (id (chain (base this))))
  | Some ba =>
      match (if String.eqb token (nativeToken ba)
             then estimateTxFee this
                    {| amount := FN.ZERO; to := to; token := token;
                       address := address; signer := address |}
             else inr [0%Z]) with
      | inl e => inl e
      | inr txFee =>
          match subscribeBalance ba token address with
          | inl e => inl e
          | inr balances =>
              inr (map (fun '(txFee, balance) => maxInputOf ba token balance txFee)
                     (combineLatest2 schedule None None txFee (map available balances)))
          end
      end
  end.

End Chains.

Definition DEST_WEIGHT : string := "5000000000".

Definition interlayRoutersConfig : list CrossChainRouterConfigs :=
  [ {| route_to := "polkadot"; route_token := "DOT";
       xcm_fee_token := "DOT"; xcm_fee_amount := 0;
       xcm_weightLimit := DEST_WEIGHT |};
    {| route_to := "statemint"; route_token := "USDT";
       xcm_fee_token := "DOT"; xcm_fee_amount := 1000000000;
       xcm_weightLimit := DEST_WEIGHT |} ].

Definition kintsugiRoutersConfig : list CrossChainRouterConfigs :=
  [ {| route_to := "kusama"; route_token := "KSM";
       xcm_fee_token := "KSM"; xcm_fee_amount := 10;
       xcm_weightLimit := DEST_WEIGHT |};
    {| route_to := "statemine"; route_token := "USDT";
       xcm_fee_token := "USDT"; xcm_fee_amount := 10;
       xcm_weightLimit := DEST_WEIGHT |} ].

(** The routers table the adapter of a chain is constructed with
    ([InterlayAdapter], [KintsugiAdapter]). *)
Definition routersConfigOf (chainname : string) : list CrossChainRouterConfigs :=
  if String.eqb chainname "interlay" then interlayRoutersConfig
  else kintsugiRoutersConfig.

End Interlay.

(* ===================================================================== *)
(** * JavaScript string operations used by the Astar adapter *)
(* ===================================================================== *)

Fixpoint string_drop (n : nat) (s : string) : string :=
  match n, s with
  | O, _ => s
  | S n', EmptyString => EmptyString
  | S n', String _ rest => string_drop n' rest
  end.

(** [s.startsWith(pattern)] *)
Fixpoint string_startsWith (pattern s : string) : bool :=
  match pattern with
  | EmptyString => true
  | String a pattern' =>
      match s with
      | EmptyString => false
      | String b s' => Ascii.eqb a b && string_startsWith pattern' s'
      end
  end.

(** [s.replace(pattern, replacement)] with a string pattern: the first
    occurrence only. *)
Fixpoint string_replace (pattern replacement s : string) : string :=
  if string_startsWith pattern s
  then replacement ++ string_drop (String.length pattern) s
  else match s with
       | EmptyString => EmptyString
       | String c rest => String c (string_replace pattern replacement rest)
       end.

(** The first [n] characters of [padString] repeated for ever, [rest] being
    what is left of the current copy. *)
Fixpoint string_fill (n : nat) (padString rest : string) : string :=
  match n with
  | O => EmptyString
  | S n' =>
      match rest with
      | String c rest' => String c (string_fill n' padString rest')
      | EmptyString =>
          match padString with
          | String c rest' => String c (string_fill n' padString rest')
          | EmptyString => EmptyString
          end
      end
  end.

(** [s.padEnd(targetLength, padString)] *)
Definition padEnd (s : string) (targetLength : nat) (padString : string) : string :=
  if (targetLength <=? String.length s)%nat then s
  else s ++ string_fill (targetLength - String.length s) padString padString.

(* --------------------------------------------------------------------- *)
(** ** Byte strings in hexadecimal *)
(* --------------------------------------------------------------------- *)

(** A raw token id is written ["0x"] followed by two hexadecimal digits per
    byte. *)
Definition hexDigit (n : N) : ascii :=
  match n with
  | 0 => "0" | 1 => "1" | 2 => "2" | 3 => "3" | 4 => "4"
  | 5 => "5" | 6 => "6" | 7 => "7" | 8 => "8" | 9 => "9"
  | 10 => "a" | 11 => "b" | 12 => "c" | 13 => "d" | 14 => "e"
  | _ => "f"
  end%N%char.

Definition hexOfByte (b : Byte.byte) : string :=
  let n := Byte.to_N b in
  String (hexDigit (n / 16)) (String (hexDigit (n mod 16)) EmptyString).

Fixpoint hexOfBytes (bytes : list Byte.byte) : string :=
  match bytes with
  | [] => EmptyString
  | b :: rest => hexOfByte b ++ hexOfBytes rest
  end.

Definition toHex (bytes : list Byte.byte) : string := "0x" ++ hexOfBytes bytes.

(* ===================================================================== *)
(** * The Astar adapter ([src/adapters/astar.ts]) *)
(* ===================================================================== *)

Module Astar.

Definition astarTokensConfig (chainname : string) : gmap string BasicToken :=
  if String.eqb chainname "astar" then
    list_to_map
      [ ("ASTR", {| name := "ASTR"; symbol := "ASTR"; decimals := 18; ed := 1000000 |});
        ("IBTC", {| name := "IBTC"; symbol := "IBTC"; decimals := 8; ed := 1 |});
        ("INTR", {| name := "INTR"; symbol := "INTR"; decimals := 10; ed := 1 |}) ]
  else ∅.

Definition SUPPORTED_TOKENS : gmap string string :=
  list_to_map
    [ (* to interlay *)
      ("IBTC", "18446744073709551620");
      ("INTR", "18446744073709551621") ].

(** The extrinsics [createTx] builds. *)
Inductive Extrinsic : Type :=
| polkadotXcm_reserveTransferAssets (dst acc : Versioned MultiLocation)
    (ass : Versioned (list MultiAsset)) (feeAssetItem : Z)
| polkadotXcm_reserveWithdrawAssets (dst acc : Versioned MultiLocation)
    (ass : Versioned (list MultiAsset)) (feeAssetItem : Z).

(** The arguments of an extrinsic. *)
Definition dst_of (tx : Extrinsic) : Versioned MultiLocation :=
  match tx with
  | polkadotXcm_reserveTransferAssets dst _ _ _ => dst
  | polkadotXcm_reserveWithdrawAssets dst _ _ _ => dst
  end.

Definition acc_of (tx : Extrinsic) : Versioned MultiLocation :=
  match tx with
  | polkadotXcm_reserveTransferAssets _ acc _ _ => acc
  | polkadotXcm_reserveWithdrawAssets _ acc _ _ => acc
  end.

Definition ass_of (tx : Extrinsic) : Versioned (list MultiAsset) :=
  match tx with
  | polkadotXcm_reserveTransferAssets _ _ ass _ => ass
  | polkadotXcm_reserveWithdrawAssets _ _ ass _ => ass
  end.

(** A tick of [derive.balances.all]. *)
Record DeriveBalancesAll : Type := {
  freeBalance : Z;
  lockedBalance : Z;
  reservedBalance : Z;
  availableBalance : Z
}.

(** The record of [query.assets.account], of which the adapter reads the
    [balance] field, if there is one. *)
Record AssetAccount : Type := {
  asset_balance : option Z
}.

(** The live chain handle, as far as the adapter uses it. *)
Record Api : Type := {
  (** [createBalanceStorages(api).balances(address).observable] *)
  derive_balances_all : string -> list DeriveBalancesAll;
  (** [createBalanceStorages(api).assets(tokenId, address).observable]; a
      tick is an [Option] of the account record *)
  query_assets_account : Property string -> string -> list (option AssetAccount);
  (** [api.createType("AccountId32", address).toHex()] *)
  accountId32Hex : string -> string;
  (** [supportsV0V1Multilocation(api)] of
      [src/utils/xcm-versioned-multilocation-check] *)
  supportsV0V1Multilocation : bool;
  (** [tx.paymentInfo(signer)], the dry-run fee-estimation primitive: the
      partial fees it reports, numeric strings modelled by the integers
      they spell *)
  paymentInfo : Extrinsic -> string -> list Z
}.

(** [AstarBalanceAdapter], with the members it inherits from
    [BalanceAdapter], which is not among the sources: [nativeToken],
    [decimals], and [getToken], taken as it comes ([None] when it gives no
    metadata for the token). *)
Record AstarBalanceAdapter : Type := {
  ba_chain : ChainName;
  ba_api : Api;
  nativeToken : string;
  ba_decimals : nat;
  getToken : string -> option BasicToken
}.

(** [balance.unwrapOrDefault()?.balance?.toString() || "0"], as an integer *)
Definition rawAssetBalance (balance : option AssetAccount) : Z :=
  match balance with
  | Some account =>
      match asset_balance account with Some b => b | None => 0%Z end
  | None => 0%Z
  end.

Definition subscribeBalance (this : AstarBalanceAdapter) (token address : string)
    : Error + list BalanceData :=
  let storage := derive_balances_all (ba_api this) address in
  if String.eqb token (nativeToken this) then
    inr (map (fun data =>
                {| free := FN.fromInner (freeBalance data) (ba_decimals this);
                   locked := FN.fromInner (lockedBalance data) (ba_decimals this);
                   reserved := FN.fromInner (reservedBalance data) (ba_decimals this);
                   available := FN.fromInner (availableBalance data) (ba_decimals this) |})
           storage)
  else
    match getProperty SUPPORTED_TOKENS token with
    | Undefined => inl (CurrencyNotFound token)
    | tokenId =>
        inr (mapObservable
               (fun balance : option AssetAccount =>
                  match getToken this token with
                  | None => None
                  | Some tokenMeta =>
                      let amount :=
                        FN.fromInner (rawAssetBalance balance) (decimals tokenMeta) in
                      Some {| free := amount;
                              locked := FN.ofNumber 0;
                              reserved := FN.ofNumber 0;
                              available := amount |}
                  end)
               (query_assets_account (ba_api this) tokenId address))
    end.

(** [BaseAstarAdapter] *)
Record Adapter : Type := {
  base : BaseCrossChainAdapter;
  api : option Api;
  balanceAdapter : option AstarBalanceAdapter
}.

Definition subscribeTokenBalance (this : Adapter) (token address : string)
    : Error + list BalanceData :=
  match balanceAdapter this with
  | None => inl (ApiNotFound (id (chain (base this))))
  | Some ba => subscribeBalance ba token address
  end.

(** The callback of [subscribeMaxInput]'s [map]. *)
Definition maxInputOf (ba : AstarBalanceAdapter) (token : string)
    (balance : FN.t) (txFee : Z) : FN.t :=
  let tokenMeta := getToken ba token in
  let tokenDecimals :=
    match tokenMeta with Some m => decimals m | None => FN.defaultPrecision end in
  let feeFactor := 12 # 10 in
  let fee := FN.mul (FN.fromInner txFee tokenDecimals) (FN.ofNumber feeFactor) in
  (* always minus ed *)
  FN.minus (FN.minus balance fee)
    (FN.fromInner (match tokenMeta with Some m => ed m | None => 0%Z end) tokenDecimals).

Definition tokenIds : gmap string string :=
  list_to_map
    [ (* to interlay *)
      ("IBTC", "0x0001");
      ("INTR", "0x0002") ].

(** count bytes without the leading '0x' *)
Definition tokenIdByteCount (tokenId : string) : Q :=
  inject_Z (Z.of_nat (String.length (string_replace "0x" "" tokenId))) / 2.

Section Chains.

(** The [chains] table of [src/configs], and the constant
    [XCM_V3_GENERAL_KEY_DATA_BYTES] of
    [src/utils/xcm-versioned-multilocation-check]. *)
Variable chains : ChainName -> Chain.
Variable XCM_V3_GENERAL_KEY_DATA_BYTES : nat.

Definition paddedTokenId (tokenId : string) : string :=
  padEnd tokenId
    (* pad for a total length of required bytes plus '0x' *)
    (2 * XCM_V3_GENERAL_KEY_DATA_BYTES + 2)
    "00".

Definition createTx (this : Adapter) (params : CrossChainTransferParams)
    : Error + Extrinsic :=
  match api this with
  | None => inl (ApiNotFound (id (chain (base this))))
  | Some api =>
      let toChain := chains (to params) in
      let accountId := accountId32Hex api (address params) in
      let supportsV1 := supportsV0V1Multilocation api in
      let here_asset :=
        [ {| concrete := {| parents := 0; interior := Here |};
             fungible := FN.toChainData (amount params) |} ] in
      let '(dst, acc, ass) :=
        if supportsV1
        then ( V1 {| parents := 1; interior := X1 (Parachain (paraChainId toChain)) |},
               V1 {| parents := 0; interior := X1 (AccountId32 accountId (Some Any)) |},
               V1 here_asset )
        else ( V3 {| parents := 1; interior := X1 (Parachain (paraChainId toChain)) |},
               V3 {| parents := 0; interior := X1 (AccountId32 accountId None) |},
               V3 here_asset ) in
      if match balanceAdapter this with
         | Some ba => String.eqb (token params) (nativeToken ba)
         | None => false
         end
      then inr (polkadotXcm_reserveTransferAssets dst acc ass 0)
      else
        match getProperty tokenIds (token params) with
        | Undefined => inl (CurrencyNotFound (token params))
        | Inherited _ =>
            (* [tokenId.replace]: no inherited member has a [replace] *)
            inl (TypeError "tokenId.replace is not a function")
        | Own tokenId =>
            (* not native token: reconstruct asset argument *)
            let ass :=
              if supportsV1
              then V1 [ {| concrete :=
                             {| parents := 1;
                                interior := X2 (Parachain (paraChainId toChain))
                                               (GeneralKey tokenId) |};
                           fungible := FN.toChainData (amount params) |} ]
              else V3 [ {| concrete :=
                             {| parents := 1;
                                interior := X2 (Parachain (paraChainId toChain))
                                               (GeneralKeyV3 (tokenIdByteCount tokenId)
                                                             (paddedTokenId tokenId)) |};
                           fungible := FN.toChainData (amount params) |} ] in
            inr (polkadotXcm_reserveWithdrawAssets dst acc ass 0)
        end
  end.

(** Modelled from the spec: [estimateTxFee] is inherited from
    [BaseCrossChainAdapter], which is not among the sources.  By the
    specification the estimated fee is "obtained by a dry-run cost estimate
    of the to-be-built message": the message is built by [createTx], whose
    errors are thrown on, and the dry run is [paymentInfo] of the chain
    handle, for the signer. *)
Definition estimateTxFee (this : Adapter) (params : CrossChainTransferParams)
    : Error + list Z :=
  match createTx this params with
  | inl e => inl e
  | inr tx =>
      match api this with
      | None => inl (ApiNotFound (id (chain (base this))))
      | Some api => inr (paymentInfo api tx (signer params))
      end
  end.

(** The members of the object given to [combineLatest] are evaluated in
    order: [txFee], which calls [estimateTxFee] at once for the native
    token, then [balance]. *)
Definition subscribeMaxInput (this : Adapter) (schedule : list bool)
    (token address : string) (to : ChainName) : Error + list FN.t :=
  match balanceAdapter this with
  | None => inl (ApiNotFound (id (chain (base this))))
  | Some ba =>
      match (if String.eqb token (nativeToken ba)
             then estimateTxFee this
                    {| amount := FN.ZERO; to := to; token := token;
                       address := address; signer := address |}
             else inr [0%Z]) with
      | inl e => inl e
      | inr txFee =>
          match subscribeBalance ba token address with
          | inl e => inl e
          | inr balances =>
              inr (map (fun '(txFee, balance) => maxInputOf ba token balance txFee)
                     (combineLatest2 schedule None None txFee (map available balances)))
          end
      end
  end.

End Chains.

Definition astarRoutersConfig : list CrossChainRouterConfigs :=
  [ {| route_to := "interlay"; route_token := "IBTC";
       xcm_fee_token := "IBTC"; xcm_fee_amount := 710;
       xcm_weightLimit := "Unlimited" |};
    {| route_to := "interlay"; route_token := "INTR";
       xcm_fee_token := "INTR"; xcm_fee_amount := 216604720;
       xcm_weightLimit := "Unlimited" |} ].

End Astar.

(* ===================================================================== *)
(** * The Parallel and Heiko adapter ([src/adapters/parallel.ts]) *)
(* ===================================================================== *)

Module Parallel.

Definition SUPPORTED_TOKENS : gmap string Z :=
  list_to_map
    [ ("HKO", 0%Z);
      ("KAR", 107%Z);
      ("KUSD", 103%Z);
      ("LKSM", 109%Z);
      ("PARA", 1%Z);
      ("ACA", 108%Z);
      ("AUSD", 104%Z);
      ("LDOT", 110%Z) ].

(** [!tokenId] for what the read of the table gave: a number is falsy when
    it is 0, [undefined] is falsy, and an inherited member is truthy. *)
Definition not_ (tokenId : Property Z) : bool :=
  match tokenId with
  | Undefined => true
  | Own n => Z.eqb n 0
  | Inherited _ => false
  end.

(** The extrinsic [createTx] builds; the currency id is what the read of
    the table gave. *)
Inductive Extrinsic : Type :=
| xTokens_transfer (currencyId : Property Z) (amount : Z)
    (dest : Versioned MultiLocation) (destWeight : option string).

(** A tick of [derive.balances.all]. *)
Record DeriveBalancesAll : Type := {
  freeBalance : Z;
  lockedBalance : Z;
  reservedBalance : Z;
  availableBalance : Z
}.

(** The record of [query.assets.account], of which the adapter reads the
    [balance] field, if there is one. *)
Record AssetAccount : Type := {
  asset_balance : option Z
}.

(** The live chain handle, as far as the adapter uses it. *)
Record Api : Type := {
  (** [createBalanceStorages(api).balances(address).observable] *)
  derive_balances_all : string -> list DeriveBalancesAll;
  (** [createBalanceStorages(api).assets(tokenId, address).observable]; a
      tick is an [Option] of the account record *)
  query_assets_account : Property Z -> string -> list (option AssetAccount);
  (** [api.createType('AccountId32', address).toHex()] *)
  accountId32Hex : string -> string;
  (** [tx.paymentInfo(signer)], the dry-run fee-estimation primitive: the
      partial fees it reports, numeric strings modelled by the integers
      they spell *)
  paymentInfo : Extrinsic -> string -> list Z
}.

(** [ParallelBalanceAdapter], with the members it inherits from
    [BalanceAdapter], which is not among the sources: [nativeToken],
    [decimals], and [getTokenDecimals] and [getTokenED], taken as they
    come ([getTokenED] is an observable, an emission of which may be
    [undefined]). *)
Record ParallelBalanceAdapter : Type := {
  ba_chain : ChainName;
  ba_api : Api;
  nativeToken : string;
  ba_decimals : nat;
  getTokenDecimals : string -> nat;
  getTokenED : string -> list (option FN.t)
}.

(** [balance.unwrapOrDefault()?.balance?.toString() || '0'], as an integer *)
Definition rawAssetBalance (balance : option AssetAccount) : Z :=
  match balance with
  | Some account =>
      match asset_balance account with Some b => b | None => 0%Z end
  | None => 0%Z
  end.

Definition subscribeBalance (this : ParallelBalanceAdapter) (token address : string)
    : Error + list BalanceData :=
  let storage := derive_balances_all (ba_api this) address in
  if String.eqb token (nativeToken this) then
    inr (map (fun data =>
                {| free := FN.fromInner (freeBalance data) (ba_decimals this);
                   locked := FN.fromInner (lockedBalance data) (ba_decimals this);
                   reserved := FN.fromInner (reservedBalance data) (ba_decimals this);
                   available := FN.fromInner (availableBalance data) (ba_decimals this) |})
           storage)
  else
    let tokenId := getProperty SUPPORTED_TOKENS token in
    if not_ tokenId then inl (CurrencyNotFound token)
    else
      inr (map (fun balance : option AssetAccount =>
                  let amount :=
                    FN.fromInner (rawAssetBalance balance)
                      (getTokenDecimals this token) in
                  {| free := amount;
                     locked := FN.ofNumber 0;
                     reserved := FN.ofNumber 0;
                     available := amount |})
             (query_assets_account (ba_api this) tokenId address)).

(** [BaseParallelAdapter] *)
Record Adapter : Type := {
  base : BaseCrossChainAdapter;
  api : option Api;
  balanceAdapter : option ParallelBalanceAdapter
}.

Definition subscribeTokenBalance (this : Adapter) (token address : string)
    : Error + list BalanceData :=
  match balanceAdapter this with
  | None => inl (ApiNotFound (id (chain (base this))))
  | Some ba => subscribeBalance ba token address
  end.

(** The callback of [subscribeMaxInput]'s [map]. *)
Definition maxInputOf (ba : ParallelBalanceAdapter) (token : string)
    (balance : FN.t) (ed : option FN.t) (txFee : Z) : FN.t :=
  let feeFactor := 12 # 10 in
  let fee :=
    FN.mul (FN.fromInner txFee (getTokenDecimals ba token)) (FN.ofNumber feeFactor) in
  (* always minus ed *)
  FN.minus (FN.minus balance fee)
    (match ed with Some e => e | None => FN.ZERO end).

Section Chains.

(** The [chains] table of [src/configs]. *)
Variable chains : ChainName -> Chain.

Definition createTx (this : Adapter) (params : CrossChainTransferParams)
    : Error + Extrinsic :=
  match api this with
  | None => inl (ApiNotFound (id (chain (base this))))
  | Some api =>
      let toChain := chains (to params) in
      let accountId := accountId32Hex api (address params) in
      let tokenId := getProperty SUPPORTED_TOKENS (token params) in
      if not_ tokenId then inl (CurrencyNotFound (token params))
      else
        inr (xTokens_transfer tokenId (FN.toChainData (amount params))
               (V1 {| parents := 1;
                      interior := X2 (Parachain (paraChainId toChain))
                                     (AccountId32 accountId (Some Any)) |})
               (getDestWeight (base this) (token params) (to params)))
  end.

(** Modelled from the spec: [estimateTxFee] is inherited from
    [BaseCrossChainAdapter], which is not among the sources.  By the
    specification the estimated fee is "obtained by a dry-run cost estimate
    of the to-be-built message": the message is built by [createTx], whose
    errors are thrown on, and the dry run is [paymentInfo] of the chain
    handle, for the signer. *)
Definition estimateTxFee (this : Adapter) (params : CrossChainTransferParams)
    : Error + list Z :=
  match createTx this params with
  | inl e => inl e
  | inr tx =>
      match api this with
      | None => inl (ApiNotFound (id (chain (base this))))
      | Some api => inr (paymentInfo api tx (signer params))
      end
  end.

(** The members of the object given to [combineLatest] are evaluated in
    order: [txFee], which calls [estimateTxFee] at once for the native
    token, then [balance], then [ed]. *)
Definition subscribeMaxInput (this : Adapter) (schedule : list Source3)
    (token address : string) (to : ChainName) : Error + list FN.t :=
  match balanceAdapter this with
  | None => inl (ApiNotFound (id (chain (base this))))
  | Some ba =>
      match (if String.eqb token (nativeToken ba)
             then estimateTxFee this
                    {| amount := FN.ZERO; to := to; token := token;
                       address := address; signer := address |}
             else inr [0%Z]) with
      | inl e => inl e
      | inr txFee =>
          match subscribeBalance ba token address with
          | inl e => inl e
          | inr balances =>
              inr (map (fun '(txFee, balance, ed) => maxInputOf ba token balance ed txFee)
                     (combineLatest3 schedule None None None
                        txFee (map available balances) (getTokenED ba token)))
          end
      end
  end.

End Chains.

End Parallel.

(* ===================================================================== *)
(** * The transfer-verification script ([sendTx], [checkTransfer],
      [retryCheckTransfer], [runTestCasesAndExit]) *)
(* ===================================================================== *)

Module Harness.

Local Open Scope list_scope.

(** Modelled from the spec: the enumeration [BalanceChangedStatus] of
    [src/types], which is not among the sources, with the states of the
    verification state machine. *)
Inductive BalanceChangedStatus : Type := PENDING | CHECKING | SUCCESS | TIMEOUT.

#[global] Instance BalanceChangedStatus_eq_dec : EqDecision BalanceChangedStatus.
Proof. solve_decision. Defined.

Inductive TestCase : Type := FeeEstimate | ExistentialDeposit.

Inductive ResultCode : Type := OK | WARN | FAIL.

#[global] Instance ResultCode_eq_dec : EqDecision ResultCode.
Proof. solve_decision. Defined.

(** The messages of the results, by the template that builds them. *)
Inductive Message : Type :=
| NoMessage
| FailedToTransfer (sentAmount : FN.t) (testCase : TestCase)
| FeesNeedToBeIncreased (actualFee : FN.t) (actualFeePlancks : Q)
    (feeOverestimationFactor : number)
| EmptyError
| ErrorMessage (message : string).

Record IndividualTestResult : Type := {
  message : Message;
  result : ResultCode
}.

(** What the destination chain shows for one submitted transfer: the
    statuses of [subscribeBalanceChanged], and the first balance of
    [subscribeTokenBalance] read afterwards. *)
Record Delivery : Type := {
  changes : list BalanceChangedStatus;
  newBalance : BalanceData
}.

(** What the adapters and chains of one (from, to, token) triple do during
    one check.  [inl] is an error thrown by the call. *)
Record Channel : Type := {
  (** [firstValueFrom(originAdapter.subscribeMinInput(token, toChain))] *)
  subscribeMinInput : Message + FN.t;
  (** [originAdapter.getDestED(token, toChain).balance] *)
  getDestED : Message + FN.t;
  (** [originAdapter.getCrossChainFee(token, toChain).balance] *)
  getCrossChainFee : Message + FN.t;
  (** building and submitting a transfer of the given amount to a fresh
      address, and observing the destination *)
  transfer : TestCase -> FN.t -> Message + Delivery
}.

(** A transfer [sendTx] was asked to make. *)
Definition Sent : Type := (TestCase * FN.t)%type.

(** Computations that log the transfers asked for and may throw. *)
Definition M (A : Type) : Type := (list Sent * (Message + A))%type.

Definition ret {A : Type} (a : A) : M A := ([], inr a).

Definition throw {A : Type} (e : Message) : M A := ([], inl e).

Definition bind {A B : Type} (m : M A) (k : A -> M B) : M B :=
  match m with
  | (log, inl e) => (log, inl e)
  | (log, inr a) => let '(log', r) := k a in (log ++ log', r)
  end.

Definition lift {A : Type} (r : Message + A) : M A := ([], r).

Definition logSent (s : Sent) : M unit := ([s], inr tt).

Notation "'let*' x ':=' m 'in' k" := (bind m (fun x => k))
  (at level 10, x name, m at level 100, k at level 200).

(** [pipe(takeWhile(p, true))]: the values up to and including the first
    one that fails [p]. *)
Fixpoint takeWhileInclusive {A : Type} (p : A -> bool) (source : list A) : list A :=
  match source with
  | [] => []
  | x :: rest => if p x then x :: takeWhileInclusive p rest else [x]
  end.

(** [lastValueFrom], which throws on an observable that emits nothing. *)
Definition lastValueFrom {A : Type} (source : list A) : Message + A :=
  match rev source with
  | [] => inl EmptyError
  | x :: _ => inr x
  end.

Definition sendTx (c : Channel) (sentAmount : FN.t) (testCase : TestCase) : M FN.t :=
  let* _ := logSent (testCase, sentAmount) in
  let* delivery := lift (transfer c testCase sentAmount) in
  let q := takeWhileInclusive (fun x => bool_decide (x = CHECKING)) (changes delivery) in
  let* result := lift (lastValueFrom q) in
  let newBalance := free (newBalance delivery) in
  if negb (bool_decide (result = SUCCESS)) || FN.isZero newBalance
  then throw (FailedToTransfer sentAmount testCase)
  else
    let actualFee := FN.sub sentAmount newBalance in
    ret actualFee.

(** The judgement of the fee budget in [checkTransfer]: [inl] is the result
    returned at once, [inr] the value of [ret] the check goes on with. *)
Definition feeJudgement (feeBudget actualFee : FN.t)
    : IndividualTestResult + IndividualTestResult :=
  let ret := {| message := NoMessage; result := OK |} in
  let feeOverestimationFactor := FN.divToNumber feeBudget actualFee in
  let actualFeePlancks := FN._getInner actualFee in
  if number_leb feeOverestimationFactor 2 then
    let message :=
      FeesNeedToBeIncreased actualFee actualFeePlancks feeOverestimationFactor in
    (* if below 1, this is an error. *)
    if number_ltb feeOverestimationFactor 1
    then inl {| message := message; result := FAIL |}
    else
      (* not immediately failing, but dangerously close *)
      inr {| message := message; result := WARN |}
  else inr ret.

(** The verdict of the fee judgement. *)
Definition feeVerdict (feeBudget actualFee : FN.t) : ResultCode :=
  match feeJudgement feeBudget actualFee with
  | inl r => result r
  | inr r => result r
  end.

(** check existential deposit by sending exactly [actualFee + ed + [1 planck]] *)
Definition amountToSend (actualFee expectedEd : FN.t) : FN.t :=
  FN.add (FN.add actualFee expectedEd) (FN.fromInner 1 (FN.getPrecision actualFee)).

(** The body of the [try] of [checkTransfer]. *)
Definition checkTransferBody (c : Channel) : M IndividualTestResult :=
  let* expectedMinAmount := lift (subscribeMinInput c) in
  let* expectedEd := lift (getDestED c) in
  (* check that the fee set in the config are set sufficiently large *)
  let* actualFee := sendTx c (FN.mul expectedMinAmount (FN.ofNumber 10)) FeeEstimate in
  let* feeBudget := lift (getCrossChainFee c) in
  match feeJudgement feeBudget actualFee with
  | inl failed => ret failed
  | inr r =>
      let* _ := sendTx c (amountToSend actualFee expectedEd) ExistentialDeposit in
      ret r
  end.

(** [checkTransfer]: the result, and the transfers it asked for. *)
Definition checkTransfer (c : Channel) : list Sent * IndividualTestResult :=
  match checkTransferBody c with
  | (log, inr r) => (log, r)
  | (log, inl error) => (log, {| message := error; result := FAIL |})
  end.

(** The runs of [checkTransfer], by the step that decides the result: the
    transfers asked for, and the result. *)
Inductive CheckTrace (c : Channel) : list Sent -> IndividualTestResult -> Prop :=
| NoMinInput e :
    subscribeMinInput c = inl e ->
    CheckTrace c [] {| message := e; result := FAIL |}
| NoDestED m e :
    subscribeMinInput c = inr m ->
    getDestED c = inl e ->
    CheckTrace c [] {| message := e; result := FAIL |}
| FirstTransferFailed m ed e :
    subscribeMinInput c = inr m ->
    getDestED c = inr ed ->
    snd (sendTx c (FN.mul m (FN.ofNumber 10)) FeeEstimate) = inl e ->
    CheckTrace c [(FeeEstimate, FN.mul m (FN.ofNumber 10))]
      {| message := e; result := FAIL |}
| NoFeeBudget m ed fee e :
    subscribeMinInput c = inr m ->
    getDestED c = inr ed ->
    snd (sendTx c (FN.mul m (FN.ofNumber 10)) FeeEstimate) = inr fee ->
    getCrossChainFee c = inl e ->
    CheckTrace c [(FeeEstimate, FN.mul m (FN.ofNumber 10))]
      {| message := e; result := FAIL |}
| FeeTooLow m ed fee budget r :
    subscribeMinInput c = inr m ->
    getDestED c = inr ed ->
    snd (sendTx c (FN.mul m (FN.ofNumber 10)) FeeEstimate) = inr fee ->
    getCrossChainFee c = inr budget ->
    feeJudgement budget fee = inl r ->
    CheckTrace c [(FeeEstimate, FN.mul m (FN.ofNumber 10))] r
| FollowUpFailed m ed fee budget r e :
    subscribeMinInput c = inr m ->
    getDestED c = inr ed ->
    snd (sendTx c (FN.mul m (FN.ofNumber 10)) FeeEstimate) = inr fee ->
    getCrossChainFee c = inr budget ->
    feeJudgement budget fee = inr r ->
    snd (sendTx c (amountToSend fee ed) ExistentialDeposit) = inl e ->
    CheckTrace c
      [(FeeEstimate, FN.mul m (FN.ofNumber 10));
       (ExistentialDeposit, amountToSend fee ed)]
      {| message := e; result := FAIL |}
| Completed m ed fee budget r fee2 :
    subscribeMinInput c = inr m ->
    getDestED c = inr ed ->
    snd (sendTx c (FN.mul m (FN.ofNumber 10)) FeeEstimate) = inr fee ->
    getCrossChainFee c = inr budget ->
    feeJudgement budget fee = inr r ->
    snd (sendTx c (amountToSend fee ed) ExistentialDeposit) = inr fee2 ->
    CheckTrace c
      [(FeeEstimate, FN.mul m (FN.ofNumber 10));
       (ExistentialDeposit, amountToSend fee ed)]
      r.

(** A test case of the script. *)
Record TestCaseSpec : Type := {
  from : ChainName;
  to_ : ChainName;
  token_ : string
}.

(** What the script writes between the results. *)
Inductive Output : Type :=
| AttemptFailed (attemptCount maxAttempts : nat)
| GivingUp.

(** The state of a run of the script: the number of checks made so far, the
    transfers asked for, and what was written. *)
Record Run : Type := {
  checks : nat;
  sent : list Sent;
  stdout : list Output
}.

(** The behaviour of the chains: what the channel of a test case does during
    a check, given the number of checks made before it. *)
Definition World : Type := TestCaseSpec -> nat -> Channel.

(** One call of [checkTransfer] in a run. *)
Definition runCheck (w : World) (tc : TestCaseSpec) (r : Run)
    : IndividualTestResult * Run :=
  let '(log, res) := checkTransfer (w tc (checks r)) in
  (res, {| checks := S (checks r); sent := sent r ++ log; stdout := stdout r |}).

Definition write (o : Output) (r : Run) : Run :=
  {| checks := checks r; sent := sent r; stdout := stdout r ++ [o] |}.

Equations? retryCheckTransfer (w : World) (tc : TestCaseSpec)
    (maxAttempts attemptCount : nat) (r : Run)
    : IndividualTestResult * Run by wf (maxAttempts - attemptCount) lt :=
retryCheckTransfer w tc maxAttempts attemptCount r with runCheck w tc r := {
  | (res, r1) with bool_decide (result res = OK) := {
    | true := (res, r1);
    | false with lt_dec attemptCount maxAttempts := {
      (* try again if we have retries left *)
      | left _ :=
          retryCheckTransfer w tc maxAttempts (attemptCount + 1)
            (write (AttemptFailed attemptCount maxAttempts) r1);
      | right _ :=
          (res, write GivingUp (write (AttemptFailed attemptCount maxAttempts) r1)) } } }.
Proof. lia. Qed.

(** The body of the loop of [runTestCasesAndExit]: one test case, with the
    aggregate so far. *)
Definition runTestCase (w : World) (tc : TestCaseSpec)
    (state : ResultCode * Run) : ResultCode * Run :=
  let '(aggregateTestResult, r) := state in
  let '(res, r') := retryCheckTransfer w tc 3 1 r in
  if negb (bool_decide (result res = OK)) then
    if bool_decide (aggregateTestResult = OK)
       || (bool_decide (aggregateTestResult = WARN) && bool_decide (result res = FAIL))
    then (* only 'increase' the aggregate error *)
      (result res, r')
    else (aggregateTestResult, r')
  else (aggregateTestResult, r').

(** The result of the check made after [k] more checks of the run. *)
Definition attemptResult (w : World) (tc : TestCaseSpec) (r : Run) (k : nat)
    : IndividualTestResult :=
  snd (checkTransfer (w tc (checks r + k)%nat)).

Definition exitCode (aggregateTestResult : ResultCode) : Z :=
  match aggregateTestResult with
  | OK => 0
  | WARN => -1
  | FAIL => -2
  end.

(** [runTestCasesAndExit]: the exit code, and the final state of the run. *)
Definition runTestCasesAndExit (w : World) (testCases : list TestCaseSpec)
    : Z * Run :=
  let '(aggregateTestResult, r) :=
    fold_left (fun state tc => runTestCase w tc state) testCases
      (OK, {| checks := 0; sent := []; stdout := [] |}) in
  (exitCode aggregateTestResult, r).

Definition iconOf (code : ResultCode) : string :=
  match code with
  | OK => "✅"
  | WARN => "⚠️"
  | FAIL => "❌"
  end.

(** An entry of [problematicTestCases]. *)
Record ProblematicTestCase : Type := {
  problem_case : TestCaseSpec;
  problem_icon : string;
  problem_message : Message
}.

(** The body of the loop of [runTestCasesAndExit] with the list of failed
    and warning cases it collects. *)
Definition reportTestCase (w : World) (tc : TestCaseSpec)
    (state : ResultCode * list ProblematicTestCase * Run)
    : ResultCode * list ProblematicTestCase * Run :=
  let '(aggregateTestResult, problematicTestCases, r) := state in
  let '(res, r') := retryCheckTransfer w tc 3 1 r in
  if negb (bool_decide (result res = OK)) then
    let problematicTestCases :=
      problematicTestCases
        ++ [ {| problem_case := tc;
                problem_icon := iconOf (result res);
                problem_message := message res |} ] in
    if bool_decide (aggregateTestResult = OK)
       || (bool_decide (aggregateTestResult = WARN) && bool_decide (result res = FAIL))
    then (* only 'increase' the aggregate error *)
      (result res, problematicTestCases, r')
    else (aggregateTestResult, problematicTestCases, r')
  else (aggregateTestResult, problematicTestCases, r').

(** [runTestCasesAndExit] with [problematicTestCases]: the exit code, the
    cases collected as problematic, and the final state of the run. *)
Definition runTestCasesReport (w : World) (testCases : list TestCaseSpec)
    : Z * list ProblematicTestCase * Run :=
  let '(aggregateTestResult, problematicTestCases, r) :=
    fold_left (fun state tc => reportTestCase w tc state) testCases
      (OK, [], {| checks := 0; sent := []; stdout := [] |}) in
  (exitCode aggregateTestResult, problematicTestCases, r).

(** The results of the test cases of a run, in order, each retried as the
    script does. *)
Fixpoint testResults (w : World) (testCases : list TestCaseSpec) (r : Run)
    : list (TestCaseSpec * IndividualTestResult) :=
  match testCases with
  | [] => []
  | tc :: rest =>
      let '(res, r') := retryCheckTransfer w tc 3 1 r in
      (tc, res) :: testResults w rest r'
  end.

(** The test cases of [main]: each (chain, token) pair tested from Kintsugi
    and to Kintsugi. *)
Definition bidirectional (pairs : list (ChainName * string)) : list TestCaseSpec :=
  flat_map
    (fun '(targetChain, token) =>
       [ {| from := "kintsugi"; to_ := targetChain; token_ := token |};
         {| from := targetChain; to_ := "kintsugi"; token_ := token |} ])
    pairs.

Definition testcases : list TestCaseSpec :=
  bidirectional
    [ ("bifrost", "VKSM");
      ("kusama", "KSM");
      ("karura", "KBTC");
      ("karura", "KINT");
      ("karura", "LKSM");
      ("statemine", "USDT");
      ("heiko", "KINT");
      ("heiko", "KBTC") ].

End Harness.

(* ===================================================================== *)
(** * Sample chains and adapters *)
(* ===================================================================== *)

Module Samples.

(** [isChainEqual] by the identity of the chain. *)
Definition isChainEqual (c : Chain) (n : ChainName) : bool := String.eqb (id c) n.

(** The [chains] table, as far as the samples go. *)
Definition chains (n : ChainName) : Chain :=
  if String.eqb n "kusama" then {| id := "kusama"; paraChainId := -1 |}
  else if String.eqb n "polkadot" then {| id := "polkadot"; paraChainId := -1 |}
  else if String.eqb n "statemine" then {| id := "statemine"; paraChainId := 1000 |}
  else if String.eqb n "karura" then {| id := "karura"; paraChainId := 2000 |}
  else if String.eqb n "kintsugi" then {| id := "kintsugi"; paraChainId := 2092 |}
  else if String.eqb n "interlay" then {| id := "interlay"; paraChainId := 2032 |}
  else if String.eqb n "astar" then {| id := "astar"; paraChainId := 2006 |}
  else {| id := n; paraChainId := 2085 |}.

Definition alice : string := "5GrwvaEF5zXb26Fz9rcQpDWS57CtERHpNehXCPcNoHGKutQY".

(** The inherited members of a sample adapter of the named chain: a route
    to every destination. *)
Definition baseOf (n : ChainName) : BaseCrossChainAdapter :=
  {| chain := chains n;
     getCrossChainFee := fun token _ =>
       inr {| feeToken := token; balance := FN.fromInner 10 12 |};
     getDestWeight := fun _ _ => Some "5000000000" |}.

(** A Kintsugi chain on which every account holds 5000 smallest units at
    the first tick and has no record at the second; the dry run of every
    transfer reports a fee of 10 smallest units. *)
Definition kintsugiApi : Interlay.Api :=
  {| Interlay.query_tokens_accounts := fun _ _ =>
       [ {| Interlay.account_free := Some 5000%Z |};
         {| Interlay.account_free := None |} ];
     Interlay.accountId32Hex := fun address => address;
     Interlay.paymentInfo := fun _ _ => [10%Z] |}.

Definition kintsugiBalanceAdapter : Interlay.InterlayBalanceAdapter :=
  {| Interlay.ba_chain := "kintsugi";
     Interlay.ba_api := kintsugiApi;
     Interlay.nativeToken := "KINT";
     Interlay.getToken := fun token => Interlay.interlayTokensConfig "kintsugi" !! token |}.

Definition kintsugi : Interlay.Adapter :=
  {| Interlay.base := baseOf "kintsugi";
     Interlay.api := Some kintsugiApi;
     Interlay.balanceAdapter := Some kintsugiBalanceAdapter |}.

(** An Astar chain that only takes the newer encoding.  Every account
    holds 5000000 smallest units of the native token at the first tick, of
    which 1000 are locked, and nothing at the second; it has no record of
    an asset at the first tick and holds 7 smallest units at the second.
    The dry run of every transfer reports a fee of 10 smallest units. *)
Definition astarApi : Astar.Api :=
  {| Astar.derive_balances_all := fun _ =>
       [ {| Astar.freeBalance := 5000000; Astar.lockedBalance := 1000;
            Astar.reservedBalance := 0; Astar.availableBalance := 4999000 |};
         {| Astar.freeBalance := 0; Astar.lockedBalance := 0;
            Astar.reservedBalance := 0; Astar.availableBalance := 0 |} ];
     Astar.query_assets_account := fun _ _ =>
       [ None; Some {| Astar.asset_balance := Some 7%Z |} ];
     Astar.accountId32Hex := fun address => address;
     Astar.supportsV0V1Multilocation := false;
     Astar.paymentInfo := fun _ _ => [10%Z] |}.

Definition astarBalanceAdapter : Astar.AstarBalanceAdapter :=
  {| Astar.ba_chain := "astar";
     Astar.ba_api := astarApi;
     Astar.nativeToken := "ASTR";
     Astar.ba_decimals := 18;
     Astar.getToken := fun token => Astar.astarTokensConfig "astar" !! token |}.

Definition astar : Astar.Adapter :=
  {| Astar.base := baseOf "astar";
     Astar.api := Some astarApi;
     Astar.balanceAdapter := Some astarBalanceAdapter |}.

(** An Astar chain that takes the older encoding. *)
Definition astarApiV1 : Astar.Api :=
  {| Astar.derive_balances_all := Astar.derive_balances_all astarApi;
     Astar.query_assets_account := Astar.query_assets_account astarApi;
     Astar.accountId32Hex := Astar.accountId32Hex astarApi;
     Astar.supportsV0V1Multilocation := true;
     Astar.paymentInfo := Astar.paymentInfo astarApi |}.

Definition astarV1 : Astar.Adapter :=
  {| Astar.base := baseOf "astar";
     Astar.api := Some astarApiV1;
     Astar.balanceAdapter := Some astarBalanceAdapter |}.

(** A Heiko chain on which every account is empty; the dry run of every
    transfer reports a fee of 10 smallest units. *)
Definition heikoApi : Parallel.Api :=
  {| Parallel.derive_balances_all := fun _ =>
       [ {| Parallel.freeBalance := 0; Parallel.lockedBalance := 0;
            Parallel.reservedBalance := 0; Parallel.availableBalance := 0 |} ];
     Parallel.query_assets_account := fun _ _ => [ None ];
     Parallel.accountId32Hex := fun address => address;
     Parallel.paymentInfo := fun _ _ => [10%Z] |}.

Definition heikoBalanceAdapter : Parallel.ParallelBalanceAdapter :=
  {| Parallel.ba_chain := "heiko";
     Parallel.ba_api := heikoApi;
     Parallel.nativeToken := "HKO";
     Parallel.ba_decimals := 12;
     Parallel.getTokenDecimals := fun _ => 12%nat;
     Parallel.getTokenED := fun _ => [ Some (FN.fromInner 10000000000 12) ] |}.

Definition heiko : Parallel.Adapter :=
  {| Parallel.base := baseOf "heiko";
     Parallel.api := Some heikoApi;
     Parallel.balanceAdapter := Some heikoBalanceAdapter |}.

(** A Parallel chain, whose native token is PARA: every account holds 5
    smallest units of it, and the minimum balance is 1 smallest unit. *)
Definition parallelApi : Parallel.Api :=
  {| Parallel.derive_balances_all := fun _ =>
       [ {| Parallel.freeBalance := 5; Parallel.lockedBalance := 0;
            Parallel.reservedBalance := 0; Parallel.availableBalance := 5 |} ];
     Parallel.query_assets_account := fun _ _ => [ None ];
     Parallel.accountId32Hex := fun address => address;
     Parallel.paymentInfo := fun _ _ => [10%Z] |}.

Definition parallelBalanceAdapter : Parallel.ParallelBalanceAdapter :=
  {| Parallel.ba_chain := "parallel";
     Parallel.ba_api := parallelApi;
     Parallel.nativeToken := "PARA";
     Parallel.ba_decimals := 12;
     Parallel.getTokenDecimals := fun _ => 12%nat;
     Parallel.getTokenED := fun _ => [ Some (FN.fromInner 1 12) ] |}.

Definition parallel : Parallel.Adapter :=
  {| Parallel.base := baseOf "parallel";
     Parallel.api := Some parallelApi;
     Parallel.balanceAdapter := Some parallelBalanceAdapter |}.

Definition transferParams (to : ChainName) (token : string) : CrossChainTransferParams :=
  {| to := to; token := token; amount := FN.fromInner 10000000000 10;
     address := alice; signer := alice |}.

Import Harness.

(** A balance record with the given free balance, in smallest units. *)
Definition balanceOf (n : Z) : BalanceData :=
  {| free := FN.fromInner n 0;
     locked := FN.ofNumber 0;
     reserved := FN.ofNumber 0;
     available := FN.fromInner n 0 |}.

(** A channel with a minimum input of 100 units and a minimum balance of 5:
    of the 1000 units of the first transfer [arrived] arrive, and the
    follow-up transfer leaves [left] units. *)
Definition channel (feeBudget arrived left : Z) : Channel :=
  {| subscribeMinInput := inr (FN.fromInner 100 0);
     getDestED := inr (FN.fromInner 5 0);
     getCrossChainFee := inr (FN.fromInner feeBudget 0);
     transfer := fun testCase _ =>
       inr {| changes := [CHECKING; CHECKING; SUCCESS];
              newBalance :=
                balanceOf (match testCase with
                           | FeeEstimate => arrived
                           | ExistentialDeposit => left
                           end) |} |}.

Definition kintsugiToKusama : TestCaseSpec :=
  {| from := "kintsugi"; to_ := "kusama"; token_ := "KSM" |}.

Definition freshRun : Run := {| checks := 0; sent := []; stdout := [] |}.

(** A world in which the first check warns and the later ones time out. *)
Definition warnThenTimeout : World :=
  fun _ k =>
    match k with
    | O => channel 100 900 1
    | _ =>
        {| subscribeMinInput := inr (FN.fromInner 100 0);
           getDestED := inr (FN.fromInner 5 0);
           getCrossChainFee := inr (FN.fromInner 100 0);
           transfer := fun _ _ =>
             inr {| changes := [CHECKING; TIMEOUT]; newBalance := balanceOf 0 |} |}
    end.

(** A world in which every check fails, each with a budget of its own: the
    [k]-th check finds a fee budget of [k] units for an actual fee of 100. *)
Definition alwaysFailing : World :=
  fun _ k => channel (Z.of_nat k) 900 1.

(** A channel on which every transfer times out before it succeeds. *)
Definition timeoutThenSuccess : Channel :=
  {| subscribeMinInput := inr (FN.fromInner 100 0);
     getDestED := inr (FN.fromInner 5 0);
     getCrossChainFee := inr (FN.fromInner 100 0);
     transfer := fun _ _ =>
       inr {| changes := [CHECKING; TIMEOUT; SUCCESS]; newBalance := balanceOf 900 |} |}.

(** A world in which every check passes. *)
Definition alwaysOK : World := fun _ _ => channel 250 900 1.

End Samples.
(* ===================================================================== *)
(** * Properties of the fixed-point amounts *)
(* ===================================================================== *)

Section FNFacts.

Local Open Scope Q_scope.

Lemma pow10_pos (p : nat) : 0 < pow10 p.
Proof.
  unfold pow10. change 0 with (inject_Z 0). rewrite <- Zlt_Qlt.
  apply Z.pow_pos_nonneg; lia.
Qed.

Lemma pow10_nonzero (p : nat) : ~ pow10 p == 0.
Proof. pose proof (pow10_pos p). lra. Qed.

Lemma value_fromInner (n : Z) (p : nat) :
  FN.value (FN.fromInner n p) == inject_Z n / pow10 p.
Proof. reflexivity. Qed.

Lemma value_ofNumber (x : Q) : FN.value (FN.ofNumber x) == x.
Proof.
  unfold FN.value, FN.ofNumber; simpl.
  field. apply pow10_nonzero.
Qed.

Lemma value_ZERO : FN.value FN.ZERO == 0.
Proof. apply value_ofNumber. Qed.

Lemma value_add (a b : FN.t) : FN.value (FN.add a b) == FN.value a + FN.value b.
Proof.
  unfold FN.value, FN.add, FN.aligned; simpl.
  field. split; apply pow10_nonzero.
Qed.

Lemma value_minus (a b : FN.t) : FN.value (FN.minus a b) == FN.value a - FN.value b.
Proof.
  unfold FN.value, FN.minus, FN.aligned; simpl.
  field. split; apply pow10_nonzero.
Qed.

Lemma value_mul (a b : FN.t) : FN.value (FN.mul a b) == FN.value a * FN.value b.
Proof.
  unfold FN.value, FN.mul, FN.aligned; simpl.
  field. split; apply pow10_nonzero.
Qed.

Lemma value_zero_iff (a : FN.t) : FN.value a == 0 <-> FN.inner a == 0.
Proof.
  unfold FN.value. pose proof (pow10_pos (FN.precision a)) as Hp. split; intros H.
  - assert (E : FN.inner a == FN.inner a / pow10 (FN.precision a) * pow10 (FN.precision a))
      by (field; lra).
    rewrite E, H. ring.
  - rewrite H. field. lra.
Qed.

Lemma isZero_true_iff (a : FN.t) : FN.isZero a = true <-> FN.value a == 0.
Proof. unfold FN.isZero. rewrite Qeq_bool_iff. symmetry. apply value_zero_iff. Qed.

Lemma divToNumber_finite (a b : FN.t) :
  ~ FN.value b == 0 -> FN.divToNumber a b = Finite (FN.value a / FN.value b).
Proof.
  intros Hb. unfold FN.divToNumber.
  destruct (Qeq_bool (FN.inner b) 0) eqn:E; [|reflexivity].
  apply Qeq_bool_iff in E. apply value_zero_iff in E. contradiction.
Qed.

Lemma number_leb_finite (q y : Q) : number_leb (Finite q) y = true <-> q <= y.
Proof. apply Qle_bool_iff. Qed.

Lemma number_ltb_finite (q y : Q) : number_ltb (Finite q) y = true <-> q < y.
Proof.
  simpl. rewrite negb_true_iff. split; intros H.
  - apply Qnot_le_lt. intros Hle. apply Qle_bool_iff in Hle. congruence.
  - destruct (Qle_bool y q) eqn:E; [|reflexivity].
    apply Qle_bool_iff in E. lra.
Qed.

End FNFacts.

(* ===================================================================== *)
(** * Properties of the verification script *)
(* ===================================================================== *)

Section HarnessFacts.

Import Harness.
Local Open Scope list_scope.

(** [sendTx] logs the one transfer it is asked for, whatever happens. *)
Lemma sendTx_log (c : Channel) (amount : FN.t) (tcase : TestCase) :
  fst (sendTx c amount tcase) = [(tcase, amount)].
Proof.
  unfold sendTx, bind, logSent, lift, throw, ret.
  destruct (transfer c tcase amount) as [e|d]; [reflexivity|].
  destruct (lastValueFrom _) as [e|st]; [reflexivity|].
  destruct (negb (bool_decide (st = SUCCESS)) || FN.isZero (free (newBalance d)));
    reflexivity.
Qed.

(** When [sendTx] returns, the transfer was delivered, the last status was
    [SUCCESS], the new free balance is not zero, and the fee returned is
    the amount sent minus that balance. *)
Lemma sendTx_returns (c : Channel) (amount : FN.t) (tcase : TestCase) (fee : FN.t) :
  snd (sendTx c amount tcase) = inr fee ->
  exists d,
    transfer c tcase amount = inr d /\
    lastValueFrom
      (takeWhileInclusive (fun x => bool_decide (x = CHECKING)) (changes d))
      = inr SUCCESS /\
    FN.isZero (free (newBalance d)) = false /\
    fee = FN.sub amount (free (newBalance d)).
Proof.
  unfold sendTx, bind, logSent, lift, throw, ret.
  destruct (transfer c tcase amount) as [e|d]; [discriminate|].
  destruct (lastValueFrom _) as [e|st] eqn:Hlast; [discriminate|].
  destruct (bool_decide (st = SUCCESS)) eqn:Hst; simpl; [|discriminate].
  destruct (FN.isZero (free (newBalance d))) eqn:Hz; simpl; [discriminate|].
  intros [= <-]. apply bool_decide_eq_true in Hst. subst st.
  exists d. repeat split; assumption.
Qed.

(** A delivery that shows a zero free balance makes [sendTx] throw. *)
Lemma sendTx_zero_balance (c : Channel) (amount : FN.t) (tcase : TestCase) (d : Delivery) :
  transfer c tcase amount = inr d ->
  FN.isZero (free (newBalance d)) = true ->
  exists e, snd (sendTx c amount tcase) = inl e.
Proof.
  intros Hd Hz. destruct (snd (sendTx c amount tcase)) as [e|fee] eqn:E; [eauto|].
  apply sendTx_returns in E. destruct E as (d' & Hd' & _ & Hz' & _).
  congruence.
Qed.

Lemma sendTx_pair (c : Channel) (amount : FN.t) (tcase : TestCase) :
  sendTx c amount tcase = ([(tcase, amount)], snd (sendTx c amount tcase)).
Proof. rewrite <- (sendTx_log c amount tcase). apply surjective_pairing. Qed.

Lemma checkTransfer_trace (c : Channel) :
  CheckTrace c (fst (checkTransfer c)) (snd (checkTransfer c)).
Proof.
  unfold checkTransfer, checkTransferBody.
  destruct (subscribeMinInput c) as [e|m] eqn:Hm; simpl.
  { now apply NoMinInput. }
  destruct (getDestED c) as [e|ed] eqn:Hed; simpl.
  { now apply NoDestED with m. }
  rewrite (sendTx_pair c (FN.mul m (FN.ofNumber 10)) FeeEstimate).
  destruct (snd (sendTx c (FN.mul m (FN.ofNumber 10)) FeeEstimate)) as [e|fee] eqn:H1; simpl.
  { now apply FirstTransferFailed with ed. }
  destruct (getCrossChainFee c) as [e|budget] eqn:Hb; simpl.
  { now apply NoFeeBudget with ed fee. }
  destruct (feeJudgement budget fee) as [r|r] eqn:Hj; simpl.
  { now apply FeeTooLow with ed fee budget. }
  rewrite (sendTx_pair c (amountToSend fee ed) ExistentialDeposit).
  destruct (snd (sendTx c (amountToSend fee ed) ExistentialDeposit)) as [e|fee2] eqn:H2; simpl.
  { now apply FollowUpFailed with budget r. }
  now apply Completed with budget fee2.
Qed.

End HarnessFacts.

Section FeeJudgement.

Import Harness.
Local Open Scope Q_scope.

(** The verdict of the fee judgement, by the factor. *)
Lemma feeVerdict_spec (feeBudget actualFee : FN.t) :
  ~ FN.value actualFee == 0 ->
  let factor := FN.value feeBudget / FN.value actualFee in
  (feeVerdict feeBudget actualFee = FAIL <-> factor < 1) /\
  (feeVerdict feeBudget actualFee = WARN <-> 1 <= factor <= 2) /\
  (feeVerdict feeBudget actualFee = OK <-> 2 < factor).
Proof.
  intros Hfee factor. unfold feeVerdict, feeJudgement.
  rewrite (divToNumber_finite _ _ Hfee). fold factor.
  destruct (number_leb (Finite factor) 2) eqn:Hle.
  - apply number_leb_finite in Hle.
    destruct (number_ltb (Finite factor) 1) eqn:Hlt; simpl.
    + apply number_ltb_finite in Hlt.
      repeat split; intros; try discriminate; try lra.
    + assert (Hge : ~ factor < 1).
      { intros H. apply number_ltb_finite in H. congruence. }
      repeat split; intros; try discriminate; try lra.
  - assert (Hgt : ~ factor <= 2).
    { intros H. apply number_leb_finite in H. congruence. }
    simpl. repeat split; intros; try discriminate; try lra.
Qed.

Lemma feeJudgement_result (feeBudget actualFee : FN.t) (r : IndividualTestResult) :
  feeJudgement feeBudget actualFee = inl r \/ feeJudgement feeBudget actualFee = inr r ->
  result r = feeVerdict feeBudget actualFee.
Proof. unfold feeVerdict. intros [-> | ->]; reflexivity. Qed.

Lemma feeJudgement_inl_FAIL (feeBudget actualFee : FN.t) (r : IndividualTestResult) :
  feeJudgement feeBudget actualFee = inl r -> result r = FAIL.
Proof.
  unfold feeJudgement.
  destruct (number_leb _ 2); [|discriminate].
  destruct (number_ltb _ 1); [|discriminate].
  now intros [= <-].
Qed.

Lemma value_fromInner_ratio (a b : Z) (p : nat) :
  ~ b = 0%Z ->
  FN.value (FN.fromInner a p) / FN.value (FN.fromInner b p) == inject_Z a / inject_Z b.
Proof.
  intros Hb. rewrite !value_fromInner. field. split.
  - change 0 with (inject_Z 0). rewrite inject_Z_injective. exact Hb.
  - apply pow10_nonzero.
Qed.

Lemma value_fromInner_nonzero (b : Z) (p : nat) :
  ~ b = 0%Z -> ~ FN.value (FN.fromInner b p) == 0.
Proof.
  intros Hb H. apply value_zero_iff in H. simpl in H.
  change 0 with (inject_Z 0) in H. rewrite inject_Z_injective in H. contradiction.
Qed.

(** ** C1 *)

(** C1. In a verification session whose first transfer completes, the
    actual fee is the amount sent minus the free balance observed at the
    destination, and with [factor = feeBudget / actualFee] the verdict of
    the fee judgement is [FAIL] exactly when [factor < 1], [WARN] exactly
    when [1 <= factor <= 2] and [OK] exactly when [2 < factor]; the check
    returns [FAIL] at once when the factor is below 1, and returns the fee
    verdict when the follow-up transfer completes too.  A budget of 100
    gives [WARN] for an actual fee of 100, [FAIL] for 101 and [OK] for 40. *)
Theorem checkTransfer_fee_verdict
    (c : Channel) (expectedMinAmount expectedEd feeBudget actualFee : FN.t) :
  subscribeMinInput c = inr expectedMinAmount ->
  getDestED c = inr expectedEd ->
  snd (sendTx c (FN.mul expectedMinAmount (FN.ofNumber 10)) FeeEstimate) = inr actualFee ->
  getCrossChainFee c = inr feeBudget ->
  ~ FN.value actualFee == 0 ->
  let sentAmount := FN.mul expectedMinAmount (FN.ofNumber 10) in
  let factor := FN.value feeBudget / FN.value actualFee in
  let verdict := feeVerdict feeBudget actualFee in
  (exists d, transfer c FeeEstimate sentAmount = inr d /\
             FN.value actualFee == FN.value sentAmount - FN.value (free (newBalance d))) /\
  (verdict = FAIL <-> factor < 1) /\
  (verdict = WARN <-> 1 <= factor <= 2) /\
  (verdict = OK <-> 2 < factor) /\
  (factor < 1 -> result (snd (checkTransfer c)) = FAIL) /\
  (forall fee2,
     snd (sendTx c (amountToSend actualFee expectedEd) ExistentialDeposit) = inr fee2 ->
     result (snd (checkTransfer c)) = verdict) /\
  (forall p, feeVerdict (FN.fromInner 100 p) (FN.fromInner 100 p) = WARN) /\
  (forall p, feeVerdict (FN.fromInner 100 p) (FN.fromInner 101 p) = FAIL) /\
  (forall p, feeVerdict (FN.fromInner 100 p) (FN.fromInner 40 p) = OK).
Proof.
  intros Hm Hed Hsend Hbudget Hfee sentAmount factor verdict.
  destruct (feeVerdict_spec feeBudget actualFee Hfee) as (HF & HW & HO).
  fold factor verdict in HF, HW, HO.
  pose proof (checkTransfer_trace c) as Htrace.
  destruct (checkTransfer c) as [log res]; simpl in Htrace |- *.
  split; [|split; [exact HF|split; [exact HW|split; [exact HO|]]]].
  { destruct (sendTx_returns _ _ _ _ Hsend) as (d & Hd & _ & _ & ->).
    exists d. split; [exact Hd|]. unfold FN.sub. apply value_minus. }
  assert (Hrun :
    (exists r, feeJudgement feeBudget actualFee = inl r /\ res = r) \/
    (exists r, feeJudgement feeBudget actualFee = inr r /\
       ((exists e, snd (sendTx c (amountToSend actualFee expectedEd) ExistentialDeposit)
                   = inl e /\ res = {| message := e; result := FAIL |}) \/
        (exists fee2, snd (sendTx c (amountToSend actualFee expectedEd) ExistentialDeposit)
                      = inr fee2 /\ res = r)))).
  { inversion Htrace; subst; try congruence;
      repeat match goal with
             | H1 : ?x = inr ?a, H2 : ?x = inr ?b |- _ =>
                 assert (a = b) by congruence; subst a; clear H2
             end.
    - left. eauto.
    - right. eexists. split; [eassumption|]. left. eauto.
    - right. eexists. split; [eassumption|]. right. eauto. }
  split; [|split; [|repeat split]].
  - intros Hlt. apply HF in Hlt.
    destruct Hrun as [(r & Hj & ->) | (r & Hj & [(e & _ & ->) | (fee2 & _ & ->)])].
    + rewrite (feeJudgement_result feeBudget actualFee r) by (left; assumption).
      exact Hlt.
    + reflexivity.
    + rewrite (feeJudgement_result feeBudget actualFee r) by (right; assumption).
      exact Hlt.
  - intros fee2 Hfollow.
    destruct Hrun as [(r & Hj & ->) | (r & Hj & [(e & He & ->) | (fee3 & _ & ->)])].
    + apply feeJudgement_result. left; assumption.
    + congruence.
    + apply feeJudgement_result. right; assumption.
  - intros p.
    apply (feeVerdict_spec (FN.fromInner 100 p) (FN.fromInner 100 p)).
    + apply value_fromInner_nonzero; lia.
    + rewrite value_fromInner_ratio by lia. split; unfold Qle; simpl; lia.
  - intros p.
    apply (feeVerdict_spec (FN.fromInner 100 p) (FN.fromInner 101 p)).
    + apply value_fromInner_nonzero; lia.
    + rewrite value_fromInner_ratio by lia. unfold Qlt; simpl; lia.
  - intros p.
    apply (feeVerdict_spec (FN.fromInner 100 p) (FN.fromInner 40 p)).
    + apply value_fromInner_nonzero; lia.
    + rewrite value_fromInner_ratio by lia. unfold Qlt; simpl; lia.
Qed.

Lemma checkTransfer_fee_verdict_witness :
  result (snd (checkTransfer (Samples.channel 100 900 1))) = WARN.
Proof.
  assert (Hfee : ~ FN.value (FN.sub (FN.mul (FN.fromInner 100 0) (FN.ofNumber 10))
                               (FN.fromInner 900 0)) == 0)
    by (vm_compute; discriminate).
  destruct (checkTransfer_fee_verdict (Samples.channel 100 900 1)
              (FN.fromInner 100 0) (FN.fromInner 5 0) (FN.fromInner 100 0)
              (FN.sub (FN.mul (FN.fromInner 100 0) (FN.ofNumber 10)) (FN.fromInner 900 0))
              eq_refl eq_refl eq_refl eq_refl Hfee)
    as (_ & _ & HW & _ & _ & Hres & _).
  rewrite (Hres _ eq_refl). apply HW. vm_compute. split; discriminate.
Defined.

End FeeJudgement.

Section ExistentialDeposit.

Import Harness.
Local Open Scope Q_scope.

Lemma value_amountToSend (actualFee expectedEd : FN.t) :
  FN.value (amountToSend actualFee expectedEd)
  == FN.value actualFee + FN.value expectedEd + 1 / pow10 (FN.precision actualFee).
Proof.
  unfold amountToSend, FN.getPrecision.
  rewrite !value_add, value_fromInner. reflexivity.
Qed.

(** ** C6 *)

(** C6. Every follow-up transfer [checkTransfer] asks for is of exactly the
    actual fee of the first transfer, plus the configured existential
    deposit, plus one smallest unit; the follow-up is asked for whenever the
    fee judgement does not fail at once; and when the free balance observed
    at the destination after a transfer of the check is zero, the result of
    the check is [FAIL]. *)
Theorem checkTransfer_existential_deposit (c : Channel) :
  (forall amount, In (ExistentialDeposit, amount) (fst (checkTransfer c)) ->
     exists expectedMinAmount expectedEd actualFee d,
       subscribeMinInput c = inr expectedMinAmount /\
       getDestED c = inr expectedEd /\
       transfer c FeeEstimate (FN.mul expectedMinAmount (FN.ofNumber 10)) = inr d /\
       FN.value actualFee
         == FN.value (FN.mul expectedMinAmount (FN.ofNumber 10))
            - FN.value (free (newBalance d)) /\
       amount = amountToSend actualFee expectedEd /\
       FN.precision amount = FN.precision actualFee /\
       FN.value amount
         == FN.value actualFee + FN.value expectedEd
            + 1 / pow10 (FN.precision actualFee)) /\
  (forall expectedMinAmount expectedEd actualFee feeBudget,
     subscribeMinInput c = inr expectedMinAmount ->
     getDestED c = inr expectedEd ->
     snd (sendTx c (FN.mul expectedMinAmount (FN.ofNumber 10)) FeeEstimate)
       = inr actualFee ->
     getCrossChainFee c = inr feeBudget ->
     feeVerdict feeBudget actualFee <> FAIL ->
     In (ExistentialDeposit, amountToSend actualFee expectedEd)
        (fst (checkTransfer c))) /\
  (forall testCase amount d,
     In (testCase, amount) (fst (checkTransfer c)) ->
     transfer c testCase amount = inr d ->
     FN.value (free (newBalance d)) == 0 ->
     result (snd (checkTransfer c)) = FAIL).
Proof.
  pose proof (checkTransfer_trace c) as Htrace.
  destruct (checkTransfer c) as [log res]; simpl in Htrace |- *.
  split; [|split].
  - intros amount Hin.
    assert (Hex : exists m ed fee,
               subscribeMinInput c = inr m /\ getDestED c = inr ed /\
               snd (sendTx c (FN.mul m (FN.ofNumber 10)) FeeEstimate) = inr fee /\
               amount = amountToSend fee ed).
    { inversion Htrace; subst; simpl in Hin;
        repeat match goal with
               | H : _ \/ _ |- _ => destruct H
               | H : False |- _ => destruct H
               | H : (_, _) = (_, _) |- _ => inversion H; clear H; subst
               end; eauto 10. }
    destruct Hex as (m & ed & fee & Hm & Hed & Hsend & ->).
    destruct (sendTx_returns _ _ _ _ Hsend) as (d & Hd & _ & _ & Hfee).
    exists m, ed, fee, d. repeat split; try assumption.
    + rewrite Hfee. unfold FN.sub. apply value_minus.
    + apply value_amountToSend.
  - intros m ed fee budget Hm Hed Hsend Hbudget Hverdict.
    assert (Hj : forall r, feeJudgement budget fee <> inl r).
    { intros r Hr. apply Hverdict. unfold feeVerdict. rewrite Hr.
      exact (feeJudgement_inl_FAIL _ _ _ Hr). }
    inversion Htrace; subst; try congruence;
      repeat match goal with
             | H1 : ?x = inr ?a, H2 : ?x = inr ?b |- _ =>
                 assert (a = b) by congruence; subst a; clear H2
             end; try congruence; simpl; auto;
      exfalso; eapply Hj; eassumption.
  - intros testCase amount d Hin Hd Hzero.
    apply isZero_true_iff in Hzero.
    destruct (sendTx_zero_balance c amount testCase d Hd Hzero) as (e & He).
    inversion Htrace; subst; try reflexivity; simpl in Hin;
      repeat match goal with
             | H : _ \/ _ |- _ => destruct H
             | H : False |- _ => destruct H
             | H : (_, _) = (_, _) |- _ => inversion H; clear H; subst
             end; congruence.
Qed.

Lemma checkTransfer_existential_deposit_witness :
  result (snd (checkTransfer (Samples.channel 250 900 0))) = FAIL.
Proof.
  destruct (checkTransfer_existential_deposit (Samples.channel 250 900 0))
    as (_ & _ & Hzero).
  apply (Hzero ExistentialDeposit
           (amountToSend
              (FN.sub (FN.mul (FN.fromInner 100 0) (FN.ofNumber 10)) (FN.fromInner 900 0))
              (FN.fromInner 5 0))
           {| changes := [CHECKING; CHECKING; SUCCESS];
              newBalance := Samples.balanceOf 0 |}).
  - vm_compute. right. left. reflexivity.
  - reflexivity.
  - reflexivity.
Defined.

End ExistentialDeposit.

Section Retry.

Import Harness.

Lemma retryCheckTransfer_unfold (w : World) (tc : TestCaseSpec)
    (maxAttempts attemptCount : nat) (r : Run) :
  retryCheckTransfer w tc maxAttempts attemptCount r =
  let '(res, r1) := runCheck w tc r in
  if bool_decide (result res = OK) then (res, r1)
  else if lt_dec attemptCount maxAttempts
       then retryCheckTransfer w tc maxAttempts (attemptCount + 1)
              (write (AttemptFailed attemptCount maxAttempts) r1)
       else (res, write GivingUp (write (AttemptFailed attemptCount maxAttempts) r1)).
Proof.
  simp retryCheckTransfer.
  destruct (runCheck w tc r) as [res r1]; simpl.
  destruct (bool_decide (result res = OK)); simpl; [reflexivity|].
  destruct (lt_dec attemptCount maxAttempts); reflexivity.
Qed.

Lemma runCheck_result (w : World) (tc : TestCaseSpec) (r : Run) :
  fst (runCheck w tc r) = attemptResult w tc r 0 /\
  checks (snd (runCheck w tc r)) = S (checks r).
Proof.
  unfold runCheck, attemptResult. rewrite Nat.add_0_r.
  destruct (checkTransfer _) as [log res]. split; reflexivity.
Qed.

Lemma attemptResult_shift (w : World) (tc : TestCaseSpec) (r r' : Run) (k : nat) :
  checks r' = S (checks r) ->
  attemptResult w tc r' k = attemptResult w tc r (S k).
Proof.
  intros H. unfold attemptResult. rewrite H.
  f_equal. f_equal. f_equal. lia.
Qed.

(** The outcome of [retryCheckTransfer] with [more] retries left: the first
    check that is [OK], or the check made after all the retries. *)
Lemma retryCheckTransfer_outcome (w : World) (tc : TestCaseSpec) (maxAttempts : nat) :
  forall (more attemptCount : nat) (r : Run),
    more = maxAttempts - attemptCount ->
    let out := retryCheckTransfer w tc maxAttempts attemptCount r in
    (exists j, j <= more /\
       (forall i, i < j -> result (attemptResult w tc r i) <> OK) /\
       result (attemptResult w tc r j) = OK /\
       fst out = attemptResult w tc r j /\
       checks (snd out) = checks r + j + 1) \/
    ((forall i, i <= more -> result (attemptResult w tc r i) <> OK) /\
     fst out = attemptResult w tc r more /\
     checks (snd out) = checks r + more + 1).
Proof.
  induction more as [|more IH]; intros attemptCount r Hmore out; subst out;
    rewrite retryCheckTransfer_unfold;
    destruct (runCheck_result w tc r) as [Hres Hchecks];
    destruct (runCheck w tc r) as [res r1]; simpl in Hres, Hchecks; subst res;
    destruct (bool_decide (result (attemptResult w tc r 0) = OK)) eqn:Hok.
  - apply bool_decide_eq_true in Hok. left. exists 0.
    repeat split; simpl; first [assumption | lia | intros; lia].
  - apply bool_decide_eq_false in Hok.
    destruct (lt_dec attemptCount maxAttempts) as [Hlt|_]; [lia|].
    right. simpl. repeat split; try lia.
    intros i Hi. assert (i = 0) by lia. subst i. exact Hok.
  - apply bool_decide_eq_true in Hok. left. exists 0.
    repeat split; simpl; first [assumption | lia | intros; lia].
  - apply bool_decide_eq_false in Hok.
    destruct (lt_dec attemptCount maxAttempts) as [Hlt|Hge]; [|lia].
    set (r2 := write (AttemptFailed attemptCount maxAttempts) r1).
    assert (Hchecks2 : checks r2 = S (checks r)) by exact Hchecks.
    specialize (IH (attemptCount + 1) r2 ltac:(lia)). simpl in IH.
    destruct IH as [(j & Hj & Hbefore & Hat & Hfst & Hcnt) | (Hall & Hfst & Hcnt)].
    + left. exists (S j). rewrite (attemptResult_shift w tc r r2 j Hchecks2) in Hat, Hfst.
      repeat split; try assumption; try lia.
      intros i Hi. destruct i as [|i]; [exact Hok|].
      rewrite <- (attemptResult_shift w tc r r2 i Hchecks2). apply Hbefore. lia.
    + right. rewrite (attemptResult_shift w tc r r2 more Hchecks2) in Hfst.
      repeat split; try assumption; try lia.
      intros i Hi. destruct i as [|i]; [exact Hok|].
      rewrite <- (attemptResult_shift w tc r r2 i Hchecks2). apply Hall. lia.
Qed.

End Retry.

Section RetryClaims.

Import Harness.

(** ** C4 *)

(** C4, as the code has it. With a ceiling of at least one attempt, the
    retry orchestrator makes at most [maxAttempts] checks and returns the
    result of the first check whose verdict is [OK] (a check whose verdict
    is [WARN] or [FAIL] is tried again), or the result of the last of the
    [maxAttempts] checks when none is [OK]. *)
Theorem retryCheckTransfer_first_OK_or_last
    (w : World) (tc : TestCaseSpec) (maxAttempts : nat) (r : Run) :
  1 <= maxAttempts ->
  let out := retryCheckTransfer w tc maxAttempts 1 r in
  (exists j, j < maxAttempts /\
     (forall i, i < j -> result (attemptResult w tc r i) <> OK) /\
     result (attemptResult w tc r j) = OK /\
     fst out = attemptResult w tc r j /\
     checks (snd out) = checks r + j + 1) \/
  ((forall i, i < maxAttempts -> result (attemptResult w tc r i) <> OK) /\
   fst out = attemptResult w tc r (maxAttempts - 1) /\
   checks (snd out) = checks r + maxAttempts).
Proof.
  intros Hpos out.
  destruct (retryCheckTransfer_outcome w tc maxAttempts (maxAttempts - 1) 1 r eq_refl)
    as [(j & Hj & Hbefore & Hat & Hfst & Hcnt) | (Hall & Hfst & Hcnt)].
  - left. exists j. repeat split; try assumption; lia.
  - right. repeat split; try assumption.
    + intros i Hi. apply Hall. lia.
    + fold out in Hcnt. lia.
Qed.

Lemma retryCheckTransfer_first_OK_or_last_witness :
  checks (snd (retryCheckTransfer Samples.warnThenTimeout Samples.kintsugiToKusama 3 1
                 Samples.freshRun)) <= 3.
Proof.
  destruct (retryCheckTransfer_first_OK_or_last Samples.warnThenTimeout
              Samples.kintsugiToKusama 3 Samples.freshRun ltac:(lia))
    as [(j & Hj & _ & _ & _ & Hcnt) | (_ & _ & Hcnt)];
    rewrite Hcnt; simpl; lia.
Defined.

(** The first check warns: its verdict is not [FAIL]. The retrying goes on
    all the same, and the result returned is the third check's, a
    failure. *)
Lemma retryCheckTransfer_retries_after_WARN :
  let out := retryCheckTransfer Samples.warnThenTimeout Samples.kintsugiToKusama 3 1
               Samples.freshRun in
  result (attemptResult Samples.warnThenTimeout Samples.kintsugiToKusama
            Samples.freshRun 0) = WARN /\
  fst out <> attemptResult Samples.warnThenTimeout Samples.kintsugiToKusama
               Samples.freshRun 0 /\
  result (fst out) = FAIL /\
  checks (snd out) = 3.
Proof.
  vm_compute. repeat split. discriminate.
Qed.

(** ** C5 *)

(** C5. When every check fails, the retry orchestrator with a ceiling of
    [maxAttempts >= 1] makes exactly [maxAttempts] checks, and the result it
    returns is the last check's; the script runs it with a ceiling of 3, and
    a test case whose checks all fail costs it exactly 3 checks. *)
Theorem retryCheckTransfer_exhaustion
    (w : World) (tc : TestCaseSpec) (maxAttempts : nat) (r : Run) :
  1 <= maxAttempts ->
  (forall k, k < maxAttempts -> result (attemptResult w tc r k) = FAIL) ->
  let out := retryCheckTransfer w tc maxAttempts 1 r in
  checks (snd out) = checks r + maxAttempts /\
  fst out = attemptResult w tc r (maxAttempts - 1) /\
  result (fst out) = FAIL /\
  (maxAttempts = 3 ->
   forall aggregateTestResult,
     snd (runTestCase w tc (aggregateTestResult, r)) = snd out /\
     fst (runTestCase w tc (aggregateTestResult, r)) = FAIL).
Proof.
  intros Hpos Hfail out.
  destruct (retryCheckTransfer_outcome w tc maxAttempts (maxAttempts - 1) 1 r eq_refl)
    as [(j & Hj & _ & Hat & _) | (_ & Hfst & Hcnt)].
  { rewrite Hfail in Hat by lia. discriminate. }
  fold out in Hfst, Hcnt.
  assert (Hres : result (fst out) = FAIL) by (rewrite Hfst; apply Hfail; lia).
  repeat split; try assumption; try lia.
  - subst maxAttempts. unfold runTestCase. fold out.
    destruct out as [res r']. simpl in Hres. rewrite Hres. simpl.
    destruct aggregateTestResult; reflexivity.
  - subst maxAttempts. unfold runTestCase. fold out.
    destruct out as [res r']. simpl in Hres. rewrite Hres. simpl.
    destruct aggregateTestResult; reflexivity.
Qed.

Lemma retryCheckTransfer_exhaustion_witness :
  checks (snd (retryCheckTransfer Samples.alwaysFailing Samples.kintsugiToKusama 3 1
                 Samples.freshRun)) = 3 /\
  fst (retryCheckTransfer Samples.alwaysFailing Samples.kintsugiToKusama 3 1
         Samples.freshRun)
  = attemptResult Samples.alwaysFailing Samples.kintsugiToKusama Samples.freshRun 2.
Proof.
  assert (Hfail : forall k, k < 3 ->
            result (attemptResult Samples.alwaysFailing Samples.kintsugiToKusama
                      Samples.freshRun k) = FAIL).
  { intros k Hk. destruct k as [|[|[|k]]]; [reflexivity | reflexivity | reflexivity | lia]. }
  destruct (retryCheckTransfer_exhaustion Samples.alwaysFailing Samples.kintsugiToKusama
              3 Samples.freshRun ltac:(lia) Hfail)
    as (Hcnt & Hfst & _).
  split; [exact Hcnt | exact Hfst].
Defined.

End RetryClaims.

(* ===================================================================== *)
(** * Reading an object literal *)
(* ===================================================================== *)

Section ObjectFacts.

Context {V : Type}.

Lemma Object_prototype_In (key : string) :
  existsb (String.eqb key) Object_prototype = true <-> In key Object_prototype.
Proof.
  rewrite existsb_exists. split.
  - intros (name & Hin & Heq). apply String.eqb_eq in Heq. now subst.
  - intros Hin. exists key. split; [exact Hin | apply String.eqb_refl].
Qed.

Lemma getProperty_Own_iff (object : gmap string V) (key : string) (v : V) :
  getProperty object key = Own v <-> object !! key = Some v.
Proof.
  unfold getProperty. destruct (object !! key) as [v'|].
  - split; intros [= ->]; reflexivity.
  - destruct (existsb _ _); split; discriminate.
Qed.

Lemma getProperty_Undefined_iff (object : gmap string V) (key : string) :
  getProperty object key = Undefined <->
  object !! key = None /\ ~ In key Object_prototype.
Proof.
  unfold getProperty. destruct (object !! key) as [v|].
  - split; [discriminate | intros [[=] _]].
  - destruct (existsb _ _) eqn:E.
    + apply Object_prototype_In in E. split; [discriminate | tauto].
    + split; [|reflexivity]. intros _. split; [reflexivity|].
      intros Hin. apply Object_prototype_In in Hin. congruence.
Qed.

Lemma getProperty_Inherited_iff (object : gmap string V) (key name : string) :
  getProperty object key = Inherited name <->
  object !! key = None /\ In key Object_prototype /\ name = key.
Proof.
  unfold getProperty. destruct (object !! key) as [v|].
  - split; [discriminate | intros [[=] _]].
  - destruct (existsb _ _) eqn:E.
    + apply Object_prototype_In in E. split.
      * intros [= <-]. auto.
      * intros (_ & _ & ->). reflexivity.
    + split; [discriminate|]. intros (_ & Hin & _).
      apply Object_prototype_In in Hin. congruence.
Qed.

End ObjectFacts.

(* ===================================================================== *)
(** * Properties of the observables *)
(* ===================================================================== *)

Section ObservableFacts.

Context {A B C : Type}.

Lemma mapObservable_In (f : A -> option B) (source : list A) (y : B) :
  In y (mapObservable f source) -> exists x, In x source /\ f x = Some y.
Proof.
  induction source as [|x rest IH]; simpl; [tauto|].
  destruct (f x) as [y'|] eqn:Hfx; simpl; [|tauto].
  intros [<- | Hin].
  - exists x. auto.
  - destruct (IH Hin) as (x' & Hx' & Hfx'). exists x'. auto.
Qed.

(** A pair emitted by [combineLatest2] is made of a value of each source
    (or of the values held at the start). *)
Lemma combineLatest2_In (schedule : list bool) :
  forall (latestA : option A) (latestB : option B) (sourceA : list A) (sourceB : list B)
         (a : A) (b : B),
    In (a, b) (combineLatest2 schedule latestA latestB sourceA sourceB) ->
    (In a sourceA \/ latestA = Some a) /\ (In b sourceB \/ latestB = Some b).
Proof.
  induction schedule as [|next later IH]; intros latestA latestB sourceA sourceB a b;
    simpl; [tauto|].
  destruct next.
  - destruct sourceA as [|a' restA]; [apply IH|].
    destruct latestB as [b'|]; simpl.
    + intros [[= <- <-] | Hin]; [auto|].
      apply IH in Hin. destruct Hin as [[Ha | [= <-]] Hb]; auto.
    + intros Hin. apply IH in Hin. destruct Hin as [[Ha | [= <-]] Hb]; auto.
  - destruct sourceB as [|b' restB]; [apply IH|].
    destruct latestA as [a'|]; simpl.
    + intros [[= <- <-] | Hin]; [auto|].
      apply IH in Hin. destruct Hin as [Ha [Hb | [= <-]]]; auto.
    + intros Hin. apply IH in Hin. destruct Hin as [Ha [Hb | [= <-]]]; auto.
Qed.

Lemma emit3_In (la : option A) (lb : option B) (lc : option C) (a : A) (b : B) (c : C) :
  In (a, b, c) (emit3 la lb lc) -> la = Some a /\ lb = Some b /\ lc = Some c.
Proof.
  destruct la, lb, lc; simpl; try tauto.
  intros [[= <- <- <-] | []]. auto.
Qed.

Lemma combineLatest3_In (schedule : list Source3) :
  forall (latestA : option A) (latestB : option B) (latestC : option C)
         (sourceA : list A) (sourceB : list B) (sourceC : list C)
         (a : A) (b : B) (c : C),
    In (a, b, c)
       (combineLatest3 schedule latestA latestB latestC sourceA sourceB sourceC) ->
    (In a sourceA \/ latestA = Some a) /\
    (In b sourceB \/ latestB = Some b) /\
    (In c sourceC \/ latestC = Some c).
Proof.
  induction schedule as [|next later IH];
    intros latestA latestB latestC sourceA sourceB sourceC a b c;
    cbn [combineLatest3]; [simpl; tauto|].
  destruct next.
  - destruct sourceA as [|a' restA]; [apply IH|].
    rewrite in_app_iff. intros [Hin | Hin].
    + apply emit3_In in Hin. destruct Hin as ([= <-] & -> & ->). simpl. auto.
    + apply IH in Hin. destruct Hin as ([Ha | [= <-]] & Hb & Hc); simpl; auto.
  - destruct sourceB as [|b' restB]; [apply IH|].
    rewrite in_app_iff. intros [Hin | Hin].
    + apply emit3_In in Hin. destruct Hin as (-> & [= <-] & ->). simpl. auto.
    + apply IH in Hin. destruct Hin as (Ha & [Hb | [= <-]] & Hc); simpl; auto.
  - destruct sourceC as [|c' restC]; [apply IH|].
    rewrite in_app_iff. intros [Hin | Hin].
    + apply emit3_In in Hin. destruct Hin as (-> & -> & [= <-]). simpl. auto.
    + apply IH in Hin. destruct Hin as (Ha & Hb & [Hc | [= <-]]); simpl; auto.
Qed.

(** Once the first source has emitted [a], every emission of the second
    source is paired with [a]. *)
Lemma combineLatest2_second_ticks (a : A) (n : nat) :
  forall (latestB : option B) (sourceA : list A) (sourceB : list B),
    combineLatest2 (repeat false n) (Some a) latestB sourceA sourceB
    = map (pair a) (firstn n sourceB).
Proof.
  induction n as [|n IH]; intros latestB sourceA sourceB; [reflexivity|].
  cbn [repeat combineLatest2]. destruct sourceB as [|b restB].
  - rewrite IH. now rewrite firstn_nil.
  - cbn [firstn map]. f_equal. apply IH.
Qed.

Lemma combineLatest2_first_then_second (a : A) (restA : list A) (sourceB : list B)
    (n : nat) :
  combineLatest2 (true :: repeat false n) None None (a :: restA) sourceB
  = map (pair a) (firstn n sourceB).
Proof. cbn [combineLatest2]. apply combineLatest2_second_ticks. Qed.

Lemma combineLatest3_second_ticks (a : A) (c : C) (n : nat) :
  forall (latestB : option B) (sourceA : list A) (sourceB : list B) (sourceC : list C),
    combineLatest3 (repeat SrcB n) (Some a) latestB (Some c) sourceA sourceB sourceC
    = map (fun b => (a, b, c)) (firstn n sourceB).
Proof.
  induction n as [|n IH]; intros latestB sourceA sourceB sourceC; [reflexivity|].
  cbn [repeat combineLatest3]. destruct sourceB as [|b restB].
  - rewrite IH. now rewrite firstn_nil.
  - cbn [firstn map emit3 app]. f_equal. apply IH.
Qed.

Lemma combineLatest3_first_third_then_second (a : A) (restA : list A)
    (sourceB : list B) (c : C) (restC : list C) (n : nat) :
  combineLatest3 (SrcA :: SrcC :: repeat SrcB n) None None None
    (a :: restA) sourceB (c :: restC)
  = map (fun b => (a, b, c)) (firstn n sourceB).
Proof. cbn [combineLatest3 emit3 app]. apply combineLatest3_second_ticks. Qed.

Lemma mapObservable_total (f : A -> option B) (g : A -> B) (l : list A) :
  (forall x, f x = Some (g x)) -> mapObservable f l = map g l.
Proof.
  intros Hf. induction l as [|x l IH]; simpl; [reflexivity|].
  rewrite Hf, IH. reflexivity.
Qed.

Lemma mapObservable_none (f : A -> option B) (l : list A) :
  (forall x, f x = None) -> mapObservable f l = [].
Proof. intros Hf. destruct l as [|x l]; simpl; [reflexivity|]. now rewrite Hf. Qed.

(** A list built by [map] is related, element by element and in order, to
    the list it is built from. *)
Lemma Forall2_map_In (R : B -> A -> Prop) (f : A -> B) (l : list A) :
  (forall x, In x l -> R (f x) x) -> Forall2 R (map f l) l.
Proof.
  induction l as [|x l IH]; intros HR; simpl; constructor.
  - apply HR. now left.
  - apply IH. intros y Hy. apply HR. now right.
Qed.

End ObservableFacts.

(* ===================================================================== *)
(** * Properties of the balance normalizers *)
(* ===================================================================== *)

Section BalanceFacts.

Local Open Scope Q_scope.

(** The balance record of a per-token account whose raw balance is [raw]. *)
Lemma secondary_record (raw : Z) (tokenDecimals : nat) :
  let amount := FN.fromInner raw tokenDecimals in
  let s := {| free := amount; locked := FN.ofNumber 0;
              reserved := FN.ofNumber 0; available := amount |} in
  free s = FN.fromInner raw tokenDecimals /\
  available s = FN.fromInner raw tokenDecimals /\
  FN.value (free s) == inject_Z raw / pow10 tokenDecimals /\
  FN.value (available s) == inject_Z raw / pow10 tokenDecimals /\
  locked s = FN.ofNumber 0 /\ FN.value (locked s) == 0 /\
  reserved s = FN.ofNumber 0 /\ FN.value (reserved s) == 0 /\
  FN.value (available s) <= FN.value (free s).
Proof.
  cbv zeta. cbn [free available locked reserved].
  repeat split; try apply value_ofNumber; try apply value_fromInner; apply Qle_refl.
Qed.

(** Once the table gives a token id, the normalizer reads the storage for
    that id. *)
Lemma Interlay_subscribeBalance_defined
    (this : Interlay.InterlayBalanceAdapter) (token address : string) :
  getProperty (Interlay.getSupportedTokens (Interlay.ba_chain this)) token <> Undefined ->
  Interlay.subscribeBalance this token address
  = inr (mapObservable
           (fun balance : Interlay.AccountData =>
              match Interlay.getToken this token with
              | None => None
              | Some tokenMeta =>
                  let amount :=
                    FN.fromInner
                      (match Interlay.account_free balance with
                       | Some f => f
                       | None => 0%Z
                       end)
                      (decimals tokenMeta) in
                  Some {| free := amount; locked := FN.ofNumber 0;
                          reserved := FN.ofNumber 0; available := amount |}
              end)
           (Interlay.query_tokens_accounts (Interlay.ba_api this) address
              (getProperty (Interlay.getSupportedTokens (Interlay.ba_chain this)) token))).
Proof.
  unfold Interlay.subscribeBalance.
  destruct (getProperty _ token); [reflexivity | reflexivity | congruence].
Qed.

Lemma Astar_subscribeBalance_defined
    (this : Astar.AstarBalanceAdapter) (token address : string) :
  String.eqb token (Astar.nativeToken this) = false ->
  getProperty Astar.SUPPORTED_TOKENS token <> Undefined ->
  Astar.subscribeBalance this token address
  = inr (mapObservable
           (fun balance : option Astar.AssetAccount =>
              match Astar.getToken this token with
              | None => None
              | Some tokenMeta =>
                  let amount :=
                    FN.fromInner (Astar.rawAssetBalance balance) (decimals tokenMeta) in
                  Some {| free := amount; locked := FN.ofNumber 0;
                          reserved := FN.ofNumber 0; available := amount |}
              end)
           (Astar.query_assets_account (Astar.ba_api this)
              (getProperty Astar.SUPPORTED_TOKENS token) address)).
Proof.
  intros Hnative. unfold Astar.subscribeBalance. rewrite Hnative. cbv zeta.
  destruct (getProperty _ token); [reflexivity | reflexivity | congruence].
Qed.

(** ** C7 *)

(** C7. For a token other than the native one, the balance normalizer emits
    one balance record for each tick of the per-token account record, in
    the order of the ticks, and the record of a tick has [free] and
    [available] equal to the raw balance of that tick, scaled to the
    token's decimals, and [locked] and [reserved] equal to zero; hence
    [free >= available].  The Interlay normalizer does so for every token
    its table gives an id for, the Astar normalizer for every such token
    but the native one, and the Parallel normalizer for every such token
    but the native one whose id is not 0; when the token has no metadata
    the Interlay and Astar normalizers emit nothing. *)
Theorem subscribeBalance_non_native :
  (forall (this : Interlay.InterlayBalanceAdapter) (token address : string),
     let tokenId :=
       getProperty (Interlay.getSupportedTokens (Interlay.ba_chain this)) token in
     tokenId <> Undefined ->
     (forall tokenMeta,
        Interlay.getToken this token = Some tokenMeta ->
        exists snapshots,
          Interlay.subscribeBalance this token address = inr snapshots /\
          Forall2
            (fun s tick =>
               let raw :=
                 match Interlay.account_free tick with Some f => f | None => 0%Z end in
               free s = FN.fromInner raw (decimals tokenMeta) /\
               available s = FN.fromInner raw (decimals tokenMeta) /\
               FN.value (free s) == inject_Z raw / pow10 (decimals tokenMeta) /\
               FN.value (available s) == inject_Z raw / pow10 (decimals tokenMeta) /\
               locked s = FN.ofNumber 0 /\ FN.value (locked s) == 0 /\
               reserved s = FN.ofNumber 0 /\ FN.value (reserved s) == 0 /\
               FN.value (available s) <= FN.value (free s))
            snapshots
            (Interlay.query_tokens_accounts (Interlay.ba_api this) address tokenId)) /\
     (Interlay.getToken this token = None ->
      Interlay.subscribeBalance this token address = inr [])) /\
  (forall (this : Astar.AstarBalanceAdapter) (token address : string),
     let tokenId := getProperty Astar.SUPPORTED_TOKENS token in
     String.eqb token (Astar.nativeToken this) = false ->
     tokenId <> Undefined ->
     (forall tokenMeta,
        Astar.getToken this token = Some tokenMeta ->
        exists snapshots,
          Astar.subscribeBalance this token address = inr snapshots /\
          Forall2
            (fun s tick =>
               let raw :=
                 match tick with
                 | Some account =>
                     match Astar.asset_balance account with Some b => b | None => 0%Z end
                 | None => 0%Z
                 end in
               free s = FN.fromInner raw (decimals tokenMeta) /\
               available s = FN.fromInner raw (decimals tokenMeta) /\
               FN.value (free s) == inject_Z raw / pow10 (decimals tokenMeta) /\
               FN.value (available s) == inject_Z raw / pow10 (decimals tokenMeta) /\
               locked s = FN.ofNumber 0 /\ FN.value (locked s) == 0 /\
               reserved s = FN.ofNumber 0 /\ FN.value (reserved s) == 0 /\
               FN.value (available s) <= FN.value (free s))
            snapshots
            (Astar.query_assets_account (Astar.ba_api this) tokenId address)) /\
     (Astar.getToken this token = None ->
      Astar.subscribeBalance this token address = inr [])) /\
  (forall (this : Parallel.ParallelBalanceAdapter) (token address : string),
     let tokenId := getProperty Parallel.SUPPORTED_TOKENS token in
     let tokenDecimals := Parallel.getTokenDecimals this token in
     String.eqb token (Parallel.nativeToken this) = false ->
     tokenId <> Undefined ->
     tokenId <> Own 0%Z ->
     exists snapshots,
       Parallel.subscribeBalance this token address = inr snapshots /\
       Forall2
         (fun s tick =>
            let raw :=
              match tick with
              | Some account =>
                  match Parallel.asset_balance account with Some b => b | None => 0%Z end
              | None => 0%Z
              end in
            free s = FN.fromInner raw tokenDecimals /\
            available s = FN.fromInner raw tokenDecimals /\
            FN.value (free s) == inject_Z raw / pow10 tokenDecimals /\
            FN.value (available s) == inject_Z raw / pow10 tokenDecimals /\
            locked s = FN.ofNumber 0 /\ FN.value (locked s) == 0 /\
            reserved s = FN.ofNumber 0 /\ FN.value (reserved s) == 0 /\
            FN.value (available s) <= FN.value (free s))
         snapshots
         (Parallel.query_assets_account (Parallel.ba_api this) tokenId address)).
Proof.
  split; [|split].
  - intros this token address tokenId Hdefined. subst tokenId.
    rewrite (Interlay_subscribeBalance_defined _ _ _ Hdefined). split.
    + intros tokenMeta Hmeta.
      erewrite mapObservable_total by (intros tick; rewrite Hmeta; reflexivity).
      eexists. split; [reflexivity|].
      apply Forall2_map_In. intros tick _. apply secondary_record.
    + intros Hmeta. f_equal. apply mapObservable_none. intros tick.
      rewrite Hmeta. reflexivity.
  - intros this token address tokenId Hnative Hdefined. subst tokenId.
    rewrite (Astar_subscribeBalance_defined _ _ _ Hnative Hdefined). split.
    + intros tokenMeta Hmeta.
      erewrite mapObservable_total by (intros tick; rewrite Hmeta; reflexivity).
      eexists. split; [reflexivity|].
      apply Forall2_map_In. intros tick _.
      apply (secondary_record (Astar.rawAssetBalance tick)).
    + intros Hmeta. f_equal. apply mapObservable_none. intros tick.
      rewrite Hmeta. reflexivity.
  - intros this token address tokenId tokenDecimals Hnative Hdefined Hnonzero.
    subst tokenId tokenDecimals.
    assert (Hid : Parallel.not_ (getProperty Parallel.SUPPORTED_TOKENS token) = false).
    { destruct (getProperty Parallel.SUPPORTED_TOKENS token) as [n| |];
        [|reflexivity|congruence].
      cbn [Parallel.not_]. destruct (Z.eqb_spec n 0) as [->|]; congruence. }
    unfold Parallel.subscribeBalance. rewrite Hnative. cbv zeta. rewrite Hid.
    eexists. split; [reflexivity|].
    apply Forall2_map_In. intros tick _.
    apply (secondary_record (Parallel.rawAssetBalance tick)).
Qed.

Lemma subscribeBalance_non_native_witness :
  exists s1 s2,
    Astar.subscribeBalance Samples.astarBalanceAdapter "IBTC" Samples.alice
      = inr [s1; s2] /\
    FN.value (free s1) == 0 /\
    free s2 = FN.fromInner 7 8 /\
    available s2 = FN.fromInner 7 8 /\
    locked s2 = FN.ofNumber 0 /\
    reserved s2 = FN.ofNumber 0.
Proof.
  destruct subscribeBalance_non_native as (_ & Hastar & _).
  destruct (Hastar Samples.astarBalanceAdapter "IBTC" Samples.alice
              eq_refl ltac:(discriminate)) as (Hticks & _).
  destruct (Hticks {| name := "IBTC"; symbol := "IBTC"; decimals := 8; ed := 1 |}
              eq_refl) as (snapshots & Hsub & Hall).
  inversion Hall as [|s1 tick1 rest1 ticks1 H1 Hall1 Hs1 Ht1]; subst.
  inversion Hall1 as [|s2 tick2 rest2 ticks2 H2 Hall2 Hs2 Ht2]; subst.
  inversion Hall2; subst.
  exists s1, s2. split; [exact Hsub|].
  destruct H1 as (_ & _ & Hv1 & _).
  destruct H2 as (Hf2 & Ha2 & _ & _ & Hl2 & _ & Hr2 & _).
  split; [rewrite Hv1; reflexivity|].
  split; [exact Hf2|]. split; [exact Ha2|]. split; [exact Hl2 | exact Hr2].
Defined.

End BalanceFacts.

(* ===================================================================== *)
(** * Properties of the max-sendable computation *)
(* ===================================================================== *)

Section MaxInputFacts.

Local Open Scope Q_scope.

Lemma Interlay_maxInputOf_value
    (ba : Interlay.InterlayBalanceAdapter) (token : string) (balance : FN.t) (txFee : Z)
    (tokenMeta : BasicToken) :
  Interlay.getToken ba token = Some tokenMeta ->
  FN.value (Interlay.maxInputOf ba token balance txFee)
  == spec_maxSendable (FN.value balance)
       (inject_Z txFee / pow10 (decimals tokenMeta))
       (inject_Z (ed tokenMeta) / pow10 (decimals tokenMeta)).
Proof.
  intros Hmeta. unfold Interlay.maxInputOf, spec_maxSendable. rewrite Hmeta.
  rewrite !value_minus, value_mul, value_ofNumber, !value_fromInner. ring.
Qed.

Lemma Astar_maxInputOf_value
    (ba : Astar.AstarBalanceAdapter) (token : string) (balance : FN.t) (txFee : Z)
    (tokenMeta : BasicToken) :
  Astar.getToken ba token = Some tokenMeta ->
  FN.value (Astar.maxInputOf ba token balance txFee)
  == spec_maxSendable (FN.value balance)
       (inject_Z txFee / pow10 (decimals tokenMeta))
       (inject_Z (ed tokenMeta) / pow10 (decimals tokenMeta)).
Proof.
  intros Hmeta. unfold Astar.maxInputOf, spec_maxSendable. rewrite Hmeta.
  rewrite !value_minus, value_mul, value_ofNumber, !value_fromInner. ring.
Qed.

Lemma Parallel_maxInputOf_value
    (ba : Parallel.ParallelBalanceAdapter) (token : string) (balance : FN.t)
    (ed : option FN.t) (txFee : Z) :
  FN.value (Parallel.maxInputOf ba token balance ed txFee)
  == spec_maxSendable (FN.value balance)
       (inject_Z txFee / pow10 (Parallel.getTokenDecimals ba token))
       (match ed with Some e => FN.value e | None => 0 end).
Proof.
  unfold Parallel.maxInputOf, spec_maxSendable.
  rewrite !value_minus, value_mul, value_ofNumber, !value_fromInner.
  destruct ed; [ring|]. rewrite value_ZERO. ring.
Qed.

(** [subscribeMaxInput], once the balance adapter is set, the fees are
    estimated and the balance is subscribed to. *)
Lemma Interlay_subscribeMaxInput_eq
    (chains : ChainName -> Chain) (isChainEqual : Chain -> ChainName -> bool)
    (this : Interlay.Adapter) (ba : Interlay.InterlayBalanceAdapter)
    (schedule : list bool) (token address : string) (to : ChainName)
    (fees : list Z) (balances : list BalanceData) :
  Interlay.balanceAdapter this = Some ba ->
  spec_estimatedTxFees (String.eqb token (Interlay.nativeToken ba))
    (Interlay.api this)
    (Interlay.createTx chains isChainEqual this
       {| amount := FN.ZERO; to := to; token := token;
          address := address; signer := address |})
    (fun a tx => Interlay.paymentInfo a tx address) fees ->
  Interlay.subscribeBalance ba token address = inr balances ->
  Interlay.subscribeMaxInput chains isChainEqual this schedule token address to
  = inr (map (fun '(txFee, balance) => Interlay.maxInputOf ba token balance txFee)
           (combineLatest2 schedule None None fees (map available balances))).
Proof.
  intros Hba Hfees Hbal. unfold Interlay.subscribeMaxInput. rewrite Hba, Hbal.
  unfold spec_estimatedTxFees in Hfees.
  destruct (String.eqb token (Interlay.nativeToken ba)).
  - destruct Hfees as (a & tx & Ha & Htx & ->).
    unfold Interlay.estimateTxFee. rewrite Htx, Ha. reflexivity.
  - subst fees. reflexivity.
Qed.

Lemma Astar_subscribeMaxInput_eq
    (chains : ChainName -> Chain) (XCM_V3_GENERAL_KEY_DATA_BYTES : nat)
    (this : Astar.Adapter) (ba : Astar.AstarBalanceAdapter)
    (schedule : list bool) (token address : string) (to : ChainName)
    (fees : list Z) (balances : list BalanceData) :
  Astar.balanceAdapter this = Some ba ->
  spec_estimatedTxFees (String.eqb token (Astar.nativeToken ba))
    (Astar.api this)
    (Astar.createTx chains XCM_V3_GENERAL_KEY_DATA_BYTES this
       {| amount := FN.ZERO; to := to; token := token;
          address := address; signer := address |})
    (fun a tx => Astar.paymentInfo a tx address) fees ->
  Astar.subscribeBalance ba token address = inr balances ->
  Astar.subscribeMaxInput chains XCM_V3_GENERAL_KEY_DATA_BYTES this schedule token
    address to
  = inr (map (fun '(txFee, balance) => Astar.maxInputOf ba token balance txFee)
           (combineLatest2 schedule None None fees (map available balances))).
Proof.
  intros Hba Hfees Hbal. unfold Astar.subscribeMaxInput. rewrite Hba, Hbal.
  unfold spec_estimatedTxFees in Hfees.
  destruct (String.eqb token (Astar.nativeToken ba)).
  - destruct Hfees as (a & tx & Ha & Htx & ->).
    unfold Astar.estimateTxFee. rewrite Htx, Ha. reflexivity.
  - subst fees. reflexivity.
Qed.

Lemma Parallel_subscribeMaxInput_eq
    (chains : ChainName -> Chain)
    (this : Parallel.Adapter) (ba : Parallel.ParallelBalanceAdapter)
    (schedule : list Source3) (token address : string) (to : ChainName)
    (fees : list Z) (balances : list BalanceData) :
  Parallel.balanceAdapter this = Some ba ->
  spec_estimatedTxFees (String.eqb token (Parallel.nativeToken ba))
    (Parallel.api this)
    (Parallel.createTx chains this
       {| amount := FN.ZERO; to := to; token := token;
          address := address; signer := address |})
    (fun a tx => Parallel.paymentInfo a tx address) fees ->
  Parallel.subscribeBalance ba token address = inr balances ->
  Parallel.subscribeMaxInput chains this schedule token address to
  = inr (map (fun '(txFee, balance, ed) => Parallel.maxInputOf ba token balance ed txFee)
           (combineLatest3 schedule None None None
              fees (map available balances) (Parallel.getTokenED ba token))).
Proof.
  intros Hba Hfees Hbal. unfold Parallel.subscribeMaxInput. rewrite Hba, Hbal.
  unfold spec_estimatedTxFees in Hfees.
  destruct (String.eqb token (Parallel.nativeToken ba)).
  - destruct Hfees as (a & tx & Ha & Htx & ->).
    unfold Parallel.estimateTxFee. rewrite Htx, Ha. reflexivity.
  - subst fees. reflexivity.
Qed.

End MaxInputFacts.

Section MaxInputClaims.

Local Open Scope Q_scope.

(** ** C3 *)

(** C3. Once the fees are estimated and the balance is subscribed to,
    [subscribeMaxInput] emits one amount for each emission of
    [combineLatest] over the estimated fees and the available balances, in
    order, and the amount of an emission is its available balance, minus
    1.2 times its estimated fee, minus the token's existential deposit.
    The estimated fees are the dry-run estimates of the to-be-built message
    when the token is the chain's native token, and zero otherwise; in the
    Interlay, the Astar and the Parallel adapter.  When the estimated fee
    (and, in the Parallel adapter, the existential deposit) has arrived and
    the balance then ticks [n] times, the emissions of [combineLatest] are
    that fee paired with each of the [n] balances. *)
Theorem subscribeMaxInput_formula :
  (forall (chains : ChainName -> Chain) (isChainEqual : Chain -> ChainName -> bool)
          (this : Interlay.Adapter) (ba : Interlay.InterlayBalanceAdapter)
          (schedule : list bool) (token address : string) (to : ChainName)
          (tokenMeta : BasicToken) (fees : list Z) (balances : list BalanceData),
     Interlay.balanceAdapter this = Some ba ->
     Interlay.getToken ba token = Some tokenMeta ->
     spec_estimatedTxFees (String.eqb token (Interlay.nativeToken ba))
       (Interlay.api this)
       (Interlay.createTx chains isChainEqual this
          {| amount := FN.ZERO; to := to; token := token;
             address := address; signer := address |})
       (fun a tx => Interlay.paymentInfo a tx address) fees ->
     Interlay.subscribeBalance ba token address = inr balances ->
     exists amounts,
       Interlay.subscribeMaxInput chains isChainEqual this schedule token address to
       = inr amounts /\
       Forall2
         (fun a '(txFee, availableBalance) =>
            FN.value a
            == spec_maxSendable (FN.value availableBalance)
                 (inject_Z txFee / pow10 (decimals tokenMeta))
                 (inject_Z (ed tokenMeta) / pow10 (decimals tokenMeta)))
         amounts
         (combineLatest2 schedule None None fees (map available balances))) /\
  (forall (chains : ChainName -> Chain) (XCM_V3_GENERAL_KEY_DATA_BYTES : nat)
          (this : Astar.Adapter) (ba : Astar.AstarBalanceAdapter)
          (schedule : list bool) (token address : string) (to : ChainName)
          (tokenMeta : BasicToken) (fees : list Z) (balances : list BalanceData),
     Astar.balanceAdapter this = Some ba ->
     Astar.getToken ba token = Some tokenMeta ->
     spec_estimatedTxFees (String.eqb token (Astar.nativeToken ba))
       (Astar.api this)
       (Astar.createTx chains XCM_V3_GENERAL_KEY_DATA_BYTES this
          {| amount := FN.ZERO; to := to; token := token;
             address := address; signer := address |})
       (fun a tx => Astar.paymentInfo a tx address) fees ->
     Astar.subscribeBalance ba token address = inr balances ->
     exists amounts,
       Astar.subscribeMaxInput chains XCM_V3_GENERAL_KEY_DATA_BYTES this schedule
         token address to
       = inr amounts /\
       Forall2
         (fun a '(txFee, availableBalance) =>
            FN.value a
            == spec_maxSendable (FN.value availableBalance)
                 (inject_Z txFee / pow10 (decimals tokenMeta))
                 (inject_Z (ed tokenMeta) / pow10 (decimals tokenMeta)))
         amounts
         (combineLatest2 schedule None None fees (map available balances))) /\
  (forall (chains : ChainName -> Chain)
          (this : Parallel.Adapter) (ba : Parallel.ParallelBalanceAdapter)
          (schedule : list Source3) (token address : string) (to : ChainName)
          (fees : list Z) (balances : list BalanceData),
     Parallel.balanceAdapter this = Some ba ->
     spec_estimatedTxFees (String.eqb token (Parallel.nativeToken ba))
       (Parallel.api this)
       (Parallel.createTx chains this
          {| amount := FN.ZERO; to := to; token := token;
             address := address; signer := address |})
       (fun a tx => Parallel.paymentInfo a tx address) fees ->
     Parallel.subscribeBalance ba token address = inr balances ->
     exists amounts,
       Parallel.subscribeMaxInput chains this schedule token address to = inr amounts /\
       Forall2
         (fun a '(txFee, availableBalance, ed) =>
            FN.value a
            == spec_maxSendable (FN.value availableBalance)
                 (inject_Z txFee / pow10 (Parallel.getTokenDecimals ba token))
                 (match ed with Some e => FN.value e | None => 0 end))
         amounts
         (combineLatest3 schedule None None None
            fees (map available balances) (Parallel.getTokenED ba token))) /\
  (forall (txFee : Z) (laterFees : list Z) (availableBalances : list FN.t) (n : nat),
     combineLatest2 (true :: repeat false n) None None
       (txFee :: laterFees) availableBalances
     = map (pair txFee) (firstn n availableBalances)) /\
  (forall (txFee : Z) (laterFees : list Z) (availableBalances : list FN.t)
          (ed : option FN.t) (laterEds : list (option FN.t)) (n : nat),
     combineLatest3 (SrcA :: SrcC :: repeat SrcB n) None None None
       (txFee :: laterFees) availableBalances (ed :: laterEds)
     = map (fun availableBalance => (txFee, availableBalance, ed))
         (firstn n availableBalances)).
Proof.
  split; [|split; [|split; [|split]]];
    [| | | intros; apply combineLatest2_first_then_second
         | intros; apply combineLatest3_first_third_then_second].
  - intros chains isChainEqual this ba schedule token address to tokenMeta fees balances
           Hba Hmeta Hfees Hbal.
    rewrite (Interlay_subscribeMaxInput_eq _ _ _ _ _ _ _ _ _ _ Hba Hfees Hbal).
    eexists. split; [reflexivity|].
    apply Forall2_map_In. intros [txFee availableBalance] _.
    apply Interlay_maxInputOf_value. exact Hmeta.
  - intros chains bytes this ba schedule token address to tokenMeta fees balances
           Hba Hmeta Hfees Hbal.
    rewrite (Astar_subscribeMaxInput_eq _ _ _ _ _ _ _ _ _ _ Hba Hfees Hbal).
    eexists. split; [reflexivity|].
    apply Forall2_map_In. intros [txFee availableBalance] _.
    apply Astar_maxInputOf_value. exact Hmeta.
  - intros chains this ba schedule token address to fees balances Hba Hfees Hbal.
    rewrite (Parallel_subscribeMaxInput_eq _ _ _ _ _ _ _ _ _ Hba Hfees Hbal).
    eexists. split; [reflexivity|].
    apply Forall2_map_In. intros [[txFee availableBalance] e] _.
    apply Parallel_maxInputOf_value.
Qed.

Lemma subscribeMaxInput_formula_witness :
  exists a1 a2,
    Astar.subscribeMaxInput Samples.chains 32 Samples.astar [true; false; false]
      "ASTR" Samples.alice "interlay"
    = inr [a1; a2] /\
    FN.value a1
    == spec_maxSendable (4999000 / pow10 18) (10 / pow10 18) (1000000 / pow10 18) /\
    FN.value a2 == spec_maxSendable (0 / pow10 18) (10 / pow10 18) (1000000 / pow10 18).
Proof.
  destruct subscribeMaxInput_formula as (_ & Hastar & _).
  destruct (Hastar Samples.chains 32%nat Samples.astar Samples.astarBalanceAdapter
              [true; false; false] "ASTR" Samples.alice "interlay"
              {| name := "ASTR"; symbol := "ASTR"; decimals := 18; ed := 1000000 |}
              [10%Z] _ eq_refl eq_refl
              ltac:(do 2 eexists; repeat split) eq_refl)
    as (amounts & Hsub & Hall).
  inversion Hall as [|a1 p1 rest1 ps1 H1 Hall1]; subst.
  inversion Hall1 as [|a2 p2 rest2 ps2 H2 Hall2]; subst.
  inversion Hall2; subst.
  exists a1, a2. split; [exact Hsub|]. split; [exact H1 | exact H2].
Defined.

(** ** C2 *)

(** The Parallel adapter, for the native token PARA of an account that
    holds 5 smallest units, with an estimated fee of 10 smallest units and
    a minimum balance of 1, emits a negative amount. *)
Lemma subscribeMaxInput_negative_amount :
  Parallel.createTx Samples.chains Samples.parallel
    {| amount := FN.ZERO; to := "acala"; token := "PARA";
       address := Samples.alice; signer := Samples.alice |}
  = inr (Parallel.xTokens_transfer (Own 1%Z) 0
           (V1 {| parents := 1;
                  interior := X2 (Parachain 2085) (AccountId32 Samples.alice (Some Any)) |})
           (Some "5000000000")) /\
  exists a,
    Parallel.subscribeMaxInput Samples.chains Samples.parallel [SrcA; SrcB; SrcC]
      "PARA" Samples.alice "acala" = inr [a] /\
    FN.value a == - (8 / pow10 12) /\
    FN.value a < 0.
Proof.
  split; [reflexivity|].
  eexists. split; [reflexivity|]. split; vm_compute; reflexivity.
Qed.

(** C2, as the code has it. The amounts [subscribeMaxInput] emits are not
    clamped at zero: the amount of an emission of [combineLatest] is
    non-negative exactly when the available balance of that emission is at
    least 1.2 times its estimated fee plus the existential deposit; in the
    Interlay and in the Parallel adapter. *)
Theorem subscribeMaxInput_non_negative_iff :
  (forall (chains : ChainName -> Chain) (isChainEqual : Chain -> ChainName -> bool)
          (this : Interlay.Adapter) (ba : Interlay.InterlayBalanceAdapter)
          (schedule : list bool) (token address : string) (to : ChainName)
          (tokenMeta : BasicToken) (fees : list Z) (balances : list BalanceData),
     Interlay.balanceAdapter this = Some ba ->
     Interlay.getToken ba token = Some tokenMeta ->
     spec_estimatedTxFees (String.eqb token (Interlay.nativeToken ba))
       (Interlay.api this)
       (Interlay.createTx chains isChainEqual this
          {| amount := FN.ZERO; to := to; token := token;
             address := address; signer := address |})
       (fun a tx => Interlay.paymentInfo a tx address) fees ->
     Interlay.subscribeBalance ba token address = inr balances ->
     exists amounts,
       Interlay.subscribeMaxInput chains isChainEqual this schedule token address to
       = inr amounts /\
       Forall2
         (fun a '(txFee, availableBalance) =>
            0 <= FN.value a <->
            (12 # 10) * (inject_Z txFee / pow10 (decimals tokenMeta))
              + inject_Z (ed tokenMeta) / pow10 (decimals tokenMeta)
            <= FN.value availableBalance)
         amounts
         (combineLatest2 schedule None None fees (map available balances))) /\
  (forall (chains : ChainName -> Chain)
          (this : Parallel.Adapter) (ba : Parallel.ParallelBalanceAdapter)
          (schedule : list Source3) (token address : string) (to : ChainName)
          (fees : list Z) (balances : list BalanceData),
     Parallel.balanceAdapter this = Some ba ->
     spec_estimatedTxFees (String.eqb token (Parallel.nativeToken ba))
       (Parallel.api this)
       (Parallel.createTx chains this
          {| amount := FN.ZERO; to := to; token := token;
             address := address; signer := address |})
       (fun a tx => Parallel.paymentInfo a tx address) fees ->
     Parallel.subscribeBalance ba token address = inr balances ->
     exists amounts,
       Parallel.subscribeMaxInput chains this schedule token address to = inr amounts /\
       Forall2
         (fun a '(txFee, availableBalance, ed) =>
            0 <= FN.value a <->
            (12 # 10) * (inject_Z txFee / pow10 (Parallel.getTokenDecimals ba token))
              + match ed with Some e => FN.value e | None => 0 end
            <= FN.value availableBalance)
         amounts
         (combineLatest3 schedule None None None
            fees (map available balances) (Parallel.getTokenED ba token))).
Proof.
  split.
  - intros chains isChainEqual this ba schedule token address to tokenMeta fees balances
           Hba Hmeta Hfees Hbal.
    rewrite (Interlay_subscribeMaxInput_eq _ _ _ _ _ _ _ _ _ _ Hba Hfees Hbal).
    eexists. split; [reflexivity|].
    apply Forall2_map_In. intros [txFee availableBalance] _.
    rewrite (Interlay_maxInputOf_value _ _ _ _ _ Hmeta). unfold spec_maxSendable.
    split; intros H; lra.
  - intros chains this ba schedule token address to fees balances Hba Hfees Hbal.
    rewrite (Parallel_subscribeMaxInput_eq _ _ _ _ _ _ _ _ _ Hba Hfees Hbal).
    eexists. split; [reflexivity|].
    apply Forall2_map_In. intros [[txFee availableBalance] e] _.
    rewrite Parallel_maxInputOf_value. unfold spec_maxSendable.
    split; intros H; lra.
Qed.

Lemma subscribeMaxInput_non_negative_iff_witness :
  exists a,
    Parallel.subscribeMaxInput Samples.chains Samples.parallel [SrcA; SrcB; SrcC]
      "PARA" Samples.alice "acala" = inr [a] /\
    ~ 0 <= FN.value a.
Proof.
  destruct subscribeMaxInput_non_negative_iff as (_ & Hparallel).
  destruct (Hparallel Samples.chains Samples.parallel Samples.parallelBalanceAdapter
              [SrcA; SrcB; SrcC] "PARA" Samples.alice "acala" [10%Z] _
              eq_refl ltac:(do 2 eexists; repeat split) eq_refl)
    as (amounts & Hsub & Hall).
  inversion Hall as [|a p rest ps Hiff Hall1]; subst.
  inversion Hall1; subst.
  exists a. split; [exact Hsub|].
  intros H. apply Hiff in H. vm_compute in H. apply H. reflexivity.
Defined.

End MaxInputClaims.

(* ===================================================================== *)
(** * Properties of the message builders *)
(* ===================================================================== *)

Section StringFacts.

Lemma string_length_append (s1 s2 : string) :
  String.length (s1 ++ s2) = String.length s1 + String.length s2.
Proof.
  induction s1 as [|c s1 IH]; [reflexivity|].
  change (S (String.length (s1 ++ s2)) = S (String.length s1 + String.length s2)).
  now rewrite IH.
Qed.

Lemma string_append_empty (s : string) : s ++ "" = s.
Proof.
  induction s as [|c s IH]; [reflexivity|].
  change (String c (s ++ "") = String c s). now rewrite IH.
Qed.

Lemma string_append_assoc (s1 s2 s3 : string) : (s1 ++ s2) ++ s3 = s1 ++ (s2 ++ s3).
Proof.
  induction s1 as [|c s1 IH]; [reflexivity|].
  change (String c ((s1 ++ s2) ++ s3) = String c (s1 ++ (s2 ++ s3))). now rewrite IH.
Qed.

Lemma hexOfBytes_length (bytes : list Byte.byte) :
  String.length (hexOfBytes bytes) = 2 * List.length bytes.
Proof.
  induction bytes as [|b rest IH]; [reflexivity|].
  cbn [hexOfBytes List.length]. rewrite string_length_append, IH.
  unfold hexOfByte. cbn [String.length]. lia.
Qed.

Lemma hexOfBytes_app (b1 b2 : list Byte.byte) :
  hexOfBytes (b1 ++ b2)%list = hexOfBytes b1 ++ hexOfBytes b2.
Proof.
  induction b1 as [|b rest IH]; [reflexivity|].
  cbn [hexOfBytes app]. rewrite IH. symmetry. apply string_append_assoc.
Qed.

Lemma toHex_length (bytes : list Byte.byte) :
  String.length (toHex bytes) = 2 * List.length bytes + 2.
Proof.
  unfold toHex. rewrite string_length_append, hexOfBytes_length.
  cbn [String.length]. lia.
Qed.

(** Filling with ["00"] writes zero bytes. *)
Lemma string_fill_zero_bytes (k : nat) :
  string_fill (2 * k) "00" "00" = hexOfBytes (repeat Byte.x00 k).
Proof.
  induction k as [|k IH]; [reflexivity|].
  replace (2 * S k) with (S (S (2 * k))) by lia.
  cbn [string_fill repeat hexOfBytes]. rewrite <- IH.
  destruct (2 * k) as [|n]; reflexivity.
Qed.

(** [replace("0x", "")] takes the prefix off a hexadecimal string. *)
Lemma string_replace_0x (bytes : list Byte.byte) :
  string_replace "0x" "" (toHex bytes) = hexOfBytes bytes.
Proof. reflexivity. Qed.

Lemma padEnd_short (s : string) (targetLength : nat) (padString : string) :
  String.length s <= targetLength ->
  padEnd s targetLength padString
  = s ++ string_fill (targetLength - String.length s) padString padString.
Proof.
  intros Hle. unfold padEnd.
  destruct (Nat.leb targetLength (String.length s)) eqn:E; [|reflexivity].
  apply Nat.leb_le in E.
  replace (targetLength - String.length s) with 0 by lia.
  cbn [string_fill]. symmetry. apply string_append_empty.
Qed.

End StringFacts.

Section MessageBuilderClaims.

Local Open Scope Q_scope.

(** The destination of the extrinsic the Interlay adapter builds. *)
Lemma Interlay_createTx_dest (chains : ChainName -> Chain)
    (isChainEqual : Chain -> ChainName -> bool) (this : Interlay.Adapter)
    (params : CrossChainTransferParams) (tx : Interlay.Extrinsic) :
  Interlay.createTx chains isChainEqual this params = inr tx ->
  exists a,
    Interlay.api this = Some a /\
    Interlay.dest tx =
      V1 (if isChainEqual (chains (to params)) "kusama"
             || isChainEqual (chains (to params)) "polkadot"
          then {| parents := 1;
                  interior := X1 (AccountId32 (Interlay.accountId32Hex a (address params))
                                    (Some Any)) |}
          else {| parents := 1;
                  interior := X2 (Parachain (paraChainId (chains (to params))))
                                 (AccountId32 (Interlay.accountId32Hex a (address params))
                                    (Some Any)) |}).
Proof.
  unfold Interlay.createTx.
  destruct (Interlay.api this) as [a|]; [|discriminate].
  intros H. exists a. split; [reflexivity|].
  destruct (getProperty _ (token params)) as [tokenId|inherited|]; [| |discriminate];
    (destruct (isChainEqual (chains (to params)) "statemine"
               || isChainEqual (chains (to params)) "statemint");
     [destruct (getCrossChainFee _ _ _); [discriminate|]|];
     injection H as <-; simpl;
     destruct (isChainEqual _ "kusama" || isChainEqual _ "polkadot"); reflexivity).
Qed.

(** ** C8 *)

(** C8. For the same token, amount and address, the message the Interlay
    adapter builds for the relay chain addresses the account on one level
    ([X1], the account alone), and the message it builds for another chain
    addresses it on two levels ([X2], the parachain id, then the account);
    the two destinations differ.  The message for the relay chain is built
    whenever the chain handle is set and the token is supported (the relay
    chain not being an asset hub as well). *)
Theorem createTx_addressing_shapes
    (chains : ChainName -> Chain) (isChainEqual : Chain -> ChainName -> bool)
    (this : Interlay.Adapter)
    (relay sibling : ChainName) (token : string) (amount : FN.t)
    (address signer : string) :
  let toRelay := {| to := relay; token := token; amount := amount;
                    address := address; signer := signer |} in
  let toSibling := {| to := sibling; token := token; amount := amount;
                      address := address; signer := signer |} in
  isChainEqual (chains relay) "kusama" || isChainEqual (chains relay) "polkadot" = true ->
  isChainEqual (chains sibling) "kusama" || isChainEqual (chains sibling) "polkadot"
    = false ->
  (forall txRelay txSibling,
     Interlay.createTx chains isChainEqual this toRelay = inr txRelay ->
     Interlay.createTx chains isChainEqual this toSibling = inr txSibling ->
     exists a,
       Interlay.api this = Some a /\
       Interlay.dest txRelay =
         V1 {| parents := 1;
               interior := X1 (AccountId32 (Interlay.accountId32Hex a address)
                                 (Some Any)) |} /\
       Interlay.dest txSibling =
         V1 {| parents := 1;
               interior := X2 (Parachain (paraChainId (chains sibling)))
                              (AccountId32 (Interlay.accountId32Hex a address)
                                 (Some Any)) |} /\
       Interlay.dest txRelay <> Interlay.dest txSibling) /\
  (forall a tokenId,
     isChainEqual (chains relay) "statemine" || isChainEqual (chains relay) "statemint"
       = false ->
     Interlay.api this = Some a ->
     Interlay.getSupportedTokens (id (chain (Interlay.base this))) !! token
       = Some tokenId ->
     Interlay.createTx chains isChainEqual this toRelay =
       inr (Interlay.xTokens_transfer (Own tokenId) (FN.toChainData amount)
              (V1 {| parents := 1;
                     interior := X1 (AccountId32 (Interlay.accountId32Hex a address)
                                       (Some Any)) |})
              (getDestWeight (Interlay.base this) token relay))).
Proof.
  intros toRelay toSibling Hrelay Hsibling. split.
  - intros txRelay txSibling HtxR HtxS.
    destruct (Interlay_createTx_dest chains isChainEqual this toRelay txRelay HtxR)
      as (a & Ha & HdR).
    destruct (Interlay_createTx_dest chains isChainEqual this toSibling txSibling HtxS)
      as (a' & Ha' & HdS).
    assert (a' = a) by congruence; subst a'.
    simpl in HdR, HdS. rewrite Hrelay in HdR. rewrite Hsibling in HdS.
    exists a. repeat split; try assumption.
    rewrite HdR, HdS. discriminate.
  - intros a tokenId Hhub Ha Htoken.
    apply getProperty_Own_iff in Htoken.
    unfold Interlay.createTx. rewrite Ha. simpl. rewrite Htoken.
    rewrite Hrelay, Hhub. reflexivity.
Qed.

Lemma createTx_addressing_shapes_witness :
  exists txRelay txSibling,
    Interlay.createTx Samples.chains Samples.isChainEqual Samples.kintsugi (Samples.transferParams "kusama" "KSM")
      = inr txRelay /\
    Interlay.createTx Samples.chains Samples.isChainEqual Samples.kintsugi (Samples.transferParams "karura" "KSM")
      = inr txSibling /\
    Interlay.dest txRelay <> Interlay.dest txSibling.
Proof.
  eexists. eexists. split; [reflexivity|]. split; [reflexivity|].
  destruct (createTx_addressing_shapes Samples.chains Samples.isChainEqual Samples.kintsugi
              "kusama" "karura" "KSM" (FN.fromInner 10000000000 10)
              Samples.alice Samples.alice eq_refl eq_refl) as (Hshapes & _).
  destruct (Hshapes _ _ eq_refl eq_refl) as (a & _ & _ & _ & Hne).
  exact Hne.
Defined.

End MessageBuilderClaims.

Section GeneralKeyClaims.

Local Open Scope Q_scope.

(** Padding a raw id of at most the mandated number of bytes. *)
Lemma paddedTokenId_zero_bytes (XCM_V3_GENERAL_KEY_DATA_BYTES : nat)
    (bytes : list Byte.byte) :
  (List.length bytes <= XCM_V3_GENERAL_KEY_DATA_BYTES)%nat ->
  Astar.paddedTokenId XCM_V3_GENERAL_KEY_DATA_BYTES (toHex bytes)
  = toHex (bytes ++ repeat Byte.x00 (XCM_V3_GENERAL_KEY_DATA_BYTES - List.length bytes))%list.
Proof.
  intros Hle. unfold Astar.paddedTokenId.
  rewrite padEnd_short by (rewrite toHex_length; lia).
  rewrite toHex_length.
  replace (2 * XCM_V3_GENERAL_KEY_DATA_BYTES + 2 - (2 * List.length bytes + 2))%nat
    with (2 * (XCM_V3_GENERAL_KEY_DATA_BYTES - List.length bytes))%nat by lia.
  rewrite string_fill_zero_bytes. unfold toHex.
  rewrite hexOfBytes_app. apply string_append_assoc.
Qed.

(** ** C9 *)

(** C9. In the newer (V3) encoding of the Astar adapter, the general key of
    a token other than the native one carries the token id padded at the
    end: a raw id of fewer than [XCM_V3_GENERAL_KEY_DATA_BYTES] bytes is
    followed by zero bytes up to exactly that number of bytes, a raw id of
    exactly that number of bytes is passed on unchanged, and the length
    field is the number of bytes of the raw id. *)
Theorem createTx_general_key_padding
    (XCM_V3_GENERAL_KEY_DATA_BYTES : nat) (bytes : list Byte.byte) :
  let tokenId := toHex bytes in
  let paddedTokenId := Astar.paddedTokenId XCM_V3_GENERAL_KEY_DATA_BYTES tokenId in
  ((List.length bytes <= XCM_V3_GENERAL_KEY_DATA_BYTES)%nat ->
   paddedTokenId
   = toHex (bytes
            ++ repeat Byte.x00 (XCM_V3_GENERAL_KEY_DATA_BYTES - List.length bytes))%list /\
   String.length paddedTokenId = (2 * XCM_V3_GENERAL_KEY_DATA_BYTES + 2)%nat) /\
  (List.length bytes = XCM_V3_GENERAL_KEY_DATA_BYTES -> paddedTokenId = tokenId) /\
  Astar.tokenIdByteCount tokenId == inject_Z (Z.of_nat (List.length bytes)) /\
  (forall (chains : ChainName -> Chain) (this : Astar.Adapter) (a : Astar.Api)
          (params : CrossChainTransferParams),
     Astar.api this = Some a ->
     Astar.supportsV0V1Multilocation a = false ->
     match Astar.balanceAdapter this with
     | Some ba => String.eqb (token params) (Astar.nativeToken ba)
     | None => false
     end = false ->
     Astar.tokenIds !! token params = Some tokenId ->
     Astar.createTx chains XCM_V3_GENERAL_KEY_DATA_BYTES this params =
       inr (Astar.polkadotXcm_reserveWithdrawAssets
              (V3 {| parents := 1;
                     interior := X1 (Parachain (paraChainId (chains (to params)))) |})
              (V3 {| parents := 0;
                     interior := X1 (AccountId32
                                       (Astar.accountId32Hex a (address params)) None) |})
              (V3 [ {| concrete :=
                         {| parents := 1;
                            interior :=
                              X2 (Parachain (paraChainId (chains (to params))))
                                 (GeneralKeyV3 (Astar.tokenIdByteCount tokenId)
                                               paddedTokenId) |};
                       fungible := FN.toChainData (amount params) |} ])
              0)).
Proof.
  intros tokenId paddedTokenId. subst tokenId paddedTokenId.
  split; [|split; [|split]].
  - intros Hle. rewrite (paddedTokenId_zero_bytes _ _ Hle). split; [reflexivity|].
    rewrite toHex_length, length_app, repeat_length. lia.
  - intros Hlen. rewrite paddedTokenId_zero_bytes by lia.
    replace (XCM_V3_GENERAL_KEY_DATA_BYTES - List.length bytes)%nat with 0%nat by lia.
    simpl. now rewrite app_nil_r.
  - unfold Astar.tokenIdByteCount. rewrite string_replace_0x, hexOfBytes_length.
    rewrite Nat2Z.inj_mul, inject_Z_mult. simpl (Z.of_nat 2). field.
  - intros chains this a params Ha Hv3 Hnative Htoken.
    apply getProperty_Own_iff in Htoken.
    unfold Astar.createTx. rewrite Ha. simpl. rewrite Hv3, Hnative, Htoken. reflexivity.
Qed.

Lemma createTx_general_key_padding_witness :
  Astar.paddedTokenId 32 "0x0001"
  = "0x0001000000000000000000000000000000000000000000000000000000000000"
  /\ Astar.createTx Samples.chains 32 Samples.astar (Samples.transferParams "interlay" "IBTC")
     = inr (Astar.polkadotXcm_reserveWithdrawAssets
              (V3 {| parents := 1; interior := X1 (Parachain 2032) |})
              (V3 {| parents := 0; interior := X1 (AccountId32 Samples.alice None) |})
              (V3 [ {| concrete :=
                         {| parents := 1;
                            interior :=
                              X2 (Parachain 2032)
                                 (GeneralKeyV3 (Astar.tokenIdByteCount "0x0001")
                                    "0x0001000000000000000000000000000000000000000000000000000000000000") |};
                       fungible := 10000000000 |} ])
              0).
Proof.
  destruct (createTx_general_key_padding 32 [Byte.x00; Byte.x01])
    as (Hshort & _ & _ & Htx).
  destruct (Hshort ltac:(simpl; lia)) as [Hpad _].
  split; [exact Hpad|].
  exact (Htx Samples.chains Samples.astar Samples.astarApi
           (Samples.transferParams "interlay" "IBTC") eq_refl eq_refl eq_refl eq_refl).
Defined.

End GeneralKeyClaims.

Section ParallelClaims.

(** ** C10 *)

(** C10. The Parallel adapter tests the numeric token id for falsity, so the
    id 0 of the supported token HKO is taken for a missing one: [createTx]
    throws [CurrencyNotFound] for HKO, and a token of id 0 gets from
    [createTx], and from [subscribeBalance] when it is not the native token,
    what a token gets for which the read of the table gives [undefined]. *)
Theorem createTx_token_id_zero :
  Parallel.SUPPORTED_TOKENS !! "HKO" = Some 0%Z /\
  (forall (chains : ChainName -> Chain) (this : Parallel.Adapter) (a : Parallel.Api)
          (params : CrossChainTransferParams),
     Parallel.api this = Some a ->
     token params = "HKO" ->
     Parallel.createTx chains this params = inl (CurrencyNotFound "HKO")) /\
  (forall (chains : ChainName -> Chain) (this : Parallel.Adapter) (a : Parallel.Api)
          (params : CrossChainTransferParams),
     Parallel.api this = Some a ->
     Parallel.SUPPORTED_TOKENS !! token params = Some 0%Z
     \/ getProperty Parallel.SUPPORTED_TOKENS (token params) = Undefined ->
     Parallel.createTx chains this params = inl (CurrencyNotFound (token params))) /\
  (forall (this : Parallel.ParallelBalanceAdapter) (token address : string),
     String.eqb token (Parallel.nativeToken this) = false ->
     Parallel.SUPPORTED_TOKENS !! token = Some 0%Z
     \/ getProperty Parallel.SUPPORTED_TOKENS token = Undefined ->
     Parallel.subscribeBalance this token address = inl (CurrencyNotFound token)) /\
  (forall (chains : ChainName -> Chain) (this : Parallel.Adapter) (a : Parallel.Api)
          (params : CrossChainTransferParams) (tokenId : Z),
     Parallel.api this = Some a ->
     Parallel.SUPPORTED_TOKENS !! token params = Some tokenId ->
     tokenId <> 0%Z ->
     exists tx, Parallel.createTx chains this params = inr tx).
Proof.
  split; [reflexivity|]. split; [|split; [|split]].
  - intros chains this a params Ha Htoken.
    unfold Parallel.createTx. rewrite Ha, Htoken. reflexivity.
  - intros chains this a params Ha Hid.
    unfold Parallel.createTx. rewrite Ha. cbv zeta.
    destruct Hid as [Hid | Hid]; [apply getProperty_Own_iff in Hid|];
      rewrite Hid; reflexivity.
  - intros this token address Hnative Hid.
    unfold Parallel.subscribeBalance. rewrite Hnative. cbv zeta.
    destruct Hid as [Hid | Hid]; [apply getProperty_Own_iff in Hid|];
      rewrite Hid; reflexivity.
  - intros chains this a params tokenId Ha Hid Hnz.
    apply getProperty_Own_iff in Hid.
    unfold Parallel.createTx. rewrite Ha. cbv zeta. rewrite Hid. cbn [Parallel.not_].
    destruct (Z.eqb_spec tokenId 0) as [->|_]; [contradiction|]. eauto.
Qed.

Lemma createTx_token_id_zero_witness :
  Parallel.createTx Samples.chains Samples.heiko (Samples.transferParams "kintsugi" "HKO")
  = inl (CurrencyNotFound "HKO").
Proof.
  destruct createTx_token_id_zero as (_ & Hhko & _).
  exact (Hhko Samples.chains Samples.heiko Samples.heikoApi
           (Samples.transferParams "kintsugi" "HKO") eq_refl eq_refl).
Defined.

End ParallelClaims.

(* ===================================================================== *)
(** * Further properties of the verification script *)
(* ===================================================================== *)

Section SendTxFacts.

Import Harness.
Local Open Scope list_scope.

Lemma lastValueFrom_single {A : Type} (x : A) : lastValueFrom [x] = inr x.
Proof. reflexivity. Qed.

Lemma lastValueFrom_cons {A : Type} (x y : A) (l : list A) :
  lastValueFrom (x :: y :: l) = lastValueFrom (y :: l).
Proof.
  unfold lastValueFrom. simpl.
  destruct (rev l ++ [y]) as [|z zs] eqn:E.
  - destruct (rev l); discriminate.
  - reflexivity.
Qed.

Local Abbreviation isChecking := (fun x : BalanceChangedStatus => bool_decide (x = CHECKING)).

(** The last value of the statuses taken is the first status that is not
    [CHECKING], when there is one. *)
Lemma lastValueFrom_settled (pre post : list BalanceChangedStatus)
    (s : BalanceChangedStatus) :
  Forall (eq CHECKING) pre -> s <> CHECKING ->
  lastValueFrom (takeWhileInclusive isChecking (pre ++ s :: post)) = inr s.
Proof.
  intros Hpre Hs. induction Hpre as [|x pre <- Hpre IH]; cbn [app takeWhileInclusive].
  - rewrite bool_decide_eq_false_2 by exact Hs. reflexivity.
  - rewrite bool_decide_eq_true_2 by reflexivity.
    destruct (takeWhileInclusive isChecking (pre ++ s :: post)) as [|y l] eqn:E.
    + discriminate IH.
    + rewrite lastValueFrom_cons. exact IH.
Qed.

(** Statuses that never leave [CHECKING] end on [CHECKING]. *)
Lemma lastValueFrom_unsettled (l : list BalanceChangedStatus) :
  Forall (eq CHECKING) l -> l <> [] ->
  lastValueFrom (takeWhileInclusive isChecking l) = inr CHECKING.
Proof.
  intros Hall. induction Hall as [|x l <- Hall IH]; [congruence|]. intros _.
  cbn [takeWhileInclusive]. rewrite bool_decide_eq_true_2 by reflexivity.
  destruct l as [|y l]; [reflexivity|].
  specialize (IH ltac:(discriminate)).
  destruct (takeWhileInclusive isChecking (y :: l)) as [|z zs] eqn:E.
  - discriminate IH.
  - rewrite lastValueFrom_cons. exact IH.
Qed.

(** A status list is empty, never leaves [CHECKING], or has a first status
    that is not [CHECKING]. *)
Lemma statuses_cases (l : list BalanceChangedStatus) :
  Forall (eq CHECKING) l \/
  exists pre s post, l = pre ++ s :: post /\ Forall (eq CHECKING) pre /\ s <> CHECKING.
Proof.
  induction l as [|x l IH]; [left; constructor|].
  destruct (decide (x = CHECKING)) as [-> | Hx].
  - destruct IH as [Hall | (pre & s & post & -> & Hpre & Hs)].
    + left. constructor; [reflexivity | exact Hall].
    + right. exists (CHECKING :: pre), s, post. repeat split; auto.
  - right. exists [], x, l. repeat split; auto.
Qed.

(** X1. [sendTx] returns exactly when the transfer is delivered, the first
    status of the destination that is not [CHECKING] is [SUCCESS] (whatever
    follows it) and the new free balance is not zero; it then returns the
    amount sent minus that balance. *)
Theorem sendTx_returns_iff (c : Channel) (amount : FN.t) (tcase : TestCase) (fee : FN.t) :
  snd (sendTx c amount tcase) = inr fee <->
  exists d pre post,
    transfer c tcase amount = inr d /\
    changes d = pre ++ SUCCESS :: post /\
    Forall (eq CHECKING) pre /\
    FN.isZero (free (newBalance d)) = false /\
    fee = FN.sub amount (free (newBalance d)).
Proof.
  split.
  - intros H. destruct (sendTx_returns _ _ _ _ H) as (d & Hd & Hlast & Hz & Hfee).
    exists d.
    destruct (statuses_cases (changes d)) as [Hall | (pre & s & post & Hl & Hpre & Hs)].
    + destruct (changes d) as [|x l] eqn:E; [discriminate Hlast|].
      rewrite lastValueFrom_unsettled in Hlast by (auto; discriminate).
      discriminate Hlast.
    + rewrite Hl, (lastValueFrom_settled pre post s Hpre Hs) in Hlast.
      injection Hlast as ->. exists pre, post. repeat split; assumption.
  - intros (d & pre & post & Hd & Hl & Hpre & Hz & ->).
    unfold sendTx, bind, logSent, lift, throw, ret. rewrite Hd.
    rewrite Hl, (lastValueFrom_settled pre post SUCCESS Hpre) by discriminate.
    rewrite bool_decide_eq_true_2 by reflexivity. rewrite Hz. reflexivity.
Qed.

(** X2. A delivery makes [sendTx] throw [FailedToTransfer] when the first
    status that is not [CHECKING] is another than [SUCCESS], even if
    [SUCCESS] follows it, when the statuses never leave [CHECKING], and when
    the new free balance is zero; it throws [EmptyError] when there is no
    status at all. *)
Theorem sendTx_throws (c : Channel) (amount : FN.t) (tcase : TestCase) (d : Delivery) :
  transfer c tcase amount = inr d ->
  (changes d = [] -> snd (sendTx c amount tcase) = inl EmptyError) /\
  (forall pre s post,
     changes d = pre ++ s :: post -> Forall (eq CHECKING) pre ->
     s <> CHECKING -> s <> SUCCESS ->
     snd (sendTx c amount tcase) = inl (FailedToTransfer amount tcase)) /\
  (changes d <> [] -> Forall (eq CHECKING) (changes d) ->
   snd (sendTx c amount tcase) = inl (FailedToTransfer amount tcase)) /\
  (changes d <> [] -> FN.isZero (free (newBalance d)) = true ->
   snd (sendTx c amount tcase) = inl (FailedToTransfer amount tcase)).
Proof.
  intros Hd. unfold sendTx, bind, logSent, lift, throw, ret. rewrite Hd.
  cbn [snd fst app]. repeat split.
  - intros ->. reflexivity.
  - intros pre s post Hl Hpre Hs Hns.
    rewrite Hl, (lastValueFrom_settled pre post s Hpre Hs). cbn [negb orb].
    rewrite bool_decide_eq_false_2 by exact Hns. reflexivity.
  - intros Hne Hall. rewrite (lastValueFrom_unsettled _ Hall Hne). reflexivity.
  - intros Hne Hz.
    destruct (statuses_cases (changes d)) as [Hall | (pre & s & post & Hl & Hpre & Hs)].
    + rewrite (lastValueFrom_unsettled _ Hall Hne). reflexivity.
    + rewrite Hl, (lastValueFrom_settled pre post s Hpre Hs).
      rewrite Hz, orb_true_r. reflexivity.
Qed.

Lemma sendTx_throws_witness :
  snd (sendTx (Samples.timeoutThenSuccess) (FN.fromInner 1000 0) FeeEstimate)
  = inl (FailedToTransfer (FN.fromInner 1000 0) FeeEstimate).
Proof.
  destruct (sendTx_throws Samples.timeoutThenSuccess (FN.fromInner 1000 0) FeeEstimate
              _ eq_refl) as (_ & Hfirst & _).
  apply (Hfirst [CHECKING] TIMEOUT [SUCCESS]).
  - reflexivity.
  - repeat constructor.
  - discriminate.
  - discriminate.
Defined.

End SendTxFacts.

Section CheckTransferFacts.

Import Harness.
Local Open Scope list_scope.

Lemma feeJudgement_inr_not_FAIL (feeBudget actualFee : FN.t) (r : IndividualTestResult) :
  feeJudgement feeBudget actualFee = inr r -> result r <> FAIL.
Proof.
  unfold feeJudgement.
  destruct (number_leb _ 2); [destruct (number_ltb _ 1)|];
    intros [= <-]; simpl; discriminate.
Qed.

(** X3. An error thrown by the lookup of the minimum input or of the
    existential deposit makes [checkTransfer] fail with the error's message
    before any transfer is asked for; the fee budget is looked up only after
    the first transfer, so an error thrown by that lookup fails the check
    with one transfer made. *)
Theorem checkTransfer_lookup_errors (c : Channel) :
  (forall e,
     subscribeMinInput c = inl e ->
     checkTransfer c = ([], {| message := e; result := FAIL |})) /\
  (forall m e,
     subscribeMinInput c = inr m -> getDestED c = inl e ->
     checkTransfer c = ([], {| message := e; result := FAIL |})) /\
  (forall m ed fee e,
     subscribeMinInput c = inr m -> getDestED c = inr ed ->
     snd (sendTx c (FN.mul m (FN.ofNumber 10)) FeeEstimate) = inr fee ->
     getCrossChainFee c = inl e ->
     checkTransfer c
     = ([(FeeEstimate, FN.mul m (FN.ofNumber 10))], {| message := e; result := FAIL |})).
Proof.
  repeat split.
  - intros e Hm. unfold checkTransfer, checkTransferBody. rewrite Hm. reflexivity.
  - intros m e Hm Hed. unfold checkTransfer, checkTransferBody. rewrite Hm, Hed.
    reflexivity.
  - intros m ed fee e Hm Hed Hsend Hb.
    unfold checkTransfer, checkTransferBody. rewrite Hm, Hed. simpl.
    rewrite (sendTx_pair c (FN.mul m (FN.ofNumber 10)) FeeEstimate), Hsend. simpl.
    rewrite Hb. reflexivity.
Qed.

(** X4. [checkTransfer] asks for no transfer, for the first transfer alone,
    or for the first transfer and the follow-up, in this order; the first is
    of ten times the minimum input, and the follow-up is asked for only
    after the first transfer has completed and the fee judgement has not
    failed. *)
Theorem checkTransfer_transfers (c : Channel) :
  (fst (checkTransfer c) = [] \/
   (exists m, subscribeMinInput c = inr m /\
      fst (checkTransfer c) = [(FeeEstimate, FN.mul m (FN.ofNumber 10))]) \/
   (exists m amount, subscribeMinInput c = inr m /\
      fst (checkTransfer c)
      = [(FeeEstimate, FN.mul m (FN.ofNumber 10)); (ExistentialDeposit, amount)])) /\
  (forall amount,
     In (ExistentialDeposit, amount) (fst (checkTransfer c)) ->
     exists m actualFee feeBudget,
       subscribeMinInput c = inr m /\
       snd (sendTx c (FN.mul m (FN.ofNumber 10)) FeeEstimate) = inr actualFee /\
       getCrossChainFee c = inr feeBudget /\
       feeVerdict feeBudget actualFee <> FAIL).
Proof.
  pose proof (checkTransfer_trace c) as Htrace.
  destruct (checkTransfer c) as [log res]; simpl in Htrace |- *.
  split.
  - inversion Htrace; subst; eauto 10.
  - intros amount Hin.
    inversion Htrace; subst; simpl in Hin;
      repeat match goal with
             | H : _ \/ _ |- _ => destruct H
             | H : False |- _ => destruct H
             | H : (_, _) = (_, _) |- _ => inversion H; clear H; subst
             end.
    + exists m, fee, budget. repeat split; try assumption.
      unfold feeVerdict.
      match goal with H : feeJudgement _ _ = inr _ |- _ => rewrite H end.
      eapply feeJudgement_inr_not_FAIL. eassumption.
    + exists m, fee, budget. repeat split; try assumption.
      unfold feeVerdict.
      match goal with H : feeJudgement _ _ = inr _ |- _ => rewrite H end.
      eapply feeJudgement_inr_not_FAIL. eassumption.
Qed.

(** X5. A result of [checkTransfer] other than [FAIL] is sound: the minimum
    input, the existential deposit and the fee budget were found, both
    transfers were made and completed, and the result is the verdict of the
    fee judgement, with its message. *)
Theorem checkTransfer_pass_is_sound (c : Channel) :
  result (snd (checkTransfer c)) <> FAIL ->
  exists m ed actualFee feeBudget fee2,
    subscribeMinInput c = inr m /\
    getDestED c = inr ed /\
    snd (sendTx c (FN.mul m (FN.ofNumber 10)) FeeEstimate) = inr actualFee /\
    getCrossChainFee c = inr feeBudget /\
    snd (sendTx c (amountToSend actualFee ed) ExistentialDeposit) = inr fee2 /\
    fst (checkTransfer c)
    = [(FeeEstimate, FN.mul m (FN.ofNumber 10));
       (ExistentialDeposit, amountToSend actualFee ed)] /\
    feeJudgement feeBudget actualFee = inr (snd (checkTransfer c)) /\
    result (snd (checkTransfer c)) = feeVerdict feeBudget actualFee.
Proof.
  pose proof (checkTransfer_trace c) as Htrace.
  destruct (checkTransfer c) as [log res]; simpl in Htrace |- *.
  intros Hpass.
  inversion Htrace; subst; simpl in Hpass; try congruence.
  - exfalso. apply Hpass. eapply feeJudgement_inl_FAIL. eassumption.
  - do 5 eexists.
    split; [eassumption|]. split; [eassumption|]. split; [eassumption|].
    split; [eassumption|]. split; [eassumption|]. split; [reflexivity|].
    split; [assumption|].
    apply feeJudgement_result. right. assumption.
Qed.

Lemma checkTransfer_pass_is_sound_witness :
  exists actualFee,
    snd (sendTx (Samples.channel 250 900 1)
           (FN.mul (FN.fromInner 100 0) (FN.ofNumber 10)) FeeEstimate) = inr actualFee /\
    result (snd (checkTransfer (Samples.channel 250 900 1)))
    = feeVerdict (FN.fromInner 250 0) actualFee.
Proof.
  destruct (checkTransfer_pass_is_sound (Samples.channel 250 900 1))
    as (m & ed & actualFee & feeBudget & fee2 & Hm & _ & Hsend & Hb & _ & _ & _ & Hres).
  - vm_compute. discriminate.
  - injection Hm as <-. injection Hb as <-.
    exists actualFee. split; [exact Hsend | exact Hres].
Defined.

End CheckTransferFacts.

Section RetryStep.

Lemma runCheck_eq (w : Harness.World) (tc : Harness.TestCaseSpec) (r : Harness.Run) :
  Harness.runCheck w tc r
  = (Harness.attemptResult w tc r 0,
     {| Harness.checks := S (Harness.checks r);
        Harness.sent :=
          (Harness.sent r ++ fst (Harness.checkTransfer (w tc (Harness.checks r))))%list;
        Harness.stdout := Harness.stdout r |}).
Proof.
  unfold Harness.runCheck, Harness.attemptResult. rewrite Nat.add_0_r.
  destruct (Harness.checkTransfer _) as [log res]. reflexivity.
Qed.

(** One step of [retryCheckTransfer]. *)
Lemma retryCheckTransfer_step (w : Harness.World) (tc : Harness.TestCaseSpec)
    (maxAttempts attemptCount : nat) (r : Harness.Run) :
  Harness.retryCheckTransfer w tc maxAttempts attemptCount r =
  if bool_decide (Harness.result (Harness.attemptResult w tc r 0) = Harness.OK)
  then Harness.runCheck w tc r
  else if lt_dec attemptCount maxAttempts
       then Harness.retryCheckTransfer w tc maxAttempts (attemptCount + 1)
              (Harness.write (Harness.AttemptFailed attemptCount maxAttempts)
                 (snd (Harness.runCheck w tc r)))
       else (Harness.attemptResult w tc r 0,
             Harness.write Harness.GivingUp
               (Harness.write (Harness.AttemptFailed attemptCount maxAttempts)
                  (snd (Harness.runCheck w tc r)))).
Proof.
  etransitivity; [apply retryCheckTransfer_unfold|].
  pose proof (runCheck_eq w tc r) as E.
  destruct (Harness.runCheck w tc r) as [res r1]. injection E as -> ->. reflexivity.
Qed.

End RetryStep.

Section RetryFacts.

Import Harness.
Local Open Scope list_scope.

Lemma checkTransfer_log_length (c : Channel) : length (fst (checkTransfer c)) <= 2.
Proof.
  pose proof (checkTransfer_trace c) as Htrace.
  destruct (checkTransfer c) as [log res]; simpl in Htrace |- *.
  inversion Htrace; subst; simpl; lia.
Qed.

(** What the script writes for [k] failed attempts from attempt number [a]
    on. *)
Local Abbreviation failedFrom a maxAttempts k :=
  (map (fun i => AttemptFailed (a + i) maxAttempts) (seq 0 k)).

Lemma failedFrom_S (a maxAttempts k : nat) :
  failedFrom a maxAttempts (S k)
  = AttemptFailed a maxAttempts :: failedFrom (a + 1) maxAttempts k.
Proof.
  cbn [seq map]. rewrite Nat.add_0_r. f_equal.
  rewrite <- seq_shift, map_map. apply map_ext. intros i. f_equal. lia.
Qed.

(** X6. When the first check is [OK], [retryCheckTransfer] makes that one
    check and writes nothing, whatever the ceiling and the attempt count. *)
Theorem retryCheckTransfer_first_check_OK
    (w : World) (tc : TestCaseSpec) (maxAttempts attemptCount : nat) (r : Run) :
  result (attemptResult w tc r 0) = OK ->
  retryCheckTransfer w tc maxAttempts attemptCount r = runCheck w tc r /\
  fst (retryCheckTransfer w tc maxAttempts attemptCount r) = attemptResult w tc r 0 /\
  checks (snd (retryCheckTransfer w tc maxAttempts attemptCount r)) = S (checks r) /\
  stdout (snd (retryCheckTransfer w tc maxAttempts attemptCount r)) = stdout r.
Proof.
  intros Hok. rewrite retryCheckTransfer_step.
  rewrite bool_decide_eq_true_2 by exact Hok. rewrite runCheck_eq. repeat split.
Qed.

Lemma retryCheckTransfer_first_check_OK_witness :
  checks (snd (retryCheckTransfer Samples.alwaysOK Samples.kintsugiToKusama 0 1
                 Samples.freshRun)) = 1
  /\ stdout (snd (retryCheckTransfer Samples.alwaysOK Samples.kintsugiToKusama 0 1
                    Samples.freshRun)) = [].
Proof.
  destruct (retryCheckTransfer_first_check_OK Samples.alwaysOK Samples.kintsugiToKusama
              0 1 Samples.freshRun eq_refl) as (_ & _ & Hchecks & Hout).
  split; [exact Hchecks | exact Hout].
Defined.

(** X7. With no retry left (the attempt count has reached the ceiling, as
    it has from the start with a ceiling of 0), [retryCheckTransfer] still
    makes one check; when that check is not [OK], it returns its result and
    writes that the attempt failed and that it gives up. *)
Theorem retryCheckTransfer_no_retry_left
    (w : World) (tc : TestCaseSpec) (maxAttempts attemptCount : nat) (r : Run) :
  maxAttempts <= attemptCount ->
  result (attemptResult w tc r 0) <> OK ->
  fst (retryCheckTransfer w tc maxAttempts attemptCount r) = attemptResult w tc r 0 /\
  checks (snd (retryCheckTransfer w tc maxAttempts attemptCount r)) = S (checks r) /\
  stdout (snd (retryCheckTransfer w tc maxAttempts attemptCount r))
  = stdout r ++ [AttemptFailed attemptCount maxAttempts; GivingUp].
Proof.
  intros Hle Hfail. rewrite retryCheckTransfer_step.
  rewrite bool_decide_eq_false_2 by exact Hfail.
  destruct (lt_dec attemptCount maxAttempts) as [Hlt|_]; [lia|].
  rewrite runCheck_eq. repeat split. simpl. rewrite <- app_assoc. reflexivity.
Qed.

Lemma retryCheckTransfer_no_retry_left_witness :
  checks (snd (retryCheckTransfer Samples.alwaysFailing Samples.kintsugiToKusama 0 1
                 Samples.freshRun)) = 1
  /\ stdout (snd (retryCheckTransfer Samples.alwaysFailing Samples.kintsugiToKusama 0 1
                    Samples.freshRun)) = [AttemptFailed 1 0; GivingUp].
Proof.
  assert (Hfail : result (attemptResult Samples.alwaysFailing Samples.kintsugiToKusama
                            Samples.freshRun 0) <> OK)
    by (vm_compute; discriminate).
  destruct (retryCheckTransfer_no_retry_left Samples.alwaysFailing
              Samples.kintsugiToKusama 0 1 Samples.freshRun ltac:(lia) Hfail)
    as (_ & Hchecks & Hout).
  split; [exact Hchecks | exact Hout].
Defined.

(** The effects of [retryCheckTransfer] with [more] retries left, after
    [S k] checks. *)
Lemma retryCheckTransfer_effects (w : World) (tc : TestCaseSpec) (maxAttempts : nat) :
  forall (more attemptCount : nat) (r : Run),
    more = maxAttempts - attemptCount ->
    let out := retryCheckTransfer w tc maxAttempts attemptCount r in
    exists k extra,
      k <= more /\
      checks (snd out) = checks r + S k /\
      sent (snd out) = sent r ++ extra /\
      length extra <= 2 * S k /\
      ((result (fst out) = OK /\
        stdout (snd out) = stdout r ++ failedFrom attemptCount maxAttempts k) \/
       (result (fst out) <> OK /\ k = more /\
        stdout (snd out)
        = stdout r ++ failedFrom attemptCount maxAttempts (S k) ++ [GivingUp])).
Proof.
  induction more as [|more IH]; intros attemptCount r Hmore out; subst out;
    rewrite retryCheckTransfer_step, runCheck_eq; cbn [snd fst];
    pose proof (checkTransfer_log_length (w tc (checks r))) as Hlog;
    destruct (bool_decide (result (attemptResult w tc r 0) = OK)) eqn:Hok.
  - apply bool_decide_eq_true in Hok.
    exists 0, (fst (checkTransfer (w tc (checks r)))). simpl.
    repeat split; try lia. left. split; [exact Hok|]. now rewrite app_nil_r.
  - apply bool_decide_eq_false in Hok.
    destruct (lt_dec attemptCount maxAttempts) as [Hlt|_]; [lia|].
    exists 0, (fst (checkTransfer (w tc (checks r)))). simpl.
    repeat split; try lia. right. repeat split; [exact Hok|].
    rewrite Nat.add_0_r, <- app_assoc. reflexivity.
  - apply bool_decide_eq_true in Hok.
    exists 0, (fst (checkTransfer (w tc (checks r)))). simpl.
    repeat split; try lia. left. split; [exact Hok|]. now rewrite app_nil_r.
  - apply bool_decide_eq_false in Hok.
    destruct (lt_dec attemptCount maxAttempts) as [Hlt|Hge]; [|lia].
    match goal with
    | |- context [retryCheckTransfer w tc maxAttempts (attemptCount + 1) ?r2] =>
        specialize (IH (attemptCount + 1) r2 ltac:(lia))
    end.
    cbv zeta in IH.
    destruct IH as (k & extra & Hk & Hchecks & Hsent & Hlen & Hstdout).
    simpl in Hchecks, Hsent, Hstdout.
    exists (S k), (fst (checkTransfer (w tc (checks r))) ++ extra).
    repeat split; try lia.
    + rewrite Hsent, <- app_assoc. reflexivity.
    + rewrite length_app. lia.
    + destruct Hstdout as [(Hres & Hout) | (Hres & Hkm & Hout)].
      * left. split; [exact Hres|]. rewrite Hout, failedFrom_S, <- app_assoc.
        reflexivity.
      * right. repeat split; [exact Hres | lia |].
        rewrite Hout, (failedFrom_S attemptCount), <- app_assoc. reflexivity.
Qed.

(** X8. [retryCheckTransfer] writes one "attempt failed" line per check
    that is not [OK], numbered from the attempt count on, and then "giving
    up" exactly when the result it returns is not [OK]. *)
Theorem retryCheckTransfer_stdout
    (w : World) (tc : TestCaseSpec) (maxAttempts attemptCount : nat) (r : Run) :
  let out := retryCheckTransfer w tc maxAttempts attemptCount r in
  let made := checks (snd out) - checks r in
  (result (fst out) = OK /\
   stdout (snd out)
   = stdout r
     ++ map (fun i => AttemptFailed (attemptCount + i) maxAttempts) (seq 0 (made - 1))) \/
  (result (fst out) <> OK /\
   stdout (snd out)
   = stdout r
     ++ map (fun i => AttemptFailed (attemptCount + i) maxAttempts) (seq 0 made)
     ++ [GivingUp]).
Proof.
  intros out made.
  destruct (retryCheckTransfer_effects w tc maxAttempts (maxAttempts - attemptCount)
              attemptCount r eq_refl)
    as (k & extra & _ & Hchecks & _ & _ & Hstdout).
  fold out in Hchecks, Hstdout.
  assert (Hmade : made = S k) by (unfold made; lia).
  rewrite Hmade. replace (S k - 1) with k by lia.
  destruct Hstdout as [(Hres & Hout) | (Hres & _ & Hout)]; [left | right]; auto.
Qed.

(** X9. A run of [retryCheckTransfer] only adds to the transfers made, at
    most two per check, hence at most [2 * maxAttempts] for a ceiling of at
    least one attempt. *)
Theorem retryCheckTransfer_transfers_bound
    (w : World) (tc : TestCaseSpec) (maxAttempts : nat) (r : Run) :
  1 <= maxAttempts ->
  let out := retryCheckTransfer w tc maxAttempts 1 r in
  exists extra,
    sent (snd out) = sent r ++ extra /\
    length extra <= 2 * (checks (snd out) - checks r) /\
    length extra <= 2 * maxAttempts.
Proof.
  intros Hpos out.
  destruct (retryCheckTransfer_effects w tc maxAttempts (maxAttempts - 1) 1 r eq_refl)
    as (k & extra & Hk & Hchecks & Hsent & Hlen & _).
  fold out in Hchecks, Hsent.
  exists extra. repeat split; [exact Hsent | lia | lia].
Qed.

Lemma retryCheckTransfer_transfers_bound_witness :
  exists extra,
    sent (snd (retryCheckTransfer Samples.warnThenTimeout Samples.kintsugiToKusama 3 1
                 Samples.freshRun)) = extra /\
    length extra <= 6.
Proof.
  destruct (retryCheckTransfer_transfers_bound Samples.warnThenTimeout
              Samples.kintsugiToKusama 3 Samples.freshRun ltac:(lia))
    as (extra & Hsent & _ & Hlen).
  exists extra. split; [exact Hsent | exact Hlen].
Defined.

End RetryFacts.

Section RunTestCasesFacts.

Import Harness.
Local Open Scope list_scope.

(** The verdicts of the test cases of a run. *)
Local Abbreviation verdicts w testCases r :=
  (map (fun p : TestCaseSpec * IndividualTestResult => result (snd p))
     (testResults w testCases r)).

Lemma runTestCase_eq (w : World) (tc : TestCaseSpec) (agg : ResultCode) (r : Run) :
  runTestCase w tc (agg, r)
  = (match agg, result (fst (retryCheckTransfer w tc 3 1 r)) with
     | FAIL, _ | _, FAIL => FAIL
     | WARN, _ | _, WARN => WARN
     | OK, OK => OK
     end,
     snd (retryCheckTransfer w tc 3 1 r)).
Proof.
  unfold runTestCase. destruct (retryCheckTransfer w tc 3 1 r) as [res r']. simpl.
  destruct agg, (result res); reflexivity.
Qed.

Lemma retryCheckTransfer_checks_3 (w : World) (tc : TestCaseSpec) (r : Run) :
  checks r + 1 <= checks (snd (retryCheckTransfer w tc 3 1 r)) <= checks r + 3.
Proof.
  destruct (retryCheckTransfer_outcome w tc 3 2 1 r eq_refl)
    as [(j & Hj & _ & _ & _ & Hcnt) | (_ & _ & Hcnt)]; lia.
Qed.

(** The aggregate and the number of checks after the loop of
    [runTestCasesAndExit], from any state. *)
Lemma runTestCases_fold (w : World) (testCases : list TestCaseSpec) :
  forall (agg : ResultCode) (r : Run),
    let final := fold_left (fun state tc => runTestCase w tc state) testCases (agg, r) in
    (fst final = OK <-> agg = OK /\ Forall (eq OK) (verdicts w testCases r)) /\
    (fst final = FAIL <-> agg = FAIL \/ Exists (eq FAIL) (verdicts w testCases r)) /\
    checks r + length testCases <= checks (snd final) <= checks r + 3 * length testCases.
Proof.
  induction testCases as [|tc rest IH]; intros agg r; cbn [fold_left testResults map].
  - simpl. split; [|split].
    + split; [intros ->; auto | tauto].
    + split; [auto | intros [H | H]; [exact H | inversion H]].
    + lia.
  - rewrite runTestCase_eq.
    pose proof (retryCheckTransfer_checks_3 w tc r) as Hchecks.
    destruct (retryCheckTransfer w tc 3 1 r) as [res r'] eqn:E.
    cbn [fst snd map] in *.
    match goal with
    | |- context [fold_left _ rest (?a, r')] => specialize (IH a r')
    end.
    cbv zeta in IH. destruct IH as (HOK & HFAIL & Hcnt).
    cbn [length]. split; [|split; [|lia]].
    + split.
      * intros Hfin. apply HOK in Hfin. destruct Hfin as [Hagg Hall].
        destruct agg, (result res) eqn:Hres; try discriminate Hagg.
        split; [reflexivity|]. constructor; [reflexivity | exact Hall].
      * intros [-> Hall]. inversion Hall as [|x l Hx Hl]; subst.
        apply HOK. rewrite <- Hx. split; [reflexivity | exact Hl].
    + split.
      * intros Hfin. apply HFAIL in Hfin. destruct Hfin as [Hagg | Hex].
        -- destruct agg, (result res) eqn:Hres; try discriminate Hagg; auto.
        -- right. apply Exists_cons_tl. exact Hex.
      * intros Hor. apply HFAIL. destruct Hor as [-> | Hex].
        -- left. destruct (result res); reflexivity.
        -- inversion Hex as [x l Hx | x l Hl]; subst.
           ++ left. rewrite <- Hx. destruct agg; reflexivity.
           ++ right. exact Hl.
Qed.

Lemma verdicts_cases (rs : list ResultCode) :
  Forall (eq OK) rs \/ Exists (eq FAIL) rs \/
  (Exists (eq WARN) rs /\ Forall (fun v => v <> FAIL) rs).
Proof.
  induction rs as [|v rs IH]; [left; constructor|].
  destruct v.
  - destruct IH as [H | [H | [H1 H2]]].
    + left. constructor; auto.
    + right. left. apply Exists_cons_tl. exact H.
    + right. right. split; [apply Exists_cons_tl; exact H1|].
      constructor; [discriminate | exact H2].
  - destruct IH as [H | [H | [H1 H2]]].
    + right. right. split; [apply Exists_cons_hd; reflexivity|].
      constructor; [discriminate|].
      eapply Forall_impl; [exact H|]. intros a <-. discriminate.
    + right. left. apply Exists_cons_tl. exact H.
    + right. right. split; [apply Exists_cons_hd; reflexivity|].
      constructor; [discriminate | exact H2].
  - right. left. apply Exists_cons_hd. reflexivity.
Qed.

Lemma runTestCasesAndExit_zero_iff (w : World) (testCases : list TestCaseSpec) :
  fst (runTestCasesAndExit w testCases) = 0%Z <->
  Forall (eq OK)
    (verdicts w testCases {| checks := 0; sent := []; stdout := [] |}).
Proof.
  unfold runTestCasesAndExit.
  destruct (runTestCases_fold w testCases OK {| checks := 0; sent := []; stdout := [] |})
    as (HOK & _ & _).
  destruct (fold_left _ testCases _) as [agg r]. cbn [fst snd] in *. split.
  - intros Hc. apply HOK. destruct agg; [reflexivity | discriminate | discriminate].
  - intros Hall. assert (agg = OK) as -> by (apply HOK; auto). reflexivity.
Qed.

(** X10. The exit code of [runTestCasesAndExit] is 0 exactly when every test
    case ends [OK], -2 exactly when some test case ends [FAIL], and -1
    exactly when some test case ends [WARN] and none ends [FAIL]. *)
Theorem runTestCasesAndExit_exit_code (w : World) (testCases : list TestCaseSpec) :
  let rs := map (fun p : TestCaseSpec * IndividualTestResult => result (snd p))
              (testResults w testCases {| checks := 0; sent := []; stdout := [] |}) in
  (fst (runTestCasesAndExit w testCases) = 0%Z <-> Forall (eq OK) rs) /\
  (fst (runTestCasesAndExit w testCases) = (-2)%Z <-> Exists (eq FAIL) rs) /\
  (fst (runTestCasesAndExit w testCases) = (-1)%Z <->
   Exists (eq WARN) rs /\ Forall (fun v => v <> FAIL) rs).
Proof.
  intros rs. unfold runTestCasesAndExit.
  destruct (runTestCases_fold w testCases OK {| checks := 0; sent := []; stdout := [] |})
    as (HOK & HFAIL & _).
  fold rs in HOK, HFAIL.
  destruct (fold_left _ testCases _) as [agg r] eqn:E. cbn [fst snd] in *.
  assert (Hwarn : agg = WARN <-> Exists (eq WARN) rs /\ Forall (fun v => v <> FAIL) rs).
  { split.
    - intros ->.
      destruct (verdicts_cases rs) as [Hall | [Hex | Hw]]; [| |exact Hw].
      + assert (WARN = OK) by (apply HOK; auto). discriminate.
      + assert (WARN = FAIL) by (apply HFAIL; auto). discriminate.
    - intros [Hex Hall]. destruct agg; [|reflexivity|].
      + apply Exists_exists in Hex. destruct Hex as (v & Hin & <-).
        assert (HallOK : Forall (eq OK) rs) by (apply HOK; reflexivity).
        rewrite Forall_forall in HallOK. specialize (HallOK _ Hin). discriminate.
      + assert (Hf : Exists (eq FAIL) rs).
        { destruct HFAIL as [Hf _]. destruct (Hf eq_refl) as [H | H];
            [discriminate | exact H]. }
        apply Exists_exists in Hf. destruct Hf as (v & Hin & <-).
        rewrite Forall_forall in Hall. exfalso. exact (Hall _ Hin eq_refl). }
  split; [|split].
  - split.
    + intros Hc. apply HOK. destruct agg; [reflexivity | discriminate | discriminate].
    + intros Hall. assert (agg = OK) as -> by (apply HOK; auto). reflexivity.
  - split.
    + intros Hc.
      assert (Ha : agg = FAIL) by (destruct agg; [discriminate..|reflexivity]).
      apply HFAIL in Ha. destruct Ha as [Ha | Ha]; [discriminate | exact Ha].
    + intros Hex. assert (agg = FAIL) as -> by (apply HFAIL; auto). reflexivity.
  - split.
    + intros Hc. apply Hwarn.
      destruct agg; [discriminate | reflexivity | discriminate].
    + intros Hw. apply Hwarn in Hw. subst agg. reflexivity.
Qed.

(** X11. A run of [runTestCasesAndExit] makes at least one and at most three
    checks per test case. *)
Theorem runTestCasesAndExit_checks_bound (w : World) (testCases : list TestCaseSpec) :
  length testCases <= checks (snd (runTestCasesAndExit w testCases))
                   <= 3 * length testCases.
Proof.
  unfold runTestCasesAndExit.
  destruct (runTestCases_fold w testCases OK {| checks := 0; sent := []; stdout := [] |})
    as (_ & _ & Hcnt).
  destruct (fold_left _ testCases _) as [agg r]. simpl in *. lia.
Qed.

(** The loop with the list of problematic cases, from any state. *)
Lemma reportTestCases_fold (w : World) (testCases : list TestCaseSpec) :
  forall (agg : ResultCode) (problems : list ProblematicTestCase) (r : Run),
    fold_left (fun state tc => reportTestCase w tc state) testCases (agg, problems, r)
    = (fst (fold_left (fun state tc => runTestCase w tc state) testCases (agg, r)),
       problems
       ++ map (fun p : TestCaseSpec * IndividualTestResult =>
                 {| problem_case := fst p;
                    problem_icon := iconOf (result (snd p));
                    problem_message := message (snd p) |})
            (List.filter (fun p : TestCaseSpec * IndividualTestResult =>
                       negb (bool_decide (result (snd p) = OK)))
               (testResults w testCases r)),
       snd (fold_left (fun state tc => runTestCase w tc state) testCases (agg, r))).
Proof.
  induction testCases as [|tc rest IH]; intros agg problems r;
    cbn [fold_left testResults].
  - simpl. now rewrite app_nil_r.
  - unfold reportTestCase at 2. unfold runTestCase at 2 4.
    destruct (retryCheckTransfer w tc 3 1 r) as [res r'].
    cbn [List.filter snd fst].
    destruct (bool_decide (result res = OK)); cbn [negb].
    + apply IH.
    + destruct (bool_decide (agg = OK)
                || bool_decide (agg = WARN) && bool_decide (result res = FAIL));
        rewrite IH; cbn [map fst snd]; rewrite <- app_assoc; reflexivity.
Qed.

(** X12. [problematicTestCases] holds, in order, one entry for every test
    case that does not end [OK], with the icon and the message of its
    result; the exit code is 0 exactly when the list is empty. *)
Theorem runTestCasesReport_problematic (w : World) (testCases : list TestCaseSpec) :
  let report := runTestCasesReport w testCases in
  (fst (fst report), snd report) = runTestCasesAndExit w testCases /\
  snd (fst report)
  = map (fun p : TestCaseSpec * IndividualTestResult =>
           {| problem_case := fst p;
              problem_icon := iconOf (result (snd p));
              problem_message := message (snd p) |})
      (List.filter (fun p : TestCaseSpec * IndividualTestResult =>
                 negb (bool_decide (result (snd p) = OK)))
         (testResults w testCases {| checks := 0; sent := []; stdout := [] |})) /\
  (fst (fst report) = 0%Z <-> snd (fst report) = []).
Proof.
  intros report. subst report. unfold runTestCasesReport.
  rewrite reportTestCases_fold. cbn [app fst snd].
  pose proof (runTestCasesAndExit_zero_iff w testCases) as H0.
  unfold runTestCasesAndExit in *.
  destruct (fold_left _ testCases _) as [agg r]. cbn [fst snd] in *.
  split; [reflexivity|]. split; [reflexivity|].
  rewrite H0. clear H0.
  generalize (testResults w testCases {| checks := 0; sent := []; stdout := [] |}).
  intros l. induction l as [|p l IH]; cbn [map List.filter].
  - split; [reflexivity | constructor].
  - destruct (bool_decide (result (snd p) = OK)) eqn:Hp; cbn [negb map].
    + apply bool_decide_eq_true in Hp. split.
      * intros H. inversion H; subst. apply IH. assumption.
      * intros H. constructor; [congruence | apply IH; exact H].
    + apply bool_decide_eq_false in Hp. split.
      * intros H. inversion H; subst. congruence.
      * discriminate.
Qed.

(** X13. The test cases of [main] come in both directions: there are two
    for every (chain, token) pair, each has Kintsugi at one end, and the
    list holds the reverse of each of its cases. *)
Theorem bidirectional_test_cases (pairs : list (ChainName * string)) :
  length (bidirectional pairs) = 2 * length pairs /\
  (forall tc, In tc (bidirectional pairs) ->
     (from tc = "kintsugi" /\ In (to_ tc, token_ tc) pairs \/
      to_ tc = "kintsugi" /\ In (from tc, token_ tc) pairs) /\
     In {| from := to_ tc; to_ := from tc; token_ := token_ tc |} (bidirectional pairs)) /\
  (forall targetChain token, In (targetChain, token) pairs ->
     In {| from := "kintsugi"; to_ := targetChain; token_ := token |}
        (bidirectional pairs) /\
     In {| from := targetChain; to_ := "kintsugi"; token_ := token |}
        (bidirectional pairs)).
Proof.
  assert (Hin : forall targetChain token, In (targetChain, token) pairs ->
     In {| from := "kintsugi"; to_ := targetChain; token_ := token |}
        (bidirectional pairs) /\
     In {| from := targetChain; to_ := "kintsugi"; token_ := token |}
        (bidirectional pairs)).
  { intros targetChain token H. unfold bidirectional.
    split; apply in_flat_map; exists (targetChain, token); simpl; auto. }
  split; [|split; [|exact Hin]].
  - unfold bidirectional. induction pairs as [|[c t] rest IH]; [reflexivity|].
    cbn [flat_map length app]. rewrite IH; [lia|].
    intros targetChain token H. unfold bidirectional.
    split; apply in_flat_map; exists (targetChain, token); simpl; auto.
  - intros tc H. unfold bidirectional in H. apply in_flat_map in H.
    destruct H as ([c t] & Hp & [<- | [<- | []]]); simpl.
    + split; [left; auto|]. apply Hin. exact Hp.
    + split; [right; auto|]. apply Hin. exact Hp.
Qed.

End RunTestCasesFacts.
(* ===================================================================== *)
(** * Further properties of the Interlay adapter *)
(* ===================================================================== *)

Section InterlayFacts.

(** X14. [createTx] of the Interlay adapter fails in three ways only: with
    [ApiNotFound] before the chain handle is set, whatever the token; with
    [CurrencyNotFound] for a token that the supported-token table of the
    chain neither has nor inherits from [Object.prototype]; and, for a
    destination that is an asset hub, with the error of
    [getCrossChainFee]. *)
Theorem Interlay_createTx_fails_iff
    (chains : ChainName -> Chain) (isChainEqual : Chain -> ChainName -> bool)
    (this : Interlay.Adapter) (params : CrossChainTransferParams) (e : Error) :
  Interlay.createTx chains isChainEqual this params = inl e <->
  (Interlay.api this = None /\ e = ApiNotFound (id (chain (Interlay.base this)))) \/
  ((exists a, Interlay.api this = Some a) /\
   Interlay.getSupportedTokens (id (chain (Interlay.base this))) !! token params = None /\
   ~ In (token params) Object_prototype /\
   e = CurrencyNotFound (token params)) \/
  ((exists a, Interlay.api this = Some a) /\
   (is_Some (Interlay.getSupportedTokens (id (chain (Interlay.base this)))
               !! token params)
    \/ In (token params) Object_prototype) /\
   isChainEqual (chains (to params)) "statemine"
   || isChainEqual (chains (to params)) "statemint" = true /\
   getCrossChainFee (Interlay.base this) (token params) (to params) = inl e).
Proof.
  unfold Interlay.createTx.
  destruct (Interlay.api this) as [a|].
  - cbv zeta.
    destruct (getProperty (Interlay.getSupportedTokens (id (chain (Interlay.base this))))
                (token params)) as [tokenId|inherited|] eqn:Hid.
    + apply getProperty_Own_iff in Hid.
      destruct (isChainEqual (chains (to params)) "statemine"
                || isChainEqual (chains (to params)) "statemint").
      * destruct (getCrossChainFee _ _ _) as [e'|destFee]; split.
        -- intros [= <-]. right. right. eauto 10.
        -- intros [[[=] _] | [(_ & Hnone & _) | (_ & _ & _ & [= <-])]];
             [congruence | reflexivity].
        -- discriminate.
        -- intros [[[=] _] | [(_ & Hnone & _) | (_ & _ & _ & [=])]]. congruence.
      * split; [discriminate|].
        intros [[[=] _] | [(_ & Hnone & _) | (_ & _ & [=] & _)]]. congruence.
    + apply getProperty_Inherited_iff in Hid. destruct Hid as (Hnone & Hin & _).
      destruct (isChainEqual (chains (to params)) "statemine"
                || isChainEqual (chains (to params)) "statemint").
      * destruct (getCrossChainFee _ _ _) as [e'|destFee]; split.
        -- intros [= <-]. right. right. eauto 10.
        -- intros [[[=] _] | [(_ & _ & Hnot & _) | (_ & _ & _ & [= <-])]];
             [contradiction | reflexivity].
        -- discriminate.
        -- intros [[[=] _] | [(_ & _ & Hnot & _) | (_ & _ & _ & [=])]]. contradiction.
      * split; [discriminate|].
        intros [[[=] _] | [(_ & _ & Hnot & _) | (_ & _ & [=] & _)]]. contradiction.
    + apply getProperty_Undefined_iff in Hid. destruct Hid as (Hnone & Hnot).
      split.
      * intros [= <-]. right. left. eauto.
      * intros [[[=] _] | [(_ & _ & _ & ->) | (_ & [[t Ht] | Hin] & _)]];
          [reflexivity | congruence | contradiction].
  - split.
    + intros [= <-]. left. auto.
    + intros [[_ ->] | [((a & [=]) & _) | ((a & [=]) & _)]]. reflexivity.
Qed.

(** X15. For a destination that is an asset hub the Interlay adapter builds
    [transferMulticurrencies] with two currencies, the token sent and then
    the fee of the destination, and with the fee at index 1; the currency
    of the fee is [Token] of the fee token's symbol, whatever the
    supported-token table holds for that symbol.  For every other
    destination it builds [transfer]. *)
Theorem Interlay_createTx_asset_hub
    (chains : ChainName -> Chain) (isChainEqual : Chain -> ChainName -> bool)
    (this : Interlay.Adapter) (params : CrossChainTransferParams)
    (a : Interlay.Api) (tokenId : Interlay.CurrencyId) :
  Interlay.api this = Some a ->
  Interlay.getSupportedTokens (id (chain (Interlay.base this))) !! token params
  = Some tokenId ->
  let hub := isChainEqual (chains (to params)) "statemine"
             || isChainEqual (chains (to params)) "statemint" in
  (forall destFee,
     hub = true ->
     getCrossChainFee (Interlay.base this) (token params) (to params) = inr destFee ->
     exists dst,
       Interlay.createTx chains isChainEqual this params
       = inr (Interlay.xTokens_transferMulticurrencies
                [ (Own tokenId, FN.toChainData (amount params));
                  (Own (Interlay.Token (feeToken destFee)),
                   FN.toChainData (balance destFee)) ]
                1 (V1 dst)
                (getDestWeight (Interlay.base this) (token params) (to params)))) /\
  (hub = false ->
   exists dst,
     Interlay.createTx chains isChainEqual this params
     = inr (Interlay.xTokens_transfer (Own tokenId) (FN.toChainData (amount params))
              (V1 dst)
              (getDestWeight (Interlay.base this) (token params) (to params)))).
Proof.
  intros Ha Htoken hub. subst hub. apply getProperty_Own_iff in Htoken.
  unfold Interlay.createTx. rewrite Ha. cbv zeta.
  rewrite Htoken. split.
  - intros destFee -> ->. eexists. reflexivity.
  - intros ->. eexists. reflexivity.
Qed.

Lemma Interlay_createTx_asset_hub_witness :
  exists dst,
    Interlay.createTx Samples.chains Samples.isChainEqual Samples.kintsugi
      (Samples.transferParams "statemine" "USDT")
    = inr (Interlay.xTokens_transferMulticurrencies
             [ (Own (Interlay.ForeignAsset 3), 10000000000%Z);
               (Own (Interlay.Token "USDT"), 10%Z) ]
             1 (V1 dst) (Some "5000000000")).
Proof.
  destruct (Interlay_createTx_asset_hub Samples.chains Samples.isChainEqual
              Samples.kintsugi (Samples.transferParams "statemine" "USDT")
              Samples.kintsugiApi (Interlay.ForeignAsset 3) eq_refl eq_refl)
    as (Hhub & _).
  exact (Hhub {| feeToken := "USDT"; balance := FN.fromInner 10 12 |} eq_refl eq_refl).
Defined.

(** X16. The Interlay balance normalizer throws [CurrencyNotFound] exactly
    for a token that the supported-token table of its chain neither has nor
    inherits from [Object.prototype], whatever the address, and it throws
    nothing else.  For every other token it reads the account storage for
    what the table gave, an inherited member too, and emits one balance
    record per tick, in order, a record without a [free] field counting as
    zero; when the token has no metadata it emits nothing. *)
Theorem Interlay_subscribeBalance_per_tick
    (this : Interlay.InterlayBalanceAdapter) (token address : string) :
  (forall e,
     Interlay.subscribeBalance this token address = inl e <->
     Interlay.getSupportedTokens (Interlay.ba_chain this) !! token = None /\
     ~ In token Object_prototype /\
     e = CurrencyNotFound token) /\
  (forall tokenMeta,
     Interlay.getToken this token = Some tokenMeta ->
     let records := fun currencyId =>
       map (fun tick =>
              let amount :=
                FN.fromInner
                  (match Interlay.account_free tick with Some f => f | None => 0%Z end)
                  (decimals tokenMeta) in
              {| free := amount; locked := FN.ofNumber 0;
                 reserved := FN.ofNumber 0; available := amount |})
           (Interlay.query_tokens_accounts (Interlay.ba_api this) address currencyId) in
     (forall tokenId,
        Interlay.getSupportedTokens (Interlay.ba_chain this) !! token = Some tokenId ->
        Interlay.subscribeBalance this token address = inr (records (Own tokenId))) /\
     (Interlay.getSupportedTokens (Interlay.ba_chain this) !! token = None ->
      In token Object_prototype ->
      Interlay.subscribeBalance this token address = inr (records (Inherited token)))) /\
  (is_Some (Interlay.getSupportedTokens (Interlay.ba_chain this) !! token)
   \/ In token Object_prototype ->
   Interlay.getToken this token = None ->
   Interlay.subscribeBalance this token address = inr []).
Proof.
  split; [|split].
  - intros e. unfold Interlay.subscribeBalance.
    destruct (getProperty (Interlay.getSupportedTokens (Interlay.ba_chain this)) token)
      as [tokenId|inherited|] eqn:Hid.
    + apply getProperty_Own_iff in Hid. split; [discriminate|].
      intros (Hnone & _). congruence.
    + apply getProperty_Inherited_iff in Hid. destruct Hid as (_ & Hin & _).
      split; [discriminate|]. intros (_ & Hnot & _). contradiction.
    + apply getProperty_Undefined_iff in Hid. destruct Hid as (Hnone & Hnot). split.
      * intros [= <-]. auto.
      * intros (_ & _ & ->). reflexivity.
  - intros tokenMeta Hmeta records. subst records. split.
    + intros tokenId Hown. apply getProperty_Own_iff in Hown.
      rewrite Interlay_subscribeBalance_defined by (rewrite Hown; discriminate).
      rewrite Hown. f_equal.
      apply mapObservable_total. intros tick. rewrite Hmeta. reflexivity.
    + intros Hnone Hin.
      assert (Hget : getProperty (Interlay.getSupportedTokens (Interlay.ba_chain this))
                       token = Inherited token)
        by now apply getProperty_Inherited_iff.
      rewrite Interlay_subscribeBalance_defined by (rewrite Hget; discriminate).
      rewrite Hget. f_equal.
      apply mapObservable_total. intros tick. rewrite Hmeta. reflexivity.
  - intros Hid Hmeta.
    rewrite Interlay_subscribeBalance_defined.
    + f_equal. apply mapObservable_none. intros tick. rewrite Hmeta. reflexivity.
    + intros Hundef. apply getProperty_Undefined_iff in Hundef.
      destruct Hundef as (Hnone & Hnot).
      destruct Hid as [[t Ht] | Hin]; [congruence | contradiction].
Qed.

Lemma Interlay_subscribeBalance_per_tick_witness :
  Interlay.subscribeBalance Samples.kintsugiBalanceAdapter "KSM" Samples.alice
  = inr [ {| free := FN.fromInner 5000 12; locked := FN.ofNumber 0;
             reserved := FN.ofNumber 0; available := FN.fromInner 5000 12 |};
          {| free := FN.fromInner 0 12; locked := FN.ofNumber 0;
             reserved := FN.ofNumber 0; available := FN.fromInner 0 12 |} ].
Proof.
  destruct (Interlay_subscribeBalance_per_tick Samples.kintsugiBalanceAdapter "KSM"
              Samples.alice) as (_ & Hticks & _).
  destruct (Hticks {| name := "KSM"; symbol := "KSM"; decimals := 12; ed := 0 |}
              eq_refl) as (Hown & _).
  exact (Hown (Interlay.Token "KSM") eq_refl).
Defined.

(** The routes of the Interlay and Kintsugi adapters name supported tokens. *)
Lemma Interlay_routes_supported (chainname : string) (route : CrossChainRouterConfigs) :
  In route (Interlay.routersConfigOf chainname) ->
  is_Some (Interlay.getSupportedTokens chainname !! route_token route).
Proof.
  unfold Interlay.routersConfigOf, Interlay.getSupportedTokens.
  destruct (String.eqb chainname "interlay"); simpl;
    intros [<- | [<- | []]]; vm_compute; eauto.
Qed.

(** X17. Every route of the routers tables of the Interlay and Kintsugi
    adapters is for a token of the chain's supported-token table: once the
    chain handle is set, [createTx] builds an extrinsic for a configured
    route whose destination is no asset hub, and for an asset hub it fails
    only with the error of [getCrossChainFee]. *)
Theorem Interlay_createTx_configured_routes
    (chains : ChainName -> Chain) (isChainEqual : Chain -> ChainName -> bool)
    (this : Interlay.Adapter) (a : Interlay.Api) (route : CrossChainRouterConfigs)
    (amount : FN.t) (address signer : string) :
  Interlay.api this = Some a ->
  In route (Interlay.routersConfigOf (id (chain (Interlay.base this)))) ->
  let params := {| to := route_to route; token := route_token route; amount := amount;
                   address := address; signer := signer |} in
  let hub := isChainEqual (chains (route_to route)) "statemine"
             || isChainEqual (chains (route_to route)) "statemint" in
  (hub = false -> exists tx, Interlay.createTx chains isChainEqual this params = inr tx) /\
  (forall e,
     Interlay.createTx chains isChainEqual this params = inl e ->
     hub = true /\
     getCrossChainFee (Interlay.base this) (route_token route) (route_to route) = inl e).
Proof.
  intros Ha Hroute params hub. subst params hub.
  destruct (Interlay_routes_supported _ _ Hroute) as [tokenId Htoken].
  apply getProperty_Own_iff in Htoken.
  unfold Interlay.createTx. rewrite Ha. simpl. rewrite Htoken.
  destruct (isChainEqual (chains (route_to route)) "statemine"
            || isChainEqual (chains (route_to route)) "statemint").
  - split; [discriminate|]. intros e.
    destruct (getCrossChainFee _ _ _) as [e'|destFee]; [|discriminate].
    intros [= <-]. auto.
  - split; [eauto|]. discriminate.
Qed.

Lemma Interlay_createTx_configured_routes_witness :
  exists tx,
    Interlay.createTx Samples.chains Samples.isChainEqual Samples.kintsugi
      {| to := "kusama"; token := "KSM"; amount := FN.fromInner 10000000000 12;
         address := Samples.alice; signer := Samples.alice |} = inr tx.
Proof.
  destruct (Interlay_createTx_configured_routes Samples.chains Samples.isChainEqual
              Samples.kintsugi Samples.kintsugiApi
              {| route_to := "kusama"; route_token := "KSM";
                 xcm_fee_token := "KSM"; xcm_fee_amount := 10;
                 xcm_weightLimit := Interlay.DEST_WEIGHT |}
              (FN.fromInner 10000000000 12) Samples.alice Samples.alice
              eq_refl (or_introl eq_refl)) as (Hbuilt & _).
  exact (Hbuilt eq_refl).
Defined.

End InterlayFacts.

(* ===================================================================== *)
(** * Further properties of the Astar adapter *)
(* ===================================================================== *)

Section AstarFacts.

(** The two token tables of the Astar adapter have the same symbols. *)
Lemma Astar_tables_same_symbols (token : string) :
  Astar.SUPPORTED_TOKENS !! token = None <-> Astar.tokenIds !! token = None.
Proof.
  unfold Astar.SUPPORTED_TOKENS, Astar.tokenIds. cbn [list_to_map foldr fst snd uncurry].
  destruct (decide (token = "IBTC")) as [-> | H1]; [split; discriminate|].
  destruct (decide (token = "INTR")) as [-> | H2]; [split; discriminate|].
  rewrite !lookup_insert_ne by congruence. rewrite !lookup_empty. tauto.
Qed.

(** No token of the Astar tables is named like a member of
    [Object.prototype]. *)
Lemma Astar_tables_no_inherited_name (token : string) :
  In token Object_prototype ->
  Astar.SUPPORTED_TOKENS !! token = None /\ Astar.tokenIds !! token = None.
Proof.
  intros Hin. unfold Object_prototype in Hin. simpl in Hin.
  repeat (destruct Hin as [<- | Hin]; [split; reflexivity|]). destruct Hin.
Qed.

(** X18. The Astar adapter never looks the native token up in its token
    tables: the balance normalizer emits one record per tick of the
    account's balances, scaled to the chain's decimals, and [createTx]
    builds [reserveTransferAssets] of the asset [Here], whether or not the
    tables know the symbol. *)
Theorem Astar_native_token
    (chains : ChainName -> Chain) (XCM_V3_GENERAL_KEY_DATA_BYTES : nat)
    (this : Astar.Adapter) (a : Astar.Api) (ba : Astar.AstarBalanceAdapter)
    (params : CrossChainTransferParams) :
  Astar.api this = Some a ->
  Astar.balanceAdapter this = Some ba ->
  String.eqb (token params) (Astar.nativeToken ba) = true ->
  Astar.subscribeTokenBalance this (token params) (address params)
  = inr (map (fun data =>
                {| free := FN.fromInner (Astar.freeBalance data) (Astar.ba_decimals ba);
                   locked := FN.fromInner (Astar.lockedBalance data) (Astar.ba_decimals ba);
                   reserved :=
                     FN.fromInner (Astar.reservedBalance data) (Astar.ba_decimals ba);
                   available :=
                     FN.fromInner (Astar.availableBalance data) (Astar.ba_decimals ba) |})
           (Astar.derive_balances_all (Astar.ba_api ba) (address params))) /\
  exists dst acc,
    Astar.createTx chains XCM_V3_GENERAL_KEY_DATA_BYTES this params
    = inr (Astar.polkadotXcm_reserveTransferAssets dst acc
             ((if Astar.supportsV0V1Multilocation a then V1 else V3)
                [ {| concrete := {| parents := 0; interior := Here |};
                     fungible := FN.toChainData (amount params) |} ])
             0).
Proof.
  intros Ha Hba Hnative. split.
  - unfold Astar.subscribeTokenBalance, Astar.subscribeBalance.
    rewrite Hba, Hnative. reflexivity.
  - unfold Astar.createTx. rewrite Ha, Hba, Hnative.
    destruct (Astar.supportsV0V1Multilocation a); eexists; eexists; reflexivity.
Qed.

Lemma Astar_native_token_witness :
  exists dst acc,
    Astar.createTx Samples.chains 32 Samples.astar (Samples.transferParams "interlay" "ASTR")
    = inr (Astar.polkadotXcm_reserveTransferAssets dst acc
             (V3 [ {| concrete := {| parents := 0; interior := Here |};
                      fungible := 10000000000 |} ])
             0).
Proof.
  destruct (Astar_native_token Samples.chains 32 Samples.astar Samples.astarApi
              Samples.astarBalanceAdapter (Samples.transferParams "interlay" "ASTR")
              eq_refl eq_refl eq_refl) as (_ & dst & acc & Htx).
  exists dst, acc. exact Htx.
Defined.

(** X19. The three arguments of an extrinsic the Astar adapter builds carry
    the same encoding version, V1 exactly when the chain supports it; the
    destination is the parachain alone, and the beneficiary is the account
    alone, with the network [Any] in V1 and without a network in V3; there
    is one asset, of the amount sent. *)
Theorem Astar_createTx_versions
    (chains : ChainName -> Chain) (XCM_V3_GENERAL_KEY_DATA_BYTES : nat)
    (this : Astar.Adapter) (params : CrossChainTransferParams) (tx : Astar.Extrinsic) :
  Astar.createTx chains XCM_V3_GENERAL_KEY_DATA_BYTES this params = inr tx ->
  exists a,
    Astar.api this = Some a /\
    isV1 (Astar.dst_of tx) = Astar.supportsV0V1Multilocation a /\
    isV1 (Astar.acc_of tx) = Astar.supportsV0V1Multilocation a /\
    isV1 (Astar.ass_of tx) = Astar.supportsV0V1Multilocation a /\
    unversioned (Astar.dst_of tx)
    = {| parents := 1; interior := X1 (Parachain (paraChainId (chains (to params)))) |} /\
    unversioned (Astar.acc_of tx)
    = {| parents := 0;
         interior := X1 (AccountId32 (Astar.accountId32Hex a (address params))
                           (if Astar.supportsV0V1Multilocation a then Some Any else None)) |} /\
    exists location,
      unversioned (Astar.ass_of tx)
      = [ {| concrete := location; fungible := FN.toChainData (amount params) |} ].
Proof.
  unfold Astar.createTx.
  destruct (Astar.api this) as [a|]; [|discriminate].
  intros H. exists a. split; [reflexivity|].
  destruct (Astar.supportsV0V1Multilocation a);
    destruct (match Astar.balanceAdapter this with
              | Some ba => String.eqb (token params) (Astar.nativeToken ba)
              | None => false
              end);
    try (destruct (getProperty Astar.tokenIds (token params));
         [|discriminate|discriminate]);
    injection H as <-; cbn; repeat split; eexists; reflexivity.
Qed.

Lemma Astar_createTx_versions_witness :
  exists tx,
    Astar.createTx Samples.chains 32 Samples.astar (Samples.transferParams "interlay" "IBTC")
    = inr tx /\
    isV1 (Astar.dst_of tx) = false /\ isV1 (Astar.acc_of tx) = false /\
    isV1 (Astar.ass_of tx) = false.
Proof.
  eexists. split; [reflexivity|].
  destruct (Astar_createTx_versions Samples.chains 32 Samples.astar
              (Samples.transferParams "interlay" "IBTC") _ eq_refl)
    as (a & Ha & Hdst & Hacc & Hass & _).
  injection Ha as <-. repeat split; assumption.
Defined.

(** X20. [createTx] of the Astar adapter fails in three ways only: with
    [ApiNotFound] before the chain handle is set; with [CurrencyNotFound]
    for a token that is not the native token and that the table of token
    ids neither has nor inherits from [Object.prototype]; and with a
    [TypeError] for a token, other than the native one, whose name the
    table inherits, the inherited member being no string. *)
Theorem Astar_createTx_fails_iff
    (chains : ChainName -> Chain) (XCM_V3_GENERAL_KEY_DATA_BYTES : nat)
    (this : Astar.Adapter) (params : CrossChainTransferParams) (e : Error) :
  Astar.createTx chains XCM_V3_GENERAL_KEY_DATA_BYTES this params = inl e <->
  (Astar.api this = None /\ e = ApiNotFound (id (chain (Astar.base this)))) \/
  ((exists a, Astar.api this = Some a) /\
   match Astar.balanceAdapter this with
   | Some ba => String.eqb (token params) (Astar.nativeToken ba)
   | None => false
   end = false /\
   Astar.tokenIds !! token params = None /\
   ((~ In (token params) Object_prototype /\ e = CurrencyNotFound (token params)) \/
    (In (token params) Object_prototype /\
     e = TypeError "tokenId.replace is not a function"))).
Proof.
  unfold Astar.createTx.
  destruct (Astar.api this) as [a|].
  - cbv zeta.
    destruct (match Astar.balanceAdapter this with
              | Some ba => String.eqb (token params) (Astar.nativeToken ba)
              | None => false
              end).
    + destruct (Astar.supportsV0V1Multilocation a); split; try discriminate;
        intros [[[=] _] | (_ & [=] & _)].
    + destruct (getProperty Astar.tokenIds (token params)) as [tokenId|inherited|] eqn:Hid.
      * apply getProperty_Own_iff in Hid.
        destruct (Astar.supportsV0V1Multilocation a); split; try discriminate;
          intros [[[=] _] | (_ & _ & Hnone & _)]; congruence.
      * apply getProperty_Inherited_iff in Hid. destruct Hid as (Hnone & Hin & _).
        destruct (Astar.supportsV0V1Multilocation a); split;
          try (intros [= <-]; right; eauto 10);
          intros [[[=] _] | (_ & _ & _ & [(Hnot & _) | (_ & ->)])];
          (contradiction || reflexivity).
      * apply getProperty_Undefined_iff in Hid. destruct Hid as (Hnone & Hnot).
        destruct (Astar.supportsV0V1Multilocation a); split;
          try (intros [= <-]; right; eauto 10);
          intros [[[=] _] | (_ & _ & _ & [(_ & ->) | (Hin & _)])];
          (contradiction || reflexivity).
  - split.
    + intros [= <-]. left. auto.
    + intros [[_ ->] | ((a & [=]) & _)]. reflexivity.
Qed.

(** X21. In the older (V1) encoding the general key is the raw token id,
    not padded: the extrinsic does not depend on the mandated length of the
    newer encoding. *)
Theorem Astar_createTx_V1_general_key
    (chains : ChainName -> Chain) (XCM_V3_GENERAL_KEY_DATA_BYTES : nat)
    (this : Astar.Adapter) (a : Astar.Api) (params : CrossChainTransferParams)
    (tokenId : string) :
  Astar.api this = Some a ->
  Astar.supportsV0V1Multilocation a = true ->
  match Astar.balanceAdapter this with
  | Some ba => String.eqb (token params) (Astar.nativeToken ba)
  | None => false
  end = false ->
  Astar.tokenIds !! token params = Some tokenId ->
  Astar.createTx chains XCM_V3_GENERAL_KEY_DATA_BYTES this params
  = inr (Astar.polkadotXcm_reserveWithdrawAssets
           (V1 {| parents := 1;
                  interior := X1 (Parachain (paraChainId (chains (to params)))) |})
           (V1 {| parents := 0;
                  interior := X1 (AccountId32 (Astar.accountId32Hex a (address params))
                                    (Some Any)) |})
           (V1 [ {| concrete :=
                      {| parents := 1;
                         interior := X2 (Parachain (paraChainId (chains (to params))))
                                        (GeneralKey tokenId) |};
                    fungible := FN.toChainData (amount params) |} ])
           0) /\
  forall otherLength,
    Astar.createTx chains otherLength this params
    = Astar.createTx chains XCM_V3_GENERAL_KEY_DATA_BYTES this params.
Proof.
  intros Ha Hv1 Hnative Htoken. apply getProperty_Own_iff in Htoken.
  unfold Astar.createTx.
  rewrite Ha. cbv zeta. rewrite Hv1, Hnative, Htoken. split; reflexivity.
Qed.

Lemma Astar_createTx_V1_general_key_witness :
  Astar.createTx Samples.chains 0 Samples.astarV1 (Samples.transferParams "interlay" "INTR")
  = Astar.createTx Samples.chains 32 Samples.astarV1
      (Samples.transferParams "interlay" "INTR").
Proof.
  destruct (Astar_createTx_V1_general_key Samples.chains 32 Samples.astarV1
              Samples.astarApiV1 (Samples.transferParams "interlay" "INTR") "0x0002"
              eq_refl eq_refl eq_refl eq_refl) as (_ & Hsame).
  exact (Hsame 0).
Defined.

(** X22. For a token other than the native one, the Astar adapter builds
    the transfer exactly for the tokens of its table of asset ids, the
    table of token ids having the same symbols, and whenever it builds the
    transfer it can read the balance.  The converse fails for the names the
    tables inherit from [Object.prototype] only: their balance is read,
    and [createTx] throws a [TypeError]. *)
Theorem Astar_transfer_implies_balance
    (chains : ChainName -> Chain) (XCM_V3_GENERAL_KEY_DATA_BYTES : nat)
    (this : Astar.Adapter) (a : Astar.Api) (ba : Astar.AstarBalanceAdapter)
    (params : CrossChainTransferParams) :
  Astar.api this = Some a ->
  Astar.balanceAdapter this = Some ba ->
  String.eqb (token params) (Astar.nativeToken ba) = false ->
  ((exists tx, Astar.createTx chains XCM_V3_GENERAL_KEY_DATA_BYTES this params = inr tx)
   <-> is_Some (Astar.SUPPORTED_TOKENS !! token params)) /\
  ((exists snapshots,
      Astar.subscribeTokenBalance this (token params) (address params) = inr snapshots)
   <-> is_Some (Astar.SUPPORTED_TOKENS !! token params)
       \/ In (token params) Object_prototype) /\
  ((exists tx, Astar.createTx chains XCM_V3_GENERAL_KEY_DATA_BYTES this params = inr tx)
   -> exists snapshots,
        Astar.subscribeTokenBalance this (token params) (address params)
        = inr snapshots) /\
  (In (token params) Object_prototype ->
   (exists snapshots,
      Astar.subscribeTokenBalance this (token params) (address params) = inr snapshots) /\
   Astar.createTx chains XCM_V3_GENERAL_KEY_DATA_BYTES this params
   = inl (TypeError "tokenId.replace is not a function")).
Proof.
  intros Ha Hba Hnative.
  assert (Htx : (exists tx, Astar.createTx chains XCM_V3_GENERAL_KEY_DATA_BYTES this params
                            = inr tx)
                <-> is_Some (Astar.SUPPORTED_TOKENS !! token params)).
  { unfold Astar.createTx. rewrite Ha, Hba, Hnative. cbv zeta.
    pose proof (Astar_tables_same_symbols (token params)) as Hsame.
    destruct (getProperty Astar.tokenIds (token params)) as [tokenId|inherited|] eqn:Hid.
    - apply getProperty_Own_iff in Hid.
      destruct (Astar.SUPPORTED_TOKENS !! token params) as [assetId|] eqn:Hasset.
      + destruct (Astar.supportsV0V1Multilocation a); split; eauto.
      + destruct Hsame as [Hsame _]. rewrite Hsame in Hid by reflexivity. discriminate.
    - apply getProperty_Inherited_iff in Hid. destruct Hid as (Hnone & _).
      apply Hsame in Hnone. rewrite Hnone.
      destruct (Astar.supportsV0V1Multilocation a); split;
        (intros [x [=]] || intros [x Hx]; discriminate).
    - apply getProperty_Undefined_iff in Hid. destruct Hid as (Hnone & _).
      apply Hsame in Hnone. rewrite Hnone.
      destruct (Astar.supportsV0V1Multilocation a); split;
        (intros [x [=]] || intros [x Hx]; discriminate). }
  assert (Hbal : (exists snapshots,
                    Astar.subscribeTokenBalance this (token params) (address params)
                    = inr snapshots)
                 <-> is_Some (Astar.SUPPORTED_TOKENS !! token params)
                     \/ In (token params) Object_prototype).
  { unfold Astar.subscribeTokenBalance, Astar.subscribeBalance.
    rewrite Hba, Hnative. cbv zeta.
    destruct (getProperty Astar.SUPPORTED_TOKENS (token params))
      as [assetId|inherited|] eqn:Hid.
    - apply getProperty_Own_iff in Hid. split; eauto.
    - apply getProperty_Inherited_iff in Hid. destruct Hid as (_ & Hin & _).
      split; eauto.
    - apply getProperty_Undefined_iff in Hid. destruct Hid as (Hnone & Hnot).
      split; [intros [x [=]]|]. intros [[x Hx] | Hin]; [congruence | contradiction]. }
  split; [exact Htx|]. split; [exact Hbal|]. split.
  - intros Hbuilt. apply Hbal. left. apply Htx. exact Hbuilt.
  - intros Hin. split; [apply Hbal; now right|].
    destruct (Astar_tables_no_inherited_name _ Hin) as (_ & Hnone).
    assert (Hid : getProperty Astar.tokenIds (token params) = Inherited (token params))
      by now apply getProperty_Inherited_iff.
    unfold Astar.createTx. rewrite Ha, Hba, Hnative. cbv zeta. rewrite Hid.
    destruct (Astar.supportsV0V1Multilocation a); reflexivity.
Qed.

Lemma Astar_transfer_implies_balance_witness :
  (exists snapshots,
     Astar.subscribeTokenBalance Samples.astar "IBTC" Samples.alice = inr snapshots) /\
  Astar.createTx Samples.chains 32 Samples.astar
    (Samples.transferParams "interlay" "constructor")
  = inl (TypeError "tokenId.replace is not a function").
Proof.
  split.
  - destruct (Astar_transfer_implies_balance Samples.chains 32 Samples.astar
                Samples.astarApi Samples.astarBalanceAdapter
                (Samples.transferParams "interlay" "IBTC") eq_refl eq_refl eq_refl)
      as (_ & _ & Himplies & _).
    apply Himplies. eexists. reflexivity.
  - destruct (Astar_transfer_implies_balance Samples.chains 32 Samples.astar
                Samples.astarApi Samples.astarBalanceAdapter
                (Samples.transferParams "interlay" "constructor")
                eq_refl eq_refl eq_refl)
      as (_ & _ & _ & Hinherited).
    apply Hinherited. simpl. tauto.
Defined.

(** X30. Every route of the routers table of the Astar adapter is for a
    token that has a token id: once the chain handle is set, [createTx]
    builds an extrinsic for every configured route, in either encoding. *)
Theorem Astar_createTx_configured_routes
    (chains : ChainName -> Chain) (XCM_V3_GENERAL_KEY_DATA_BYTES : nat)
    (this : Astar.Adapter) (a : Astar.Api) (route : CrossChainRouterConfigs)
    (amount : FN.t) (address signer : string) :
  Astar.api this = Some a ->
  In route Astar.astarRoutersConfig ->
  is_Some (Astar.SUPPORTED_TOKENS !! route_token route) /\
  is_Some (Astar.astarTokensConfig "astar" !! route_token route) /\
  exists tx,
    Astar.createTx chains XCM_V3_GENERAL_KEY_DATA_BYTES this
      {| to := route_to route; token := route_token route; amount := amount;
         address := address; signer := signer |} = inr tx.
Proof.
  intros Ha Hroute.
  assert (Hid : is_Some (Astar.tokenIds !! route_token route)).
  { destruct Hroute as [<- | [<- | []]]; vm_compute; eauto. }
  split; [|split].
  - destruct Hroute as [<- | [<- | []]]; vm_compute; eauto.
  - destruct Hroute as [<- | [<- | []]]; vm_compute; eauto.
  - destruct Hid as [tokenId Hid]. apply getProperty_Own_iff in Hid.
    unfold Astar.createTx. rewrite Ha. simpl.
    rewrite Hid.
    destruct (Astar.supportsV0V1Multilocation a);
      destruct (match Astar.balanceAdapter this with
                | Some ba => String.eqb (route_token route) (Astar.nativeToken ba)
                | None => false
                end); eauto.
Qed.

Lemma Astar_createTx_configured_routes_witness :
  exists tx,
    Astar.createTx Samples.chains 32 Samples.astar
      {| to := "interlay"; token := "IBTC"; amount := FN.fromInner 1 8;
         address := Samples.alice; signer := Samples.alice |} = inr tx.
Proof.
  destruct (Astar_createTx_configured_routes Samples.chains 32 Samples.astar
              Samples.astarApi
              {| route_to := "interlay"; route_token := "IBTC";
                 xcm_fee_token := "IBTC"; xcm_fee_amount := 710;
                 xcm_weightLimit := "Unlimited" |}
              (FN.fromInner 1 8) Samples.alice Samples.alice
              eq_refl (or_introl eq_refl)) as (_ & _ & Htx).
  exact Htx.
Defined.

End AstarFacts.

(* ===================================================================== *)
(** * Further properties of the Parallel adapter and of the max-sendable
      amount *)
(* ===================================================================== *)

Section PaddingFacts.

Lemma string_fill_length (n : nat) (padString rest : string) :
  padString <> "" -> String.length (string_fill n padString rest) = n.
Proof.
  intros Hpad. revert rest.
  induction n as [|n IH]; intros rest; [reflexivity|].
  destruct rest as [|c rest']; cbn [string_fill].
  - destruct padString as [|c rest']; [congruence|].
    cbn [String.length]. now rewrite IH.
  - cbn [String.length]. now rewrite IH.
Qed.

(** X23. The padded token id always starts with the raw id and is never
    cut: its length is the greater of the length of the raw id and the
    mandated length (two digits a byte, and the prefix), so a raw id longer
    than mandated is passed on as it is. *)
Theorem paddedTokenId_never_truncates
    (XCM_V3_GENERAL_KEY_DATA_BYTES : nat) (tokenId : string) :
  String.length (Astar.paddedTokenId XCM_V3_GENERAL_KEY_DATA_BYTES tokenId)
  = Nat.max (String.length tokenId) (2 * XCM_V3_GENERAL_KEY_DATA_BYTES + 2) /\
  (exists filling,
     Astar.paddedTokenId XCM_V3_GENERAL_KEY_DATA_BYTES tokenId = tokenId ++ filling) /\
  (2 * XCM_V3_GENERAL_KEY_DATA_BYTES + 2 <= String.length tokenId ->
   Astar.paddedTokenId XCM_V3_GENERAL_KEY_DATA_BYTES tokenId = tokenId).
Proof.
  unfold Astar.paddedTokenId, padEnd.
  destruct (Nat.leb (2 * XCM_V3_GENERAL_KEY_DATA_BYTES + 2) (String.length tokenId)) eqn:E.
  - apply Nat.leb_le in E. repeat split.
    + lia.
    + exists "". symmetry. apply string_append_empty.
  - apply Nat.leb_gt in E. repeat split.
    + rewrite string_length_append, string_fill_length by discriminate. lia.
    + eexists. reflexivity.
    + lia.
Qed.

End PaddingFacts.

Section ParallelFacts.

(** X24. Once the chain handle is set, [createTx] of the Parallel adapter
    builds an extrinsic exactly for a token of the table whose id is not 0
    and for a name the table inherits from [Object.prototype], the
    inherited member being truthy; the currency id is what the table gave,
    and the destination is on two levels, the parachain id and the account,
    for every destination chain, the relay chain too.  It fails with
    [ApiNotFound] before the chain handle is set and with
    [CurrencyNotFound] otherwise. *)
Theorem Parallel_createTx_shape
    (chains : ChainName -> Chain) (this : Parallel.Adapter)
    (params : CrossChainTransferParams) :
  (forall tx,
     Parallel.createTx chains this params = inr tx <->
     exists a tokenId,
       Parallel.api this = Some a /\
       ((exists n, Parallel.SUPPORTED_TOKENS !! token params = Some n /\
                   n <> 0%Z /\ tokenId = Own n) \/
        (Parallel.SUPPORTED_TOKENS !! token params = None /\
         In (token params) Object_prototype /\
         tokenId = Inherited (token params))) /\
       tx = Parallel.xTokens_transfer tokenId (FN.toChainData (amount params))
              (V1 {| parents := 1;
                     interior :=
                       X2 (Parachain (paraChainId (chains (to params))))
                          (AccountId32 (Parallel.accountId32Hex a (address params))
                             (Some Any)) |})
              (getDestWeight (Parallel.base this) (token params) (to params))) /\
  (forall e,
     Parallel.createTx chains this params = inl e <->
     (Parallel.api this = None /\ e = ApiNotFound (id (chain (Parallel.base this)))) \/
     ((exists a, Parallel.api this = Some a) /\
      (Parallel.SUPPORTED_TOKENS !! token params = Some 0%Z \/
       (Parallel.SUPPORTED_TOKENS !! token params = None /\
        ~ In (token params) Object_prototype)) /\
      e = CurrencyNotFound (token params))).
Proof.
  unfold Parallel.createTx.
  destruct (Parallel.api this) as [a|]; cbv zeta.
  - destruct (getProperty Parallel.SUPPORTED_TOKENS (token params))
      as [n|inherited|] eqn:Hid; cbn [Parallel.not_].
    + apply getProperty_Own_iff in Hid.
      destruct (Z.eqb_spec n 0) as [-> | Hnz]; split.
      * intros tx. split; [discriminate|].
        intros (a' & t & _ & [(m & Hm & Hmz & _) | (Hnone & _)] & _); congruence.
      * intros e. split.
        -- intros [= <-]. right. eauto.
        -- intros [[[=] _] | (_ & _ & ->)]. reflexivity.
      * intros tx. split.
        -- intros [= <-]. exists a, (Own n). split; [reflexivity|]. split; [|reflexivity].
           left. eauto.
        -- intros (a' & t & [= <-] & [(m & Hm & _ & ->) | (Hnone & _)] & ->);
             [|congruence].
           assert (m = n) by congruence. subst m. reflexivity.
      * intros e. split; [discriminate|].
        intros [[[=] _] | (_ & [Hzero | (Hnone & _)] & _)]; congruence.
    + apply getProperty_Inherited_iff in Hid. destruct Hid as (Hnone & Hin & ->).
      split.
      * intros tx. split.
        -- intros [= <-]. exists a, (Inherited (token params)).
           split; [reflexivity|]. split; [|reflexivity]. right. auto.
        -- intros (a' & t & [= <-] & [(m & Hm & _) | (_ & _ & ->)] & ->);
             [congruence | reflexivity].
      * intros e. split; [discriminate|].
        intros [[[=] _] | (_ & [Hzero | (_ & Hnot)] & _)]; [congruence | contradiction].
    + apply getProperty_Undefined_iff in Hid. destruct Hid as (Hnone & Hnot).
      split.
      * intros tx. split; [discriminate|].
        intros (a' & t & _ & [(m & Hm & _) | (_ & Hin & _)] & _);
          [congruence | contradiction].
      * intros e. split.
        -- intros [= <-]. right. eauto 10.
        -- intros [[[=] _] | (_ & _ & ->)]. reflexivity.
  - split.
    + intros tx. split; [discriminate|]. intros (a' & t & [=] & _).
    + intros e. split.
      * intros [= <-]. left. auto.
      * intros [[_ ->] | ((a' & [=]) & _)]. reflexivity.
Qed.

(** X25. On a chain whose native token is HKO, the Parallel adapter reads
    the balance of HKO, one record per tick, but quotes no maximal input
    for it: [createTx] refuses to build the transfer of HKO, whose id is 0,
    so the dry run of [subscribeMaxInput] throws [CurrencyNotFound] before
    the balance is subscribed to. *)
Theorem Parallel_native_HKO_no_max_input
    (chains : ChainName -> Chain) (this : Parallel.Adapter) (a : Parallel.Api)
    (ba : Parallel.ParallelBalanceAdapter) (schedule : list Source3)
    (to : ChainName) (amount : FN.t) (address signer : string) :
  Parallel.api this = Some a ->
  Parallel.balanceAdapter this = Some ba ->
  Parallel.nativeToken ba = "HKO" ->
  (exists snapshots,
     Parallel.subscribeTokenBalance this "HKO" address = inr snapshots /\
     length snapshots
     = length (Parallel.derive_balances_all (Parallel.ba_api ba) address)) /\
  Parallel.createTx chains this
    {| to := to; token := "HKO"; amount := amount; address := address; signer := signer |}
  = inl (CurrencyNotFound "HKO") /\
  Parallel.subscribeMaxInput chains this schedule "HKO" address to
  = inl (CurrencyNotFound "HKO").
Proof.
  intros Ha Hba Hnative. split; [|split].
  - unfold Parallel.subscribeTokenBalance, Parallel.subscribeBalance.
    rewrite Hba, Hnative. cbn. eexists. split; [reflexivity|]. apply length_map.
  - unfold Parallel.createTx. rewrite Ha. reflexivity.
  - unfold Parallel.subscribeMaxInput, Parallel.estimateTxFee, Parallel.createTx.
    rewrite Hba, Hnative, Ha. reflexivity.
Qed.

Lemma Parallel_native_HKO_no_max_input_witness :
  (exists snapshots,
     Parallel.subscribeTokenBalance Samples.heiko "HKO" Samples.alice = inr snapshots) /\
  Parallel.subscribeMaxInput Samples.chains Samples.heiko [SrcA; SrcB; SrcC] "HKO"
    Samples.alice "kintsugi"
  = inl (CurrencyNotFound "HKO").
Proof.
  destruct (Parallel_native_HKO_no_max_input Samples.chains Samples.heiko
              Samples.heikoApi Samples.heikoBalanceAdapter [SrcA; SrcB; SrcC]
              "kintsugi" (FN.fromInner 10000000000 10) Samples.alice Samples.alice
              eq_refl eq_refl eq_refl) as ((snapshots & Hbal & _) & _ & Hmax).
  split; [exists snapshots; exact Hbal | exact Hmax].
Defined.

(** X26. The balance normalizers of the Astar and of the Parallel adapter
    fail in one way only: with [CurrencyNotFound], for a token other than
    the native one that the supported-token table neither has nor inherits
    from [Object.prototype] (or that, in the Parallel adapter, has the id 0
    there).  For the native token, and for a name the table inherits, they
    do not fail. *)
Theorem subscribeBalance_fails_iff :
  (forall (this : Astar.AstarBalanceAdapter) (token address : string) (e : Error),
     Astar.subscribeBalance this token address = inl e <->
     String.eqb token (Astar.nativeToken this) = false /\
     Astar.SUPPORTED_TOKENS !! token = None /\
     ~ In token Object_prototype /\
     e = CurrencyNotFound token) /\
  (forall (this : Parallel.ParallelBalanceAdapter) (token address : string) (e : Error),
     Parallel.subscribeBalance this token address = inl e <->
     String.eqb token (Parallel.nativeToken this) = false /\
     (Parallel.SUPPORTED_TOKENS !! token = Some 0%Z \/
      (Parallel.SUPPORTED_TOKENS !! token = None /\ ~ In token Object_prototype)) /\
     e = CurrencyNotFound token).
Proof.
  split.
  - intros this token address e. unfold Astar.subscribeBalance.
    destruct (String.eqb token (Astar.nativeToken this)); cbv zeta.
    + split; [discriminate | intros ([=] & _)].
    + destruct (getProperty Astar.SUPPORTED_TOKENS token) as [assetId|inherited|] eqn:Hid.
      * apply getProperty_Own_iff in Hid. split; [discriminate|].
        intros (_ & Hnone & _). congruence.
      * apply getProperty_Inherited_iff in Hid. destruct Hid as (_ & Hin & _).
        split; [discriminate|]. intros (_ & _ & Hnot & _). contradiction.
      * apply getProperty_Undefined_iff in Hid. destruct Hid as (Hnone & Hnot). split.
        -- intros [= <-]. auto.
        -- intros (_ & _ & _ & ->). reflexivity.
  - intros this token address e. unfold Parallel.subscribeBalance.
    destruct (String.eqb token (Parallel.nativeToken this)); cbv zeta.
    + split; [discriminate | intros ([=] & _)].
    + destruct (getProperty Parallel.SUPPORTED_TOKENS token) as [n|inherited|] eqn:Hid;
        cbn [Parallel.not_].
      * apply getProperty_Own_iff in Hid.
        destruct (Z.eqb_spec n 0) as [-> | Hnz]; split.
        -- intros [= <-]. auto.
        -- intros (_ & _ & ->). reflexivity.
        -- discriminate.
        -- intros (_ & [Hzero | (Hnone & _)] & _); congruence.
      * apply getProperty_Inherited_iff in Hid. destruct Hid as (Hnone & Hin & _).
        split; [discriminate|].
        intros (_ & [Hzero | (_ & Hnot)] & _); [congruence | contradiction].
      * apply getProperty_Undefined_iff in Hid. destruct Hid as (Hnone & Hnot). split.
        -- intros [= <-]. auto.
        -- intros (_ & _ & ->). reflexivity.
Qed.

End ParallelFacts.

Section MaxInputFurther.

Local Open Scope Q_scope.

(** The dry run fails exactly when the message cannot be built. *)
Lemma Interlay_estimateTxFee_fails
    (chains : ChainName -> Chain) (isChainEqual : Chain -> ChainName -> bool)
    (this : Interlay.Adapter) (params : CrossChainTransferParams) :
  match Interlay.createTx chains isChainEqual this params with
  | inl e => Interlay.estimateTxFee chains isChainEqual this params = inl e
  | inr _ => exists fees, Interlay.estimateTxFee chains isChainEqual this params = inr fees
  end.
Proof.
  unfold Interlay.estimateTxFee.
  destruct (Interlay.createTx chains isChainEqual this params) as [e|tx] eqn:Htx;
    [reflexivity|].
  unfold Interlay.createTx in Htx.
  destruct (Interlay.api this); [eauto | discriminate].
Qed.

Lemma Astar_estimateTxFee_fails
    (chains : ChainName -> Chain) (XCM_V3_GENERAL_KEY_DATA_BYTES : nat)
    (this : Astar.Adapter) (params : CrossChainTransferParams) :
  match Astar.createTx chains XCM_V3_GENERAL_KEY_DATA_BYTES this params with
  | inl e => Astar.estimateTxFee chains XCM_V3_GENERAL_KEY_DATA_BYTES this params = inl e
  | inr _ =>
      exists fees,
        Astar.estimateTxFee chains XCM_V3_GENERAL_KEY_DATA_BYTES this params = inr fees
  end.
Proof.
  unfold Astar.estimateTxFee.
  destruct (Astar.createTx chains XCM_V3_GENERAL_KEY_DATA_BYTES this params)
    as [e|tx] eqn:Htx; [reflexivity|].
  unfold Astar.createTx in Htx.
  destruct (Astar.api this); [eauto | discriminate].
Qed.

Lemma Parallel_estimateTxFee_fails
    (chains : ChainName -> Chain)
    (this : Parallel.Adapter) (params : CrossChainTransferParams) :
  match Parallel.createTx chains this params with
  | inl e => Parallel.estimateTxFee chains this params = inl e
  | inr _ => exists fees, Parallel.estimateTxFee chains this params = inr fees
  end.
Proof.
  unfold Parallel.estimateTxFee.
  destruct (Parallel.createTx chains this params) as [e|tx] eqn:Htx; [reflexivity|].
  unfold Parallel.createTx in Htx.
  destruct (Parallel.api this); [eauto | discriminate].
Qed.

(** X27. [subscribeMaxInput] fails in two ways only.  For the native token
    it fails when the message of the dry run cannot be built, with the
    error of [createTx], before the balance is subscribed to.  Otherwise it
    fails exactly when [subscribeTokenBalance] fails for the token and the
    address, and with the same error; in the Interlay, the Astar and the
    Parallel adapter. *)
Theorem subscribeMaxInput_fails_iff :
  (forall (chains : ChainName -> Chain) (isChainEqual : Chain -> ChainName -> bool)
          (this : Interlay.Adapter) (schedule : list bool) (token address : string)
          (to : ChainName) (e : Error),
     let dryRunFails := fun e' =>
       exists ba,
         Interlay.balanceAdapter this = Some ba /\
         String.eqb token (Interlay.nativeToken ba) = true /\
         Interlay.createTx chains isChainEqual this
           {| amount := FN.ZERO; to := to; token := token;
              address := address; signer := address |} = inl e' in
     Interlay.subscribeMaxInput chains isChainEqual this schedule token address to
     = inl e <->
     dryRunFails e \/
     (~ (exists e', dryRunFails e') /\
      Interlay.subscribeTokenBalance this token address = inl e)) /\
  (forall (chains : ChainName -> Chain) (XCM_V3_GENERAL_KEY_DATA_BYTES : nat)
          (this : Astar.Adapter) (schedule : list bool) (token address : string)
          (to : ChainName) (e : Error),
     let dryRunFails := fun e' =>
       exists ba,
         Astar.balanceAdapter this = Some ba /\
         String.eqb token (Astar.nativeToken ba) = true /\
         Astar.createTx chains XCM_V3_GENERAL_KEY_DATA_BYTES this
           {| amount := FN.ZERO; to := to; token := token;
              address := address; signer := address |} = inl e' in
     Astar.subscribeMaxInput chains XCM_V3_GENERAL_KEY_DATA_BYTES this schedule token
       address to
     = inl e <->
     dryRunFails e \/
     (~ (exists e', dryRunFails e') /\
      Astar.subscribeTokenBalance this token address = inl e)) /\
  (forall (chains : ChainName -> Chain)
          (this : Parallel.Adapter) (schedule : list Source3) (token address : string)
          (to : ChainName) (e : Error),
     let dryRunFails := fun e' =>
       exists ba,
         Parallel.balanceAdapter this = Some ba /\
         String.eqb token (Parallel.nativeToken ba) = true /\
         Parallel.createTx chains this
           {| amount := FN.ZERO; to := to; token := token;
              address := address; signer := address |} = inl e' in
     Parallel.subscribeMaxInput chains this schedule token address to = inl e <->
     dryRunFails e \/
     (~ (exists e', dryRunFails e') /\
      Parallel.subscribeTokenBalance this token address = inl e)).
Proof.
  split; [|split].
  - intros chains isChainEqual this schedule token address to e dryRunFails.
    subst dryRunFails. cbv beta.
    unfold Interlay.subscribeMaxInput, Interlay.subscribeTokenBalance.
    destruct (Interlay.balanceAdapter this) as [ba|].
    + destruct (String.eqb token (Interlay.nativeToken ba)) eqn:Hnative.
      * pose proof (Interlay_estimateTxFee_fails chains isChainEqual this
                      {| amount := FN.ZERO; to := to; token := token;
                         address := address; signer := address |}) as Hdry.
        destruct (Interlay.createTx chains isChainEqual this _) as [e1|tx] eqn:Htx.
        -- rewrite Hdry. split.
           ++ intros [= <-]. left. exists ba. auto.
           ++ intros [(ba' & [= <-] & _ & [= <-]) | (Hno & _)]; [reflexivity|].
              exfalso. apply Hno. exists e1, ba. auto.
        -- destruct Hdry as [fees ->].
           destruct (Interlay.subscribeBalance ba token address) as [e2|balances]; split.
           ++ intros [= <-]. right. split; [|reflexivity].
              intros (e' & ba' & [= <-] & _ & [=]).
           ++ intros [(ba' & [= <-] & _ & [=]) | (_ & [= <-])]. reflexivity.
           ++ discriminate.
           ++ intros [(ba' & [= <-] & _ & [=]) | (_ & [=])].
      * destruct (Interlay.subscribeBalance ba token address) as [e2|balances]; split.
        -- intros [= <-]. right. split; [|reflexivity].
           intros (e' & ba' & [= <-] & Hn & _). congruence.
        -- intros [(ba' & [= <-] & Hn & _) | (_ & [= <-])]; [congruence | reflexivity].
        -- discriminate.
        -- intros [(ba' & [= <-] & Hn & _) | (_ & [=])]. congruence.
    + split.
      * intros [= <-]. right. split; [|reflexivity]. intros (e' & ba' & [=] & _).
      * intros [(ba' & [=] & _) | (_ & [= <-])]. reflexivity.
  - intros chains bytes this schedule token address to e dryRunFails.
    subst dryRunFails. cbv beta.
    unfold Astar.subscribeMaxInput, Astar.subscribeTokenBalance.
    destruct (Astar.balanceAdapter this) as [ba|].
    + destruct (String.eqb token (Astar.nativeToken ba)) eqn:Hnative.
      * pose proof (Astar_estimateTxFee_fails chains bytes this
                      {| amount := FN.ZERO; to := to; token := token;
                         address := address; signer := address |}) as Hdry.
        destruct (Astar.createTx chains bytes this _) as [e1|tx] eqn:Htx.
        -- rewrite Hdry. split.
           ++ intros [= <-]. left. exists ba. auto.
           ++ intros [(ba' & [= <-] & _ & [= <-]) | (Hno & _)]; [reflexivity|].
              exfalso. apply Hno. exists e1, ba. auto.
        -- destruct Hdry as [fees ->].
           destruct (Astar.subscribeBalance ba token address) as [e2|balances]; split.
           ++ intros [= <-]. right. split; [|reflexivity].
              intros (e' & ba' & [= <-] & _ & [=]).
           ++ intros [(ba' & [= <-] & _ & [=]) | (_ & [= <-])]. reflexivity.
           ++ discriminate.
           ++ intros [(ba' & [= <-] & _ & [=]) | (_ & [=])].
      * destruct (Astar.subscribeBalance ba token address) as [e2|balances]; split.
        -- intros [= <-]. right. split; [|reflexivity].
           intros (e' & ba' & [= <-] & Hn & _). congruence.
        -- intros [(ba' & [= <-] & Hn & _) | (_ & [= <-])]; [congruence | reflexivity].
        -- discriminate.
        -- intros [(ba' & [= <-] & Hn & _) | (_ & [=])]. congruence.
    + split.
      * intros [= <-]. right. split; [|reflexivity]. intros (e' & ba' & [=] & _).
      * intros [(ba' & [=] & _) | (_ & [= <-])]. reflexivity.
  - intros chains this schedule token address to e dryRunFails.
    subst dryRunFails. cbv beta.
    unfold Parallel.subscribeMaxInput, Parallel.subscribeTokenBalance.
    destruct (Parallel.balanceAdapter this) as [ba|].
    + destruct (String.eqb token (Parallel.nativeToken ba)) eqn:Hnative.
      * pose proof (Parallel_estimateTxFee_fails chains this
                      {| amount := FN.ZERO; to := to; token := token;
                         address := address; signer := address |}) as Hdry.
        destruct (Parallel.createTx chains this _) as [e1|tx] eqn:Htx.
        -- rewrite Hdry. split.
           ++ intros [= <-]. left. exists ba. auto.
           ++ intros [(ba' & [= <-] & _ & [= <-]) | (Hno & _)]; [reflexivity|].
              exfalso. apply Hno. exists e1, ba. auto.
        -- destruct Hdry as [fees ->].
           destruct (Parallel.subscribeBalance ba token address) as [e2|balances]; split.
           ++ intros [= <-]. right. split; [|reflexivity].
              intros (e' & ba' & [= <-] & _ & [=]).
           ++ intros [(ba' & [= <-] & _ & [=]) | (_ & [= <-])]. reflexivity.
           ++ discriminate.
           ++ intros [(ba' & [= <-] & _ & [=]) | (_ & [=])].
      * destruct (Parallel.subscribeBalance ba token address) as [e2|balances]; split.
        -- intros [= <-]. right. split; [|reflexivity].
           intros (e' & ba' & [= <-] & Hn & _). congruence.
        -- intros [(ba' & [= <-] & Hn & _) | (_ & [= <-])]; [congruence | reflexivity].
        -- discriminate.
        -- intros [(ba' & [= <-] & Hn & _) | (_ & [=])]. congruence.
    + split.
      * intros [= <-]. right. split; [|reflexivity]. intros (e' & ba' & [=] & _).
      * intros [(ba' & [=] & _) | (_ & [= <-])]. reflexivity.
Qed.

(** X28. For a token other than the native one, [subscribeMaxInput] asks
    for no fee estimate and does not look at the destination: two adapters
    with the same balance adapter emit the same amounts, whatever their
    chain handles and chains tables, the fees their dry runs would report
    and the destinations are. *)
Theorem subscribeMaxInput_non_native_ignores_fee :
  (forall (chains1 chains2 : ChainName -> Chain)
          (isChainEqual1 isChainEqual2 : Chain -> ChainName -> bool)
          (this1 this2 : Interlay.Adapter) (ba : Interlay.InterlayBalanceAdapter)
          (schedule : list bool) (token address : string) (to1 to2 : ChainName),
     Interlay.balanceAdapter this1 = Some ba ->
     Interlay.balanceAdapter this2 = Some ba ->
     String.eqb token (Interlay.nativeToken ba) = false ->
     Interlay.subscribeMaxInput chains1 isChainEqual1 this1 schedule token address to1
     = Interlay.subscribeMaxInput chains2 isChainEqual2 this2 schedule token address to2) /\
  (forall (chains1 chains2 : ChainName -> Chain) (bytes1 bytes2 : nat)
          (this1 this2 : Astar.Adapter) (ba : Astar.AstarBalanceAdapter)
          (schedule : list bool) (token address : string) (to1 to2 : ChainName),
     Astar.balanceAdapter this1 = Some ba ->
     Astar.balanceAdapter this2 = Some ba ->
     String.eqb token (Astar.nativeToken ba) = false ->
     Astar.subscribeMaxInput chains1 bytes1 this1 schedule token address to1
     = Astar.subscribeMaxInput chains2 bytes2 this2 schedule token address to2) /\
  (forall (chains1 chains2 : ChainName -> Chain)
          (this1 this2 : Parallel.Adapter) (ba : Parallel.ParallelBalanceAdapter)
          (schedule : list Source3) (token address : string) (to1 to2 : ChainName),
     Parallel.balanceAdapter this1 = Some ba ->
     Parallel.balanceAdapter this2 = Some ba ->
     String.eqb token (Parallel.nativeToken ba) = false ->
     Parallel.subscribeMaxInput chains1 this1 schedule token address to1
     = Parallel.subscribeMaxInput chains2 this2 schedule token address to2).
Proof.
  split; [|split].
  - intros chains1 chains2 eq1 eq2 this1 this2 ba schedule token address to1 to2
           H1 H2 Hnative.
    unfold Interlay.subscribeMaxInput. rewrite H1, H2, Hnative. reflexivity.
  - intros chains1 chains2 bytes1 bytes2 this1 this2 ba schedule token address to1 to2
           H1 H2 Hnative.
    unfold Astar.subscribeMaxInput. rewrite H1, H2, Hnative. reflexivity.
  - intros chains1 chains2 this1 this2 ba schedule token address to1 to2 H1 H2 Hnative.
    unfold Parallel.subscribeMaxInput. rewrite H1, H2, Hnative. reflexivity.
Qed.

Lemma inject_Z_div_pow10_nonneg (n : Z) (p : nat) : (0 <= n)%Z -> 0 <= inject_Z n / pow10 p.
Proof.
  intros Hn. unfold Qdiv. apply Qmult_le_0_compat.
  - change 0 with (inject_Z 0). rewrite <- Zle_Qle. exact Hn.
  - apply Qinv_le_0_compat. apply Qlt_le_weak. apply pow10_pos.
Qed.

(** X29. When the estimated fees and the existential deposit are not
    negative, [subscribeMaxInput] emits one amount for each emission of
    [combineLatest], in order, and the amount of an emission does not
    exceed the available balance of that emission; in the Interlay, the
    Astar and the Parallel adapter. *)
Theorem subscribeMaxInput_at_most_available :
  (forall (chains : ChainName -> Chain) (isChainEqual : Chain -> ChainName -> bool)
          (this : Interlay.Adapter) (ba : Interlay.InterlayBalanceAdapter)
          (schedule : list bool) (token address : string) (to : ChainName)
          (fees : list Z) (balances : list BalanceData),
     Interlay.balanceAdapter this = Some ba ->
     spec_estimatedTxFees (String.eqb token (Interlay.nativeToken ba))
       (Interlay.api this)
       (Interlay.createTx chains isChainEqual this
          {| amount := FN.ZERO; to := to; token := token;
             address := address; signer := address |})
       (fun a tx => Interlay.paymentInfo a tx address) fees ->
     Interlay.subscribeBalance ba token address = inr balances ->
     (forall txFee, In txFee fees -> (0 <= txFee)%Z) ->
     (forall tokenMeta, Interlay.getToken ba token = Some tokenMeta ->
                        (0 <= ed tokenMeta)%Z) ->
     exists amounts,
       Interlay.subscribeMaxInput chains isChainEqual this schedule token address to
       = inr amounts /\
       Forall2 (fun a '(txFee, availableBalance) =>
                  FN.value a <= FN.value availableBalance)
         amounts
         (combineLatest2 schedule None None fees (map available balances))) /\
  (forall (chains : ChainName -> Chain) (XCM_V3_GENERAL_KEY_DATA_BYTES : nat)
          (this : Astar.Adapter) (ba : Astar.AstarBalanceAdapter)
          (schedule : list bool) (token address : string) (to : ChainName)
          (fees : list Z) (balances : list BalanceData),
     Astar.balanceAdapter this = Some ba ->
     spec_estimatedTxFees (String.eqb token (Astar.nativeToken ba))
       (Astar.api this)
       (Astar.createTx chains XCM_V3_GENERAL_KEY_DATA_BYTES this
          {| amount := FN.ZERO; to := to; token := token;
             address := address; signer := address |})
       (fun a tx => Astar.paymentInfo a tx address) fees ->
     Astar.subscribeBalance ba token address = inr balances ->
     (forall txFee, In txFee fees -> (0 <= txFee)%Z) ->
     (forall tokenMeta, Astar.getToken ba token = Some tokenMeta ->
                        (0 <= ed tokenMeta)%Z) ->
     exists amounts,
       Astar.subscribeMaxInput chains XCM_V3_GENERAL_KEY_DATA_BYTES this schedule
         token address to
       = inr amounts /\
       Forall2 (fun a '(txFee, availableBalance) =>
                  FN.value a <= FN.value availableBalance)
         amounts
         (combineLatest2 schedule None None fees (map available balances))) /\
  (forall (chains : ChainName -> Chain)
          (this : Parallel.Adapter) (ba : Parallel.ParallelBalanceAdapter)
          (schedule : list Source3) (token address : string) (to : ChainName)
          (fees : list Z) (balances : list BalanceData),
     Parallel.balanceAdapter this = Some ba ->
     spec_estimatedTxFees (String.eqb token (Parallel.nativeToken ba))
       (Parallel.api this)
       (Parallel.createTx chains this
          {| amount := FN.ZERO; to := to; token := token;
             address := address; signer := address |})
       (fun a tx => Parallel.paymentInfo a tx address) fees ->
     Parallel.subscribeBalance ba token address = inr balances ->
     (forall txFee, In txFee fees -> (0 <= txFee)%Z) ->
     (forall e, In (Some e) (Parallel.getTokenED ba token) -> 0 <= FN.value e) ->
     exists amounts,
       Parallel.subscribeMaxInput chains this schedule token address to = inr amounts /\
       Forall2 (fun a '(txFee, availableBalance, ed) =>
                  FN.value a <= FN.value availableBalance)
         amounts
         (combineLatest3 schedule None None None
            fees (map available balances) (Parallel.getTokenED ba token))).
Proof.
  split; [|split].
  - intros chains isChainEqual this ba schedule token address to fees balances
           Hba Hfees Hbal Hnonneg Hed.
    rewrite (Interlay_subscribeMaxInput_eq _ _ _ _ _ _ _ _ _ _ Hba Hfees Hbal).
    eexists. split; [reflexivity|].
    apply Forall2_map_In. intros [txFee availableBalance] Hin.
    apply combineLatest2_In in Hin. destruct Hin as [[Hfee | [=]] _].
    apply Hnonneg in Hfee.
    destruct (Interlay.getToken ba token) as [tokenMeta|] eqn:Hmeta.
    + rewrite (Interlay_maxInputOf_value _ _ _ _ _ Hmeta). unfold spec_maxSendable.
      pose proof (inject_Z_div_pow10_nonneg txFee (decimals tokenMeta) Hfee).
      pose proof (inject_Z_div_pow10_nonneg (ed tokenMeta) (decimals tokenMeta)
                    (Hed _ eq_refl)).
      lra.
    + unfold Interlay.maxInputOf. rewrite Hmeta.
      rewrite !value_minus, value_mul, value_ofNumber, !value_fromInner.
      pose proof (inject_Z_div_pow10_nonneg txFee FN.defaultPrecision Hfee).
      pose proof (inject_Z_div_pow10_nonneg 0 FN.defaultPrecision ltac:(lia)).
      lra.
  - intros chains bytes this ba schedule token address to fees balances
           Hba Hfees Hbal Hnonneg Hed.
    rewrite (Astar_subscribeMaxInput_eq _ _ _ _ _ _ _ _ _ _ Hba Hfees Hbal).
    eexists. split; [reflexivity|].
    apply Forall2_map_In. intros [txFee availableBalance] Hin.
    apply combineLatest2_In in Hin. destruct Hin as [[Hfee | [=]] _].
    apply Hnonneg in Hfee.
    destruct (Astar.getToken ba token) as [tokenMeta|] eqn:Hmeta.
    + rewrite (Astar_maxInputOf_value _ _ _ _ _ Hmeta). unfold spec_maxSendable.
      pose proof (inject_Z_div_pow10_nonneg txFee (decimals tokenMeta) Hfee).
      pose proof (inject_Z_div_pow10_nonneg (ed tokenMeta) (decimals tokenMeta)
                    (Hed _ eq_refl)).
      lra.
    + unfold Astar.maxInputOf. rewrite Hmeta.
      rewrite !value_minus, value_mul, value_ofNumber, !value_fromInner.
      pose proof (inject_Z_div_pow10_nonneg txFee FN.defaultPrecision Hfee).
      pose proof (inject_Z_div_pow10_nonneg 0 FN.defaultPrecision ltac:(lia)).
      lra.
  - intros chains this ba schedule token address to fees balances
           Hba Hfees Hbal Hnonneg Hed.
    rewrite (Parallel_subscribeMaxInput_eq _ _ _ _ _ _ _ _ _ Hba Hfees Hbal).
    eexists. split; [reflexivity|].
    apply Forall2_map_In. intros [[txFee availableBalance] edEmitted] Hin.
    apply combineLatest3_In in Hin. destruct Hin as ([Hfee | [=]] & _ & [Hedin | [=]]).
    apply Hnonneg in Hfee.
    rewrite Parallel_maxInputOf_value. unfold spec_maxSendable.
    pose proof (inject_Z_div_pow10_nonneg txFee (Parallel.getTokenDecimals ba token) Hfee).
    destruct edEmitted as [e|].
    + pose proof (Hed e Hedin). lra.
    + lra.
Qed.

Lemma subscribeMaxInput_at_most_available_witness :
  exists a1 a2,
    Astar.subscribeMaxInput Samples.chains 32 Samples.astar [true; false; false]
      "ASTR" Samples.alice "interlay"
    = inr [a1; a2] /\
    FN.value a1 <= 4999000 / pow10 18 /\
    FN.value a2 <= 0 / pow10 18.
Proof.
  destruct subscribeMaxInput_at_most_available as (_ & Hastar & _).
  destruct (Hastar Samples.chains 32%nat Samples.astar Samples.astarBalanceAdapter
              [true; false; false] "ASTR" Samples.alice "interlay" [10%Z] _
              eq_refl ltac:(do 2 eexists; repeat split) eq_refl)
    as (amounts & Hsub & Hall).
  - intros txFee [<- | []]. lia.
  - intros tokenMeta Hmeta. vm_compute in Hmeta. injection Hmeta as <-. simpl. lia.
  - inversion Hall as [|a1 p1 rest1 ps1 H1 Hall1]; subst.
    inversion Hall1 as [|a2 p2 rest2 ps2 H2 Hall2]; subst.
    inversion Hall2; subst.
    exists a1, a2. split; [exact Hsub|]. split.
    + eapply Qle_trans; [exact H1|]. vm_compute. discriminate.
    + eapply Qle_trans; [exact H2|]. vm_compute. discriminate.
Defined.

End MaxInputFurther.
